(** * Audit orchestration and reporting pipeline: a shallow embedding

    The development follows the Python sources of the pipeline:
    - [utils.py]: [retry_with_backoff], [chunk_data_by_tokens],
      [generate_gemini_summary], [generate_json_diff];
    - [chronicle_api.py]: [make_api_request];
    - [audit_logic.py]: [run_audit_logic];
    - [celery_worker.py]: [schedule_ticker].

    Python [str] values are modelled by [string] (code points 0..255),
    Python dictionaries by association lists in insertion order, and
    every effect (HTTP request, sleep, database insert, call to the
    generative model) is threaded through explicitly. *)

From Stdlib Require Import List String Ascii ZArith NArith QArith Lia Bool.
From Stdlib Require Import Permutation Sorted DecimalString OrdersEx.
Import ListNotations.
#[local] Set Warnings "-register-all".
Open Scope string_scope.
Open Scope Z_scope.

(** ** Python strings *)

Module PyStr.

(** [needle in hay] on Python strings. *)
Fixpoint contains (needle hay : string) : bool :=
  String.prefix needle hay ||
  match hay with
  | EmptyString => false
  | String _ rest => contains needle rest
  end.

(** [''.join(parts)] *)
Definition join (parts : list string) : string := String.concat "" parts.

(** The line boundaries of [str.splitlines] among the code points below 256:
    LF, VT, FF, CR, FS, GS, RS and NEL (CR LF counts as one boundary). *)
Definition is_linebreak (c : ascii) : bool :=
  match N_of_ascii c with
  | 10 | 11 | 12 | 13 | 28 | 29 | 30 | 133 => true
  | _ => false
  end%N.

Definition CR : ascii := ascii_of_N 13.
Definition DQUOTE : ascii := ascii_of_N 34.
Definition LF : ascii := ascii_of_N 10.

(** [s.splitlines(keepends=True)] *)
Fixpoint splitlines_keepends (s : string) : list string :=
  match s with
  | EmptyString => []
  | String c rest =>
      if is_linebreak c then
        match rest with
        | String c' rest' =>
            if (Ascii.eqb c CR && Ascii.eqb c' LF)%bool
            then String c (String c' EmptyString) :: splitlines_keepends rest'
            else String c EmptyString :: splitlines_keepends rest
        | EmptyString => [String c EmptyString]
        end
      else
        match splitlines_keepends rest with
        | [] => [String c EmptyString]
        | line :: lines => String c line :: lines
        end
  end.

(** [s.splitlines()] *)
Fixpoint splitlines (s : string) : list string :=
  match s with
  | EmptyString => []
  | String c rest =>
      if is_linebreak c then
        match rest with
        | String c' rest' =>
            if (Ascii.eqb c CR && Ascii.eqb c' LF)%bool
            then EmptyString :: splitlines rest'
            else EmptyString :: splitlines rest
        | EmptyString => [EmptyString]
        end
      else
        match splitlines rest with
        | [] => [String c EmptyString]
        | line :: lines => String c line :: lines
        end
  end.

(** The last character of the string is a line boundary. *)
Fixpoint ends_with_linebreak (s : string) : bool :=
  match s with
  | EmptyString => false
  | String c EmptyString => is_linebreak c
  | String _ rest => ends_with_linebreak rest
  end.

Definition nonempty (s : string) : bool :=
  match s with EmptyString => false | _ => true end.

Definition ends_lb (s : string) : Prop := ends_with_linebreak s = true.

(** [s.strip()]: the white space among the code points below 256. *)
Definition is_space (c : ascii) : bool :=
  match N_of_ascii c with
  | 9 | 10 | 11 | 12 | 13 | 28 | 29 | 30 | 31 | 32 | 133 | 160 => true
  | _ => false
  end%N.

Fixpoint lstrip (s : string) : string :=
  match s with
  | EmptyString => EmptyString
  | String c rest => if is_space c then lstrip rest else s
  end.

Fixpoint rstrip (s : string) : string :=
  match s with
  | EmptyString => EmptyString
  | String c rest =>
      match rstrip rest with
      | EmptyString => if is_space c then EmptyString else String c EmptyString
      | kept => String c kept
      end
  end.

Definition strip (s : string) : string := rstrip (lstrip s).

End PyStr.

(** ** Python values

    The values that cross the pipeline are the ones [json.loads] builds:
    [None], booleans, integers, floats (kept by their [repr]), strings,
    lists, and dictionaries with string keys.  A dictionary is an
    association list in insertion order. *)

Module Py.
Import PyStr.

Inductive value : Type :=
| VNone
| VBool (b : bool)
| VInt (n : Z)
| VFloat (repr : string)
| VStr (s : string)
| VList (items : list value)
| VDict (items : list (string * value)).

Definition dict := list (string * value).

(** Keys of a Python dictionary are pairwise distinct, at every depth. *)
Inductive wf : value -> Prop :=
| wf_none : wf VNone
| wf_bool b : wf (VBool b)
| wf_int n : wf (VInt n)
| wf_float r : wf (VFloat r)
| wf_str s : wf (VStr s)
| wf_list items : Forall wf items -> wf (VList items)
| wf_dict items :
    NoDup (map fst items) -> Forall (fun kv => wf (snd kv)) items ->
    wf (VDict items).

(** Induction on values, through lists and dictionaries. *)
Section ValueInduction.

Variable P : value -> Prop.
Hypothesis P_none : P VNone.
Hypothesis P_bool : forall b, P (VBool b).
Hypothesis P_int : forall n, P (VInt n).
Hypothesis P_float : forall r, P (VFloat r).
Hypothesis P_str : forall s, P (VStr s).
Hypothesis P_list : forall items, Forall P items -> P (VList items).
Hypothesis P_dict :
  forall items, Forall (fun kv => P (snd kv)) items -> P (VDict items).

Fixpoint value_rect' (v : value) : P v :=
  match v with
  | VNone => P_none
  | VBool b => P_bool b
  | VInt n => P_int n
  | VFloat r => P_float r
  | VStr s => P_str s
  | VList items =>
      P_list items
        ((fix all (l : list value) : Forall P l :=
            match l with
            | [] => Forall_nil P
            | x :: rest => Forall_cons x (value_rect' x) (all rest)
            end) items)
  | VDict items =>
      P_dict items
        ((fix all (l : list (string * value)) : Forall (fun kv => P (snd kv)) l :=
            match l with
            | [] => Forall_nil _
            | kv :: rest => Forall_cons kv (value_rect' (snd kv)) (all rest)
            end) items)
  end.

End ValueInduction.

(** [d.get(key)] as an option; [key in d] is [mem]. *)
Fixpoint lookup (key : string) (d : dict) : option value :=
  match d with
  | [] => None
  | (k, v) :: rest => if String.eqb k key then Some v else lookup key rest
  end.

Definition mem (key : string) (d : dict) : bool :=
  match lookup key d with Some _ => true | None => false end.

(** [d.get(key, default)] *)
Definition get (key : string) (default : value) (d : dict) : value :=
  match lookup key d with Some v => v | None => default end.

(** [d[key] = v]: an existing key keeps its position. *)
Fixpoint setitem (key : string) (v : value) (d : dict) : dict :=
  match d with
  | [] => [(key, v)]
  | (k, v0) :: rest =>
      if String.eqb k key then (k, v) :: rest else (k, v0) :: setitem key v rest
  end.

(** Truth value testing. *)
Definition truthy (v : value) : bool :=
  match v with
  | VNone => false
  | VBool b => b
  | VInt n => negb (n =? 0)
  | VFloat r => negb (String.eqb r "0.0" || String.eqb r "-0.0")
  | VStr s => nonempty s
  | VList [] => false
  | VList (_ :: _) => true
  | VDict [] => false
  | VDict (_ :: _) => true
  end.

(** [a or b] *)
Definition or_else (a b : value) : value := if truthy a then a else b.

(** [any(data)] for a list (its elements) or a dict (its keys). *)
Definition any (v : value) : bool :=
  match v with
  | VList items => existsb truthy items
  | VDict items => existsb (fun kv => nonempty (fst kv)) items
  | _ => false
  end.

Definition is_container (v : value) : bool :=
  match v with VList _ | VDict _ => true | _ => false end.

(** Decimal rendering of an integer. *)
Definition str_of_Z (n : Z) : string :=
  DecimalString.NilZero.string_of_int (Z.to_int n).

Definition hex_digit (n : N) : ascii :=
  match n with
  | 0 => "0" | 1 => "1" | 2 => "2" | 3 => "3" | 4 => "4" | 5 => "5"
  | 6 => "6" | 7 => "7" | 8 => "8" | 9 => "9" | 10 => "a" | 11 => "b"
  | 12 => "c" | 13 => "d" | 14 => "e" | _ => "f"
  end%N%char.

Definition hex2 (c : ascii) : string :=
  let n := N_of_ascii c in
  String (hex_digit (n / 16)) (String (hex_digit (n mod 16)) EmptyString).

Definition printable (c : ascii) : bool :=
  let n := N_of_ascii c in
  ((32 <=? n) && (n <? 127) || (161 <=? n) && negb (n =? 173))%N%bool.

(** [repr] of a string: single quotes unless the text has a single quote
    and no double quote. *)
Fixpoint repr_chars (quote : ascii) (s : string) : string :=
  match s with
  | EmptyString => EmptyString
  | String c rest =>
      let tail := repr_chars quote rest in
      if Ascii.eqb c "\" then String "\" (String "\" tail)
      else if Ascii.eqb c quote then String "\" (String c tail)
      else if Ascii.eqb c LF then String "\" (String "n" tail)
      else if Ascii.eqb c CR then String "\" (String "r" tail)
      else if Ascii.eqb c (ascii_of_N 9) then String "\" (String "t" tail)
      else if printable c then String c tail
      else String "\" (String "x" (hex2 c ++ tail))
  end%char.

Definition has_char (c : ascii) (s : string) : bool :=
  contains (String c EmptyString) s.

Definition repr_str (s : string) : string :=
  let quote : ascii :=
    if (has_char "'" s && negb (has_char DQUOTE s))%bool then DQUOTE
    else "'"%char in
  String quote (repr_chars quote s ++ String quote EmptyString).

Definition commas (parts : list string) : string := String.concat ", " parts.

(** [repr(v)] *)
Fixpoint repr (v : value) : string :=
  match v with
  | VNone => "None"
  | VBool true => "True"
  | VBool false => "False"
  | VInt n => str_of_Z n
  | VFloat r => r
  | VStr s => repr_str s
  | VList items => "[" ++ commas (map repr items) ++ "]"
  | VDict items =>
      "{" ++ commas (map (fun kv => repr_str (fst kv) ++ ": " ++ repr (snd kv)) items)
          ++ "}"
  end.

(** [str(v)], also the rendering of [v] inside an f-string. *)
Definition str (v : value) : string :=
  match v with
  | VStr s => s
  | _ => repr v
  end.

(** ** Exceptions *)

(** The response attached to a [requests] HTTP error. *)
Record http_response := mkResponse {
  status_code : Z;
  reason : string;
  text : string          (* the body; [content] is the same text *)
}.

Inductive exn : Type :=
| HTTPError (msg : string) (response : option http_response)
    (* requests.exceptions.HTTPError; [str(e)] is [msg] *)
| ResourceExhausted (msg : string)       (* google.api_core.exceptions *)
| ServiceUnavailable (msg : string)      (* google.api_core.exceptions *)
| ValueError (msg : string)
| KeyError (msg : string)
| TypeError (msg : string)
| AttributeError (msg : string)
| UnboundLocalError (msg : string)
| OtherError (cls msg : string).          (* any other [Exception] *)

(** [str(e)] *)
Definition exn_str (e : exn) : string :=
  match e with
  | HTTPError msg _ => msg
  | ResourceExhausted msg | ServiceUnavailable msg => msg
  | ValueError msg | TypeError msg | AttributeError msg
  | UnboundLocalError msg => msg
  | KeyError msg => repr_str msg
  | OtherError _ msg => msg
  end.

Inductive outcome (A : Type) : Type :=
| Returned (a : A)
| Raised (e : exn).
Arguments Returned {A} a.
Arguments Raised {A} e.

End Py.

(** ** [json.dumps(v, indent=2)] and [json.dumps(v, indent=2, sort_keys=True)] *)

Module Json.
Import PyStr Py.

(** The escapes of [json.dumps] with [ensure_ascii]. *)
Fixpoint escape (s : string) : string :=
  match s with
  | EmptyString => EmptyString
  | String c rest =>
      let tail := escape rest in
      if Ascii.eqb c DQUOTE then String "\" (String DQUOTE tail)
      else if Ascii.eqb c "\" then String "\" (String "\" tail)
      else if Ascii.eqb c LF then String "\" (String "n" tail)
      else if Ascii.eqb c CR then String "\" (String "r" tail)
      else if Ascii.eqb c (ascii_of_N 9) then String "\" (String "t" tail)
      else if Ascii.eqb c (ascii_of_N 8) then String "\" (String "b" tail)
      else if Ascii.eqb c (ascii_of_N 12) then String "\" (String "f" tail)
      else if ((32 <=? N_of_ascii c) && (N_of_ascii c <? 127))%N%bool
      then String c tail
      else String "\" (String "u" (String "0" (String "0" (hex2 c ++ tail))))
  end%char.

Definition quote (s : string) : string :=
  String DQUOTE (escape s ++ String DQUOTE EmptyString).

Fixpoint spaces (n : nat) : string :=
  match n with O => EmptyString | S n' => String " " (spaces n') end.

(** The newline and indentation in front of an entry at depth [level]. *)
Definition newline_indent (level : nat) : string :=
  String LF (spaces (2 * level)).

(** [sorted(items)] on entries with pairwise distinct keys: the order of
    the keys, code point by code point. *)
Fixpoint insert_item (kv : string * string) (l : list (string * string))
  : list (string * string) :=
  match l with
  | [] => [kv]
  | kv' :: rest =>
      match String_as_OT.compare (fst kv) (fst kv') with
      | Gt => kv' :: insert_item kv rest
      | _ => kv :: l
      end
  end.

Definition sort_items (l : list (string * string)) : list (string * string) :=
  fold_right insert_item [] l.

(** The order of two entries by their keys. *)
Definition key_le (x y : string * string) : Prop :=
  String_as_OT.compare (fst x) (fst y) <> Gt.

Definition bracket (open close : string) (level : nat) (entries : list string)
  : string :=
  match entries with
  | [] => open ++ close
  | _ :: _ =>
      open ++ newline_indent (S level)
        ++ String.concat ("," ++ newline_indent (S level)) entries
        ++ newline_indent level ++ close
  end.

(** The encoder, at nesting depth [level].  The values of a dictionary are
    rendered first and the entries ordered afterwards: the order looks at
    the keys only. *)
Fixpoint encode (sort_keys : bool) (level : nat) (v : value) : string :=
  match v with
  | VNone => "null"
  | VBool true => "true"
  | VBool false => "false"
  | VInt n => str_of_Z n
  | VFloat r => r
  | VStr s => quote s
  | VList items =>
      bracket "[" "]" level (map (encode sort_keys (S level)) items)
  | VDict items =>
      let rendered :=
        map (fun kv => (fst kv, encode sort_keys (S level) (snd kv))) items in
      let ordered := if sort_keys then sort_items rendered else rendered in
      bracket "{" "}" level
        (map (fun kv => quote (fst kv) ++ ": " ++ snd kv) ordered)
  end.

Definition dumps (v : value) : string := encode false 0 v.
Definition dumps_sorted (v : value) : string := encode true 0 v.

(** Two documents that differ at most in the order of the keys of their
    objects, at any depth. *)
Fixpoint same_up_to_key_order (a b : value) {struct a} : bool :=
  match a, b with
  | VNone, VNone => true
  | VBool x, VBool y => Bool.eqb x y
  | VInt x, VInt y => x =? y
  | VFloat x, VFloat y => String.eqb x y
  | VStr x, VStr y => String.eqb x y
  | VList xs, VList ys =>
      (fix all2 (xs ys : list value) {struct xs} : bool :=
         match xs, ys with
         | [], [] => true
         | x :: xs', y :: ys' => same_up_to_key_order x y && all2 xs' ys'
         | _, _ => false
         end) xs ys
  | VDict d1, VDict d2 =>
      Nat.eqb (List.length d1) (List.length d2) &&
      forallb (fun kv =>
                 match lookup (fst kv) d2 with
                 | Some v' => same_up_to_key_order (snd kv) v'
                 | None => false
                 end) d1
  | _, _ => false
  end.

(** A decoder for examples: a table from texts to the documents they
    stand for; any other text fails to decode. *)
Definition table_loads (table : list (string * value)) (s : string)
  : option value :=
  lookup s table.

(** The table of the texts [dumps] gives the documents. *)
Definition dumped (docs : list value) : list (string * value) :=
  map (fun v => (dumps v, v)) docs.

End Json.

(** ** RetryPolicy: [utils.retry_with_backoff] *)

Module RetryPolicy.
Import PyStr Py.

(** What [isinstance(result, dict)] sees of a result of type [R]. *)
Class PyResult (R : Type) := as_dict : R -> option dict.

#[global] Instance value_result : PyResult value :=
  fun v => match v with VDict d => Some d | _ => None end.

(** What the wrapper itself does, in order: it calls [f] and it sleeps. *)
Inductive action : Type :=
| Invoke
| Sleep (seconds : Q).

(** Which way an [except] clause leaves. *)
Inductive handler : Type :=
| Backoff       (* sleep, [x += 1], go round the [while True] again *)
| Reraise.      (* [raise e] *)

Section Wrapper.

Context {W R : Type} {HR : PyResult R}.

(** [random.uniform(0, 1)] as drawn before the sleep number [x]. *)
Variable uniform : nat -> Q.

Variable retries : nat.
Variable backoff_in_seconds : Z.

(** The wrapped function, acting on the world [W]; [None] when the call
    does not return at all. *)
Variable f : W -> option (outcome R * W).

(** Lines 65-72: the check of a returned dict for an embedded 429. *)
Definition inspect (result : R) : outcome R :=
  match as_dict result with
  | Some d =>
      if mem "error" d then
        let details := get "details" (VStr "") d in
        if contains "429" (str (get "error" (VStr "") d))
        then Raised (HTTPError ("Status 429: " ++ str details) None)
        else Returned result
      else Returned result
  | None => Returned result
  end.

(** Lines 74-97: the three [except] clauses, tried in order. *)
Definition except_clause (x : nat) (e : exn) : handler :=
  match e with
  | ResourceExhausted _ | ServiceUnavailable _ =>
      if Nat.eqb x retries then Reraise else Backoff
  | HTTPError _ _ =>
      if negb (contains "429" (exn_str e)) then Reraise
      else if Nat.eqb x retries then Reraise
      else Backoff
  | _ => Reraise
  end.

Definition sleep_time (x : nat) : Q :=
  (inject_Z (backoff_in_seconds * 2 ^ Z.of_nat x) + uniform x)%Q.

(** The [while True] loop of [wrapper]; [x] is the retry counter and
    [log] what the wrapper has done so far. *)
Fixpoint wrapper_loop (fuel x : nat) (w : W) (log : list action)
  : option (outcome R * W * list action) :=
  match fuel with
  | O => None
  | S fuel' =>
      match f w with
      | None => None
      | Some (res, w1) =>
          let log1 := (log ++ [Invoke])%list in
          let res1 :=
            match res with
            | Returned result => inspect result
            | Raised e => Raised e
            end in
          match res1 with
          | Returned result => Some (Returned result, w1, log1)
          | Raised e =>
              match except_clause x e with
              | Reraise => Some (Raised e, w1, log1)
              | Backoff =>
                  wrapper_loop fuel' (S x) w1 (log1 ++ [Sleep (sleep_time x)])%list
              end
          end
      end
  end.

(** [retry_with_backoff(retries, backoff_in_seconds)(f)], with the log of
    the wrapper's own actions. *)
Definition retry_with_backoff_log (w : W)
  : option (outcome R * W * list action) :=
  wrapper_loop (S retries) 0 w [].

Definition retry_with_backoff (w : W) : option (outcome R * W) :=
  match retry_with_backoff_log w with
  | Some (res, w', _) => Some (res, w')
  | None => None
  end.

End Wrapper.

(** Counting the wrapper's actions. *)
Definition is_invoke (a : action) : bool :=
  match a with Invoke => true | Sleep _ => false end.
Definition is_sleep (a : action) : bool :=
  match a with Invoke => false | Sleep _ => true end.
Definition invocations (log : list action) : nat :=
  List.length (filter is_invoke log).
Definition sleeps (log : list action) : nat :=
  List.length (filter is_sleep log).

(** The failures the [except] clauses treat as transient: the two Google
    API exceptions, and an HTTP error whose text mentions 429. *)
Definition retryable (e : exn) : bool :=
  match e with
  | ResourceExhausted _ | ServiceUnavailable _ => true
  | HTTPError msg _ => contains "429" msg
  | _ => false
  end.

(** Modelled from the spec: the retryable failures are HTTP 429,
    resource-exhausted and service-unavailable, and everything else is
    terminal.  An HTTP failure is told by the status of its response,
    not by its text. *)
Definition spec_retryable (e : exn) : bool :=
  match e with
  | ResourceExhausted _ | ServiceUnavailable _ => true
  | HTTPError _ (Some r) => status_code r =? 429
  | _ => false
  end.

(** The wrapper's actions when every attempt from retry [x] on fails
    retryably and [k] retries are left. *)
Fixpoint backoff_log (sleep_time : nat -> Q) (x k : nat) : list action :=
  match k with
  | O => [Invoke]
  | S k' => Invoke :: Sleep (sleep_time x) :: backoff_log sleep_time (S x) k'
  end.

(** The text [requests] gives the error of [raise_for_status]. *)
Definition http_error_message (status : Z) (reason url : string) : string :=
  str_of_Z status ++
  (if status <? 500 then " Client Error: " else " Server Error: ") ++
  reason ++ " for url: " ++ url.

(** A returned dict that carries a 429 in its ["error"] entry. *)
Definition rate_limited_payload {R} {HR : PyResult R} (result : R) : bool :=
  match as_dict result with
  | Some d => mem "error" d && contains "429" (str (get "error" (VStr "") d))
  | None => false
  end.

(** The operation fails with a retryable failure whenever it is called. *)
Definition always_retryable {W R : Type} (f : W -> option (outcome R * W))
  : Prop :=
  forall w, exists e w', f w = Some (Raised e, w') /\ retryable e = true.

(** The operation returns a rate-limited payload whenever it is called. *)
Definition always_rate_limited {W R : Type} {HR : PyResult R}
    (f : W -> option (outcome R * W)) : Prop :=
  forall w, exists result w',
    f w = Some (Returned result, w') /\ rate_limited_payload result = true.

(** The [details] the wrapper quotes when it turns such a payload into
    an error. *)
Definition payload_details {R} {HR : PyResult R} (result : R) : string :=
  match as_dict result with
  | Some d => str (get "details" (VStr "") d)
  | None => ""
  end.

(** The operation [f] seen as if each rate-limited payload it returns had
    been an HTTP 429 error raised by the transport. *)
Definition as_transport_failure {W R} {HR : PyResult R}
    (f : W -> option (outcome R * W)) : W -> option (outcome R * W) :=
  fun w =>
    match f w with
    | Some (Returned result, w') =>
        if rate_limited_payload result
        then Some (Raised (HTTPError ("Status 429: " ++ payload_details result) None), w')
        else Some (Returned result, w')
    | other => other
    end.

(** Operations on a call counter, for examples. *)
Module Sample.

Definition always_quota : nat -> option (outcome value * nat) :=
  fun n => Some (Raised (ResourceExhausted "quota exceeded"), S n).

Definition always_forbidden : nat -> option (outcome value * nat) :=
  fun n =>
    Some (Raised (HTTPError "403 Client Error: Forbidden for url: u" None), S n).

Definition always_payload (payload : value) : nat -> option (outcome value * nat) :=
  fun n => Some (Returned payload, S n).

Definition payload_429 : value :=
  VDict [("error", VStr "HTTP Error: 429"); ("details", VStr "slow down")].

Definition payload_500 : value :=
  VDict [("error", VStr "HTTP Error: 500"); ("details", VStr "boom")].

Definition no_jitter : nat -> Q := fun _ => 0%Q.

(** An operation that raises the same failure whenever it is called. *)
Definition always_raising (e : exn) : nat -> option (outcome value * nat) :=
  fun n => Some (Raised e, S n).

(** The error [raise_for_status] makes of the answer 404 to a request
    for case 1429. *)
Definition case_url : string := "https://soar.example/api/cases/1429".

Definition not_found : exn :=
  HTTPError (http_error_message 404 "Not Found" case_url)
    (Some (mkResponse 404 "Not Found" "")).

(** An HTTP 429 error whose text does not show the status. *)
Definition quiet_429 : exn :=
  HTTPError "Too Many Requests" (Some (mkResponse 429 "Too Many Requests" "")).

End Sample.

End RetryPolicy.

(** ** The database and the outside world *)

Module Sys.
Import PyStr Py.

(** A row of [secops_tenant_config]; the text columns hold a [str] or
    [None]. *)
Record tenant_config := mkTenantConfig {
  cfg_project_id : string;
  secops_customer_id : value;
  secops_region : value;
  soar_url : value;
  soar_api_key : value;
  bindplane_url : value;
  bindplane_api_key : value
}.

Record audit_type := mkAuditType {
  at_id : Z;
  at_name : string;
  at_icon : value;
  at_auth_method : string
}.

Record configurable_audit := mkConfigurableAudit {
  ca_name : string;
  ca_category : string;
  ca_api_path : value;
  ca_method : value;
  ca_response_key : value;
  ca_default_page_size : value;
  ca_audit_type : option audit_type;    (* the [audit_type] relationship *)
  ca_response_format : value;
  ca_pagination_token_key : value;
  ca_pagination_results_key : value;
  ca_pagination_request_token_key : value;
  ca_max_pages : value
}.

Record custom_yl2_query := mkCustomQuery {
  q_name : string;
  q_category : string;
  q_yl2_query : string;
  q_time_unit : string;
  q_time_value : Z
}.

(** A row of [audit]: an audit run record. *)
Record audit := mkAudit {
  tenant_project_id : string;
  audit_category : value;
  audit_name : value;
  run_timestamp : string;
  status : string;
  results : string
}.

Record database := mkDatabase {
  tenant_configs : list tenant_config;
  audit_types : list audit_type;
  configurable_audits : list configurable_audit;
  custom_yl2_queries : list custom_yl2_query;
  audits : list audit          (* in insertion order *)
}.

(** An outgoing HTTP request. *)
Record request := mkRequest {
  req_method : value;
  req_url : string;
  req_params : dict;
  req_json : value;
  req_headers : dict
}.

Record World := mkWorld {
  db : database;
  http_log : list request     (* the requests issued so far, oldest first *)
}.

Definition log_request (r : request) (w : World) : World :=
  mkWorld (db w) (http_log w ++ [r])%list.

(** [query(SecopsTenantConfig).filter_by(project_id=...).first()] *)
Definition first_tenant_config (project_id : string) (d : database)
  : option tenant_config :=
  find (fun c => String.eqb (cfg_project_id c) project_id) (tenant_configs d).

(** The [NOT NULL] columns of [audit]. *)
Definition insertable (row : audit) : bool :=
  match audit_category row, audit_name row with
  | VNone, _ | _, VNone => false
  | _, _ => true
  end.

(** [db_session.add(row); db_session.commit()] *)
Definition add_and_commit (row : audit) (w : World) : outcome unit * World :=
  if insertable row then
    (Returned tt,
     mkWorld (mkDatabase (tenant_configs (db w)) (audit_types (db w))
                (configurable_audits (db w)) (custom_yl2_queries (db w))
                (audits (db w) ++ [row])%list)
             (http_log w))
  else
    (Raised (OtherError "IntegrityError" "NOT NULL constraint failed"), w).

End Sys.

(** ** PaginatedFetcher: [chronicle_api.make_api_request] *)

Module PaginatedFetcher.
Import PyStr Py Sys RetryPolicy.

(** [s.lstrip('/')] and [s.rstrip('/')] *)
Fixpoint lstrip_slash (s : string) : string :=
  match s with
  | EmptyString => EmptyString
  | String c rest => if Ascii.eqb c "/" then lstrip_slash rest else s
  end.

Fixpoint rstrip_slash (s : string) : string :=
  match s with
  | EmptyString => EmptyString
  | String c rest =>
      match rstrip_slash rest with
      | EmptyString => if Ascii.eqb c "/" then EmptyString else String c EmptyString
      | kept => String c kept
      end
  end.

(** [template.format(parent=...)]: doubled braces are literal braces and
    [{parent}] is replaced; any other replacement field, or a single
    brace, raises (conversions and format specifications on [parent] are
    not modelled and count as such a field).  [skip] characters are
    passed over first. *)
Fixpoint format_scan (parent : string) (skip : nat) (s : string)
  : option string :=
  match s with
  | EmptyString => Some EmptyString
  | String c rest =>
      match skip with
      | S k => format_scan parent k rest
      | O =>
          if Ascii.eqb c "{" then
            if String.prefix "{{" s
            then option_map (String "{") (format_scan parent 1 rest)
            else if String.prefix "{parent}" s
            then option_map (String.append parent) (format_scan parent 7 rest)
            else None
          else if Ascii.eqb c "}" then
            if String.prefix "}}" s
            then option_map (String "}") (format_scan parent 1 rest)
            else None
          else option_map (String c) (format_scan parent 0 rest)
      end
  end.

Definition format_parent (template : string) (parent_path : value)
  : outcome string :=
  match format_scan (str parent_path) 0 template with
  | Some s => Returned s
  | None => Raised (ValueError "cannot format the path template")
  end.

(** A key of the audit definition that is configured: a non-empty [str]
    (the columns hold a [str] or [None]). *)
Definition configured (key : value) : option string :=
  match key with
  | VStr s => if nonempty s then Some s else None
  | _ => None
  end.

(** [key in data] for a string [key]. *)
Definition key_in (key : string) (data : value) : outcome bool :=
  match data with
  | VDict d => Returned (mem key d)
  | VList items =>
      Returned (existsb (fun v => match v with
                                  | VStr s => String.eqb s key
                                  | _ => false
                                  end) items)
  | VStr s => Returned (contains key s)
  | _ => Raised (TypeError "argument is not iterable")
  end.

(** [data.get(key, default)] on whatever [response.json()] returned. *)
Definition data_get (key : string) (default : value) (data : value)
  : outcome value :=
  match data with
  | VDict d => Returned (get key default d)
  | _ => Raised (AttributeError "object has no attribute 'get'")
  end.

(** [token[:10]] evaluates for strings and lists only. *)
Definition sliceable (v : value) : bool :=
  match v with VStr _ | VList _ => true | _ => false end.

(** [type(v).__name__] *)
Definition type_name (v : value) : string :=
  match v with
  | VNone => "NoneType"
  | VBool _ => "bool"
  | VInt _ => "int"
  | VFloat _ => "float"
  | VStr _ => "str"
  | VList _ => "list"
  | VDict _ => "dict"
  end.

(** What [token[:10]] raises for a token that cannot be sliced (a dict
    takes the slice for a key, which cannot be hashed). *)
Definition slice_error (v : value) : exn :=
  match v with
  | VDict _ => TypeError "unhashable type: 'slice'"
  | _ => TypeError ("'" ++ type_name v ++ "' object is not subscriptable")
  end.

(** [max_pages and page_count > max_pages] *)
Definition cap_reached (max_pages : value) (page_count : Z) : bool :=
  match max_pages with
  | VInt m => negb (m =? 0) && (page_count >? m)
  | _ => false
  end.

Definition error1 (msg : string) : value := VDict [("error", VStr msg)].

(** How one round of the [while True] loop ends. *)
Inductive round : Type :=
| Continue (next_page_token : value) (all_results : list value)
| Break (all_results : list value)
| Return (v : value)
| Raise (e : exn).

Section MakeApiRequest.

(** The remote API: its answer to a request, given the requests issued
    before it; the transport may raise instead. *)
Variable server : list request -> request -> outcome http_response.

(** [json.loads]; [None] when decoding fails. *)
Variable json_loads : string -> option value.

(** [utils.get_gcp_credentials()] *)
Variable get_gcp_credentials : outcome unit.

(** [response.raise_for_status()] *)
Definition raise_for_status (url : string) (r : http_response) : option exn :=
  if (400 <=? status_code r) && (status_code r <? 600)
  then Some (HTTPError (http_error_message (status_code r) (reason r) url)
                       (Some r))
  else None.

Section Loop.

Variables (method json_data : value) (url : string) (headers : dict).
Variables (page_token_key results_key request_token_key page_size : value).
Variable max_pages : value.

(** Lines 69-76: the query parameters of the next request. *)
Definition token_param (next_page_token : value) : option string :=
  match configured request_token_key with
  | Some k => if truthy next_page_token then Some k else None
  | None => None
  end.

Definition page_request (next_page_token : value) : request :=
  let params0 : dict :=
    if truthy page_size then [("pageSize", page_size)] else [] in
  let params : dict :=
    match token_param next_page_token with
    | Some k => setitem k next_page_token params0
    | None => params0
    end in
  mkRequest method url params json_data headers.

(** Line 75: the token is sliced for the log line. *)
Definition print_error (next_page_token : value) : option exn :=
  match token_param next_page_token with
  | Some _ =>
      if sliceable next_page_token then None
      else Some (slice_error next_page_token)
  | None => None
  end.

(** Lines 64-123: one round, entered with [page_count] already
    incremented. *)
Definition one_round (page_count : Z) (next_page_token : value)
    (all_results : list value) (w : World) : round * World :=
  if cap_reached max_pages page_count then (Break all_results, w) else
  match print_error next_page_token with
  | Some e => (Raise e, w)
  | None =>
  let req := page_request next_page_token in
  match server (http_log w) req with
  | Raised e => (Raise e, log_request req w)
  | Returned response =>
  let w := log_request req w in
  match raise_for_status url response with
  | Some e => (Raise e, w)
  | None =>
  if (status_code response =? 204) || negb (nonempty (text response))
  then (Break all_results, w) else
  match json_loads (text response) with
  | None =>
      match all_results with
      | [] => (Return (VDict [("result", VStr (text response))]), w)
      | _ :: _ => (Break all_results, w)
      end
  | Some data =>
  (* data aggregation *)
  let aggregated : round :=
    match configured results_key with
    | Some rk =>
        match key_in rk data with
        | Raised e => Raise e
        | Returned true =>
            match data_get rk (VList []) data with
            | Raised e => Raise e
            | Returned (VList results_on_page) =>
                Continue VNone (all_results ++ results_on_page)%list
            | Returned _ => Return data
            end
        | Returned false =>
            match configured page_token_key with
            | Some _ => Continue VNone all_results
            | None => Return data
            end
        end
    | None =>
        match configured page_token_key with
        | Some _ => Continue VNone all_results
        | None => Return data
        end
    end in
  match aggregated with
  | Continue _ all_results =>
      (* token handling *)
      match configured page_token_key with
      | Some tk =>
          match data_get tk VNone data with
          | Raised e => (Raise e, w)
          | Returned token =>
              if negb (truthy token) then (Break all_results, w)
              else if sliceable token then (Continue token all_results, w)
              else (Raise (slice_error token), w)
          end
      | None => (Break all_results, w)
      end
  | other => (other, w)
  end end end end end.

(** Lines 63-123: the [while True] loop; [None] when the fuel runs out
    before the loop is left. *)
Fixpoint pages_loop (fuel : nat) (page_count : Z) (next_page_token : value)
    (all_results : list value) (w : World) : option (round * World) :=
  match fuel with
  | O => None
  | S fuel' =>
      let page_count := page_count + 1 in
      match one_round page_count next_page_token all_results w with
      | (Continue token results, w') =>
          pages_loop fuel' page_count token results w'
      | (exit, w') => Some (exit, w')
      end
  end.

(** Lines 125-131: the result after the loop was left by [break]. *)
Definition final_result (all_results : list value) : value :=
  match configured results_key with
  | Some rk => VDict [(rk, VList all_results)]
  | None =>
      match all_results with
      | [only] => only
      | _ => VDict [("results", VList all_results)]
      end
  end.

End Loop.

(** Lines 133-141: the two [except] clauses of the function. *)
Definition error_message (e_str : string) (r : http_response) : value :=
  match json_loads (text r) with
  | Some (VDict error_details) =>
      match get "error" (VDict []) error_details with
      | VDict err => get "message" (VStr e_str) err
      | _ => VStr e_str
      end
  | _ => VStr e_str
  end.

Definition except_clauses (e : exn) : outcome value :=
  match e with
  | HTTPError msg (Some r) =>
      Returned (VDict [("error", VStr ("HTTP Error: " ++ str_of_Z (status_code r)));
                       ("details", error_message msg r)])
  | HTTPError _ None =>
      Raised (AttributeError "'NoneType' object has no attribute 'status_code'")
  | _ =>
      Returned (VDict [("error", VStr "An unexpected error occurred");
                       ("details", VStr (exn_str e))])
  end.

(** What the function gives back for each way the loop is left: the
    aggregated result after [break], the value of a [return], and the
    error dict the [except] clauses make of an exception. *)
Definition finish (results_key : value) (exit : round) : outcome value :=
  match exit with
  | Break all_results => Returned (final_result results_key all_results)
  | Return v => Returned v
  | Raise e => except_clauses e
  | Continue _ all_results => Returned (final_result results_key all_results)
  end.

(** Lines 20-56 after the tenant configuration was found: the fields of
    the audit definition, the path, the authentication and the URL. *)
Definition prepare (config : tenant_config) (audit_details : dict)
    (base_url parent_path : value)
  : outcome (value + (string * dict)) :=
  let auth_method := get "auth_method" (VStr "GCP") audit_details in
  let api_path := get "api_path" (VStr "") audit_details in
  (* line 32-33 *)
  let formatted : outcome value :=
    match key_in "{parent}" api_path with
    | Raised e => Raised e
    | Returned false => Returned api_path
    | Returned true =>
        match api_path with
        | VStr p =>
            match format_parent p parent_path with
            | Returned p' => Returned (VStr p')
            | Raised e => Raised e
            end
        | _ => Raised (AttributeError "object has no attribute 'format'")
        end
    end in
  match formatted with
  | Raised e => Raised e
  | Returned api_path =>
      (* lines 39-53 *)
      let auth : outcome (value + dict) :=
        match auth_method with
        | VStr "GCP" =>
            match get_gcp_credentials with
            | Returned _ => Returned (inr [])
            | Raised e => Raised e
            end
        | VStr "SOAR_API_KEY" =>
            if truthy (soar_api_key config)
            then Returned (inr [("AppKey", soar_api_key config)])
            else Returned (inl (error1 "SOAR API Key is not configured."))
        | VStr "BINDPLANE_API_KEY" =>
            if truthy (bindplane_api_key config)
            then Returned (inr [("X-Bindplane-Api-Key", bindplane_api_key config)])
            else Returned (inl (error1 "BindPlane API Key is not configured."))
        | other =>
            Returned (inl (error1 ("Unknown auth method: " ++ str other)))
        end in
      match auth with
      | Raised e => Raised e
      | Returned (inl early) => Returned (inl early)
      | Returned (inr headers) =>
          (* line 56 *)
          match base_url, api_path with
          | VStr base, VStr path =>
              Returned (inr (rstrip_slash base ++ "/" ++ lstrip_slash path,
                             headers))
          | VStr _, _ => Raised (AttributeError "object has no attribute 'lstrip'")
          | _, _ => Raised (AttributeError "object has no attribute 'rstrip'")
          end
      end
  end.

(** The function as written, before the decorator is applied. *)
Definition make_api_request_body (fuel : nat) (project_id : string)
    (audit_details : dict) (base_url parent_path max_pages : value)
    (w : World) : option (outcome value * World) :=
  match first_tenant_config project_id (db w) with
  | None => Some (Returned (error1 "Configuration not found for this project."), w)
  | Some config =>
      match prepare config audit_details base_url parent_path with
      | Raised e => Some (except_clauses e, w)
      | Returned (inl early) => Some (Returned early, w)
      | Returned (inr (url, headers)) =>
          let page_token_key := get "pagination_token_key" VNone audit_details in
          let results_key := get "pagination_results_key" VNone audit_details in
          let request_token_key :=
            or_else (get "pagination_request_token_key" VNone audit_details)
                    page_token_key in
          match pages_loop (get "method" (VStr "GET") audit_details)
                  (get "json_data" VNone audit_details) url headers
                  page_token_key results_key request_token_key
                  (get "default_page_size" VNone audit_details)
                  max_pages fuel 0 VNone [] w with
          | None => None
          | Some (Continue _ _, _) => None
          | Some (exit, w') => Some (finish results_key exit, w')
          end
      end
  end.

(** [@retry_with_backoff(retries=3, backoff_in_seconds=2)] *)
Definition make_api_request (uniform : nat -> Q) (fuel : nat)
    (project_id : string) (audit_details : dict)
    (base_url parent_path max_pages : value)
  : World -> option (outcome value * World) :=
  retry_with_backoff uniform 3 2
    (make_api_request_body fuel project_id audit_details base_url parent_path
       max_pages).

End MakeApiRequest.

(** The answers the server gave to the requests [new], issued in this
    order after the requests [history]. *)
Fixpoint replay (server : list request -> request -> outcome http_response)
    (history new : list request) : list (outcome http_response) :=
  match new with
  | [] => []
  | r :: rest => server history r :: replay server (history ++ [r])%list rest
  end.

(** The body of a successful answer that is not the empty answer. *)
Definition page_body (o : outcome http_response) : option string :=
  match o with
  | Returned r =>
      if ((400 <=? status_code r) && (status_code r <? 600)
          || (status_code r =? 204) || negb (nonempty (text r)))%bool
      then None else Some (text r)
  | Raised _ => None
  end.

(** The items of a page: the list under the results key, if there is one. *)
Definition page_items (json_loads : string -> option value) (results_key : string)
    (o : outcome http_response) : option (list value) :=
  match page_body o with
  | Some body =>
      match json_loads body with
      | Some (VDict d) =>
          match lookup results_key d with
          | Some (VList items) => Some items
          | _ => None
          end
      | _ => None
      end
  | None => None
  end.

Definition page_item_count (json_loads : string -> option value)
    (results_key : string) (o : outcome http_response) : nat :=
  match page_items json_loads results_key o with
  | Some items => List.length items
  | None => O
  end.

(** The answer is a page whose value under the results key is a list. *)
Definition is_list_page (json_loads : string -> option value)
    (results_key : string) (o : outcome http_response) : bool :=
  match page_items json_loads results_key o with
  | Some _ => true
  | None => false
  end.

(** The next-page token of the answer, if it has one, can be sliced: it
    is a string (or a list). *)
Definition token_is_text (json_loads : string -> option value)
    (page_token_key : value) (o : outcome http_response) : bool :=
  match configured page_token_key, page_body o with
  | Some tk, Some body =>
      match json_loads body with
      | Some (VDict d) =>
          let token := get tk VNone d in
          negb (truthy token) || sliceable token
      | _ => true
      end
  | _, _ => true
  end.

Definition is_continue (r : round) : bool :=
  match r with Continue _ _ => true | _ => false end.

(** The token carried into a round can be sliced whenever it is used. *)
Definition token_ok (token : value) : bool :=
  negb (truthy token) || sliceable token.

(** A page as the count needs it: a list under the results key, and a
    next-page token that is text. *)
Definition good_page (json_loads : string -> option value)
    (page_token_key : value) (results_key : string)
    (o : outcome http_response) : bool :=
  is_list_page json_loads results_key o
  && token_is_text json_loads page_token_key o.

(** The sum of the item counts of the answers. *)
Definition total_items (json_loads : string -> option value)
    (results_key : string) (answers : list (outcome http_response)) : nat :=
  list_sum (map (page_item_count json_loads results_key) answers).

(** The number of items in a result of the form [{results_key: [...]}]. *)
Definition result_item_count (results_key : string) (res : outcome value)
  : option nat :=
  match res with
  | Returned (VDict [(k, VList items)]) =>
      if String.eqb k results_key then Some (List.length items) else None
  | _ => None
  end.

(** A mock server that serves a fixed list of responses, one per request,
    and fails once they are used up. *)
Definition mock_server (pages : list http_response)
  : list request -> request -> outcome http_response :=
  fun history _ =>
    match nth_error pages (List.length history) with
    | Some page => Returned page
    | None => Raised (OtherError "StopIteration" "")
    end.

(** A tenant, an audit definition and some pages, for examples. *)
Module Sample.

Definition tenant : tenant_config :=
  mkTenantConfig "proj-1" (VStr "cust") (VStr "us")
    (VStr "https://soar.example/") (VStr "key") VNone VNone.

Definition soar_type : audit_type := mkAuditType 1 "SOAR" VNone "SOAR_API_KEY".

Definition rules_audit : configurable_audit :=
  mkConfigurableAudit "rules" "Detection" (VStr "/v1/rules") (VStr "GET")
    VNone VNone (Some soar_type) (VStr "JSON") (VStr "next") (VStr "items")
    VNone (VInt 2).

Definition database0 : database :=
  mkDatabase [tenant] [soar_type] [rules_audit] [] [].

Definition world0 : World := mkWorld database0 [].

Definition details : dict :=
  [("name", VStr "rules"); ("auth_method", VStr "SOAR_API_KEY");
   ("api_path", VStr "/v1/{parent}/rules");
   ("pagination_token_key", VStr "next");
   ("pagination_results_key", VStr "items")].

Definition page (items : list value) (next : value) : value :=
  VDict [("items", VList items); ("next", next)].

Definition ok (v : value) : http_response := mkResponse 200 "OK" (Json.dumps v).

Definition page1 : value := page [VInt 1; VInt 2] (VStr "t1").
Definition page2 : value := page [VInt 3] (VStr "t2").
Definition page3 : value := page [VInt 4; VInt 5] VNone.

(** A page whose next-page token is a number. *)
Definition numbered_page : value := page [VInt 1; VInt 2] (VInt 7).

Definition html : http_response := mkResponse 200 "OK" "<html>".

Definition too_many_requests : http_response :=
  mkResponse 429 "Too Many Requests" "".

(** A server that answers every request with HTTP 429, and one that
    answers every request with HTTP 500. *)
Definition always_429 : list request -> request -> outcome http_response :=
  fun _ _ => Returned too_many_requests.

Definition always_500 : list request -> request -> outcome http_response :=
  fun _ _ => Returned (mkResponse 500 "Internal Server Error" "").

Definition loads : string -> option value :=
  Json.table_loads (Json.dumped [page1; page2; page3; numbered_page]).

Definition base_url : value := VStr "https://soar.example/".
Definition parent_path : value := VStr "parent".

(** The first request of the example audit. *)
Definition first_request : request :=
  mkRequest (VStr "GET") "https://soar.example/v1/parent/rules" [] VNone
    [("AppKey", VStr "key")].

End Sample.

End PaginatedFetcher.

(** ** Audit runs: [audit_logic.run_audit_logic] *)

Module AuditRun.
Import PyStr Py Sys Json RetryPolicy PaginatedFetcher.

(** [utils.get_response_details]: the size in bytes and the item count. *)
Definition get_response_details (response_data : value) : Z * Z :=
  if negb (truthy response_data) then (0, 0) else
  let size_bytes := Z.of_nat (String.length (dumps response_data)) in
  let item_count :=
    match response_data with
    | VDict d =>
        match find (fun kv => match snd kv with VList _ => true | _ => false end) d with
        | Some (_, VList items) =>
            match items with
            | [] => 1
            | _ => Z.of_nat (List.length items)
            end
        | _ => 1
        end
    | VList items => Z.of_nat (List.length items)
    | _ => 0
    end in
  (size_bytes, item_count).

(** One entry of the dictionary built by [list_available_audits_from_db]. *)
Definition configurable_details (a : configurable_audit) : outcome dict :=
  match ca_audit_type a with
  | None => Raised (AttributeError "'NoneType' object has no attribute 'name'")
  | Some t =>
      Returned
        [("category", VStr (ca_category a));
         ("api_path", ca_api_path a);
         ("method", ca_method a);
         ("response_key", ca_response_key a);
         ("default_page_size", ca_default_page_size a);
         ("audit_type_name", VStr (at_name t));
         ("audit_type_icon", at_icon t);
         ("auth_method", VStr (at_auth_method t));
         ("response_format", ca_response_format a);
         ("pagination_token_key", ca_pagination_token_key a);
         ("pagination_results_key", ca_pagination_results_key a);
         ("pagination_request_token_key", ca_pagination_request_token_key a);
         ("max_pages", ca_max_pages a)]
  end.

Definition custom_query_details (yl2 : option audit_type) (q : custom_yl2_query)
  : dict :=
  [("category", VStr (q_category q));
   ("audit_type_name",
      VStr (match yl2 with Some t => at_name t | None => "Custom YL2" end));
   ("audit_type_icon",
      match yl2 with Some t => at_icon t | None => VStr "code" end);
   ("yl2_query", VStr (q_yl2_query q));
   ("time_unit", VStr (q_time_unit q));
   ("time_value", VInt (q_time_value q));
   ("api_path", VStr "v1alpha/{parent}/dashboardQueries:execute");
   ("method", VStr "POST");
   ("response_key", VStr "queryResults")].

Fixpoint add_configurable (rows : list configurable_audit) (all_audits : dict)
  : outcome dict :=
  match rows with
  | [] => Returned all_audits
  | a :: rest =>
      match configurable_details a with
      | Raised e => Raised e
      | Returned details =>
          add_configurable rest (setitem (ca_name a) (VDict details) all_audits)
      end
  end.

(** [list_available_audits_from_db()]: audit name to audit definition. *)
Definition list_available_audits_from_db (d : database) : outcome dict :=
  match add_configurable (configurable_audits d) [] with
  | Raised e => Raised e
  | Returned all_audits =>
      let yl2 :=
        find (fun t => String.eqb (at_name t) "Custom YL2") (audit_types d) in
      Returned
        (fold_left
           (fun acc q => setitem (q_name q) (VDict (custom_query_details yl2 q)) acc)
           (custom_yl2_queries d) all_audits)
  end.

(** [obj[key]] *)
Definition subscript (obj : value) (key : string) : outcome value :=
  match obj with
  | VDict d =>
      match lookup key d with
      | Some v => Returned v
      | None => Raised (KeyError key)
      end
  | VStr _ | VList _ => Raised (TypeError "indices must be integers")
  | _ => Raised (TypeError "object is not subscriptable")
  end.

(** [obj.get(key, default)] on a local that should be a dict. *)
Definition attr_get (obj : value) (key : string) (default : value)
  : outcome value :=
  match obj with
  | VDict d => Returned (get key default d)
  | _ => Raised (AttributeError "object has no attribute 'get'")
  end.

Definition is_str (s : string) (v : value) : bool :=
  match v with VStr s' => String.eqb s' s | _ => false end.

Section RunAuditLogic.

Variable server : list request -> request -> outcome http_response.
Variable json_loads : string -> option value.
Variable get_gcp_credentials : outcome unit.
Variable uniform : nat -> Q.

(** [custom_audits.run_custom_iam_audit]: it catches every exception and
    returns a dict. *)
Variable run_custom_iam_audit : string -> value.

(** [datetime.datetime.utcnow().isoformat()] *)
Variable utcnow_iso : World -> string.

(** The text of [round(size_bytes / 1024, 2)]. *)
Variable render_kb : Z -> string.

(** Bound on the rounds of pagination that are followed. *)
Variable fuel : nat.

(** Lines 67-75: the branch that binds [audit_details].  The second
    component is the binding of the local when the branch is left:
    [None] while the name is still unbound. *)
Definition resolve (request : dict) (d : database)
  : outcome value * option value :=
  let audit_name := get "audit_name" VNone request in
  let audit_details_override := get "audit_details" VNone request in
  if truthy audit_details_override then
    match subscript audit_details_override "audit_type_id" with
    | Raised e => (Raised e, Some audit_details_override)
    | Returned id =>
        match filter (fun t => match id with
                               | VInt n => at_id t =? n
                               | _ => false
                               end) (audit_types d) with
        | [t] =>
            match audit_details_override with
            | VDict o =>
                let ad := VDict (setitem "auth_method" (VStr (at_auth_method t)) o) in
                (Returned ad, Some ad)
            | _ => (Raised (TypeError "object does not support item assignment"),
                    Some audit_details_override)
            end
        | [] => (Raised (OtherError "NoResultFound" "No row was found when one was required"),
                 Some audit_details_override)
        | _ => (Raised (OtherError "MultipleResultsFound" "Multiple rows were found when exactly one was required"),
                Some audit_details_override)
        end
    end
  else if truthy audit_name then
    match list_available_audits_from_db d with
    | Raised e => (Raised e, None)
    | Returned all_audits =>
        match audit_name with
        | VList _ | VDict _ => (Raised (TypeError "unhashable type"), None)
        | VStr n => let ad := get n VNone all_audits in (Returned ad, Some ad)
        | _ => (Returned VNone, Some VNone)
        end
    end
  else
    (Raised (ValueError "Request must include either 'audit_name' or 'audit_details'."),
     None).

(** Lines 80-110: the call that produces [final_response]; the third
    component is [audit_details] as the call leaves it. *)
Definition fetch (project_id : string) (audit_details : dict) (w : World)
  : option (outcome value * World * dict) :=
  let audit_type :=
    or_else (get "audit_type_name" VNone audit_details)
            (get "audit_type" VNone audit_details) in
  if is_str "Custom IAM" audit_type then
    Some (Returned (run_custom_iam_audit project_id), w, audit_details)
  else
    match first_tenant_config project_id (db w) with
    | None => Some (Raised (ValueError "Tenant is not configured."), w, audit_details)
    | Some config =>
        let with_payload : outcome dict :=
          if is_str "Custom YL2" audit_type then
            match get "yl2_query" (VStr "") audit_details with
            | VStr q =>
                Returned
                  (setitem "json_data"
                     (VDict [("query",
                        VDict [("query", VStr (strip q));
                               ("input",
                                 VDict [("relativeTime",
                                   VDict [("timeUnit", get "time_unit" VNone audit_details);
                                          ("startTimeVal",
                                            VStr (str (get "time_value" VNone audit_details)))])])])])
                     audit_details)
            | _ => Raised (AttributeError "object has no attribute 'strip'")
            end
          else Returned audit_details in
        match with_payload with
        | Raised e => Some (Raised e, w, audit_details)
        | Returned audit_details =>
            let auth_method := get "auth_method" (VStr "GCP") audit_details in
            let '(parent_path, base_url) :=
              if is_str "GCP" auth_method then
                (VStr ("projects/" ++ project_id ++ "/locations/"
                         ++ str (secops_region config) ++ "/instances/"
                         ++ str (secops_customer_id config)),
                 VStr ("https://" ++ str (secops_region config)
                         ++ "-chronicle.googleapis.com"))
              else if is_str "SOAR_API_KEY" auth_method then (VNone, soar_url config)
              else if is_str "BINDPLANE_API_KEY" auth_method then
                (VNone, bindplane_url config)
              else (VNone, VNone) in
            match make_api_request server json_loads get_gcp_credentials uniform
                    fuel project_id audit_details base_url parent_path
                    (get "max_pages" VNone audit_details) w with
            | None => None
            | Some (res, w') => Some (res, w', audit_details)
            end
        end
    end.

Definition new_audit (project_id : string) (category name : value)
    (status results : string) (w : World) : audit :=
  mkAudit project_id category name (utcnow_iso w) status results.

(** Lines 112-131: after [final_response] is known. *)
Definition record_success (project_id : string) (audit_name : value)
    (audit_details : dict) (final_response : value) (w : World)
  : outcome value * World :=
  match key_in "error" final_response with
  | Raised e => (Raised e, w)
  | Returned true =>
      match attr_get final_response "error" (VStr "Unknown error") with
      | Raised e => (Raised e, w)
      | Returned fallback =>
          match attr_get final_response "details" fallback with
          | Raised e => (Raised e, w)
          | Returned error_detail => (Raised (ValueError (str error_detail)), w)
          end
      end
  | Returned false =>
      let current_audit_name :=
        or_else (get "name" VNone audit_details) audit_name in
      let row :=
        new_audit project_id (get "category" (VStr "Unknown") audit_details)
          current_audit_name "Success" (dumps final_response) w in
      match add_and_commit row w with
      | (Raised e, w') => (Raised e, w')
      | (Returned _, w') =>
          let '(size_bytes, item_count) := get_response_details final_response in
          (Returned
             (VDict [("message",
                VStr ("Audit '" ++ str current_audit_name
                        ++ "' completed successfully. Results: "
                        ++ str_of_Z item_count ++ " items ("
                        ++ render_kb size_bytes ++ " KB).")) ]),
           w')
      end
  end.

(** Lines 66-131: the [try] block, with the binding of [audit_details]
    when it is left. *)
Definition try_block (project_id : string) (request : dict) (w : World)
  : option (outcome value * World * option value) :=
  let audit_name := get "audit_name" VNone request in
  match resolve request (db w) with
  | (Raised e, binding) => Some (Raised e, w, binding)
  | (Returned audit_details, binding) =>
      if negb (truthy audit_details) then
        Some (Raised (ValueError ("Audit '" ++ str audit_name ++ "' not found")),
              w, binding)
      else
        match audit_details with
        | VDict details =>
            match fetch project_id details w with
            | None => None
            | Some (Raised e, w', details') => Some (Raised e, w', Some (VDict details'))
            | Some (Returned final_response, w', details') =>
                let '(res, w'') :=
                  record_success project_id audit_name details' final_response w' in
                Some (res, w'', Some (VDict details'))
            end
        | _ => Some (Raised (AttributeError "object has no attribute 'get'"),
                     w, binding)
        end
  end.

(** Lines 133-145: [except (ValueError, KeyError) as e]. *)
Definition handler (project_id : string) (request : dict) (e : exn)
    (binding : option value) (w : World) : outcome value * World :=
  let audit_name := get "audit_name" VNone request in
  match binding with
  | None =>
      (Raised (UnboundLocalError
                 "cannot access local variable 'audit_details' where it is not associated with a value"),
       w)
  | Some audit_details =>
      let name : outcome value :=
        if truthy audit_details then
          match attr_get audit_details "name" VNone with
          | Returned n => Returned (or_else n audit_name)
          | Raised e' => Raised e'
          end
        else Returned (VStr "Unknown") in
      match name with
      | Raised e' => (Raised e', w)
      | Returned current_audit_name =>
          let category : outcome value :=
            if truthy audit_details
            then attr_get audit_details "category" (VStr "Unknown")
            else Returned (VStr "Unknown") in
          match category with
          | Raised e' => (Raised e', w)
          | Returned category =>
              let row :=
                new_audit project_id category current_audit_name "Failed"
                  (dumps (VDict [("error", VStr (exn_str e))])) w in
              match add_and_commit row w with
              | (Raised e', w') => (Raised e', w')
              | (Returned _, w') => (Raised e, w')
              end
          end
      end
  end.

Definition run_audit_logic (project_id : string) (request : dict) (w : World)
  : option (outcome value * World) :=
  match try_block project_id request w with
  | None => None
  | Some (Returned v, w', _) => Some (Returned v, w')
  | Some (Raised e, w', binding) =>
      match e with
      | ValueError _ | KeyError _ => Some (handler project_id request e binding w')
      | _ => Some (Raised e, w')
      end
  end.

End RunAuditLogic.

(** The [Failed] row the handler writes for an error text. *)
Definition failed_record (row : audit) (message : string) : Prop :=
  status row = "Failed" /\
  results row = dumps (VDict [("error", VStr message)]).

(** Collaborators for examples. *)
Module Sample.

Definition no_roles : string -> value := fun _ => VDict [("roles", VDict [])].
Definition clock : World -> string := fun _ => "2024-01-01T00:00:00".
Definition kb : Z -> string := fun _ => "0.1".

(** The request of a scheduled run of the audit [rules]. *)
Definition by_name : dict := [("audit_name", VStr "rules")].

End Sample.

End AuditRun.

(** ** TokenChunker: [utils.chunk_data_by_tokens] *)

Module TokenChunker.
Import PyStr Py.

Section Chunker.

(** The state the token counter works on (it is a remote call). *)
Context {W : Type}.

(** [model.count_tokens(line).total_tokens]; [None] when the call raises. *)
Variable count_tokens : string -> W -> option Z * W.

Definition line_token_count (line : string) (w : W) : Z * W :=
  match count_tokens line w with
  | (Some n, w') => (n, w')
  | (None, w') => (Z.of_nat (String.length line) / 4, w')
  end.

(** The three locals of the loop. *)
Record state := mkState {
  chunks : list string;
  current_chunk_lines : list string;
  current_token_count : Z
}.

(** [if current_chunk_lines: chunks.append("".join(current_chunk_lines))] *)
Definition flush (st : state) : list string :=
  match current_chunk_lines st with
  | [] => chunks st
  | _ :: _ => (chunks st ++ [join (current_chunk_lines st)])%list
  end.

(** One iteration of [for line in lines]. *)
Definition step (max_tokens_per_chunk : Z) (acc : state * W) (line : string)
  : state * W :=
  let (st, w) := acc in
  let (n, w') := line_token_count line w in
  if current_token_count st + n >? max_tokens_per_chunk then
    (mkState (flush st) [line] n, w')
  else
    (mkState (chunks st) (current_chunk_lines st ++ [line])%list
             (current_token_count st + n), w').

Definition chunk_data_by_tokens (data_string : string)
    (max_tokens_per_chunk : Z) (w : W) : list string * W :=
  let lines := splitlines_keepends data_string in
  let (st, w') :=
    fold_left (step max_tokens_per_chunk) lines (mkState [] [] 0, w) in
  (flush st, w').

End Chunker.

(** The chunks closed so far are joined groups of whole lines, and with
    the open group they make up the lines read so far. *)
Definition grouped (read : list string) (st : state) : Prop :=
  exists groups : list (list string),
    chunks st = map join groups /\
    Forall (fun g => g <> []) groups /\
    (List.concat groups ++ current_chunk_lines st)%list = read.

End TokenChunker.

(** ** DiffEngine: [utils.generate_json_diff] *)

Module DiffEngine.
Import PyStr Py Json.

Definition no_differences : string :=
  "No differences found between the two audit runs.".

Section GenerateJsonDiff.

(** [json.loads], and the text of the error it raises on a bad input. *)
Variable json_loads : string -> option value.
Variable json_error : string -> string.

(** [difflib.unified_diff(a, b, fromfile=..., tofile=..., lineterm='')] *)
Variable unified_diff :
  list string -> list string -> string -> string -> list string.

Definition generate_json_diff (json_str1 json_str2 fromfile tofile : string)
  : string :=
  match json_loads json_str1 with
  | None => "Error decoding JSON: " ++ json_error json_str1
  | Some data1 =>
      match json_loads json_str2 with
      | None => "Error decoding JSON: " ++ json_error json_str2
      | Some data2 =>
          let formatted_str1 := splitlines (dumps_sorted data1) in
          let formatted_str2 := splitlines (dumps_sorted data2) in
          let diff := unified_diff formatted_str1 formatted_str2 fromfile tofile in
          let diff_output := String.concat (String LF EmptyString) diff in
          if nonempty diff_output then diff_output else no_differences
      end
  end.

End GenerateJsonDiff.

Fixpoint lines_eqb (a b : list string) : bool :=
  match a, b with
  | [], [] => true
  | x :: a', y :: b' => String.eqb x y && lines_eqb a' b'
  | _, _ => false
  end.

(** A line differ for examples: nothing for equal inputs, otherwise the
    two headers, one hunk header, every old line removed and every new
    line added. *)
Definition whole_file_diff (a b : list string) (fromfile tofile : string)
  : list string :=
  if lines_eqb a b then []
  else ("--- " ++ fromfile) :: ("+++ " ++ tofile) :: "@@ -1 +1 @@"
         :: (map (String.append "-") a ++ map (String.append "+") b)%list.

(** The documents [{"a":1,"b":2}] and [{"b":2,"a":1}] and their texts. *)
Module Sample.

Definition doc_ab : value := VDict [("a", VInt 1); ("b", VInt 2)].
Definition doc_ba : value := VDict [("b", VInt 2); ("a", VInt 1)].

Definition text_ab : string := "{" ++ quote "a" ++ ":1," ++ quote "b" ++ ":2}".
Definition text_ba : string := "{" ++ quote "b" ++ ":2," ++ quote "a" ++ ":1}".

Definition loads : string -> option value :=
  table_loads [(text_ab, doc_ab); (text_ba, doc_ba)].

Definition error_text : string -> string :=
  fun _ => "Expecting value: line 1 column 1 (char 0)".

End Sample.

End DiffEngine.

(** ** Summarizer: [utils.generate_gemini_summary] *)

Module Summarizer.
Import PyStr Py Json RetryPolicy TokenChunker.

(** A call that reaches the generative-AI service. *)
Inductive ai_call : Type :=
| CountTokens (content : value)
| GenerateContent (full_prompt : string) (max_output_tokens : Z).

(** What the code reads of a [GenerateContentResponse]. *)
Record response := mkGenResponse {
  parts : bool;                 (* [response.parts] is non-empty *)
  text : outcome string;        (* [response.text], which may raise *)
  finish_reason : string;       (* the name, or [UNKNOWN] without candidates *)
  safety_ratings : string       (* their text, or [N/A] without feedback *)
}.

(** A response object is not a dict. *)
#[global] Instance response_result : PyResult response := fun _ => None.

(** The [gemini] section of [config.ini], with its fallbacks applied. *)
Record gemini_config := mkGeminiConfig {
  max_tokens_per_chunk : Z;
  final_max_output_tokens : Z;
  map_max_output_tokens : Z
}.

Record World := mkWorld {
  ai_log : list ai_call;               (* calls to the service, oldest first *)
  progress : list (string * string)    (* [celery_task.update_state] calls *)
}.

Definition no_data_message : string :=
  "No data available for this audit. The API returned an empty result.".

Definition startswith (p s : string) : bool := String.prefix p s.

Section GenerateGeminiSummary.

(** The service: its answers, given the calls made before. *)
Variable count_tokens_reply : list ai_call -> value -> outcome Z.
Variable generate_reply : list ai_call -> string -> Z -> outcome response.

Variable json_loads : string -> option value.
Variable uniform : nat -> Q.
Variable utcnow_iso : string.
Variable config : gemini_config.

(** [model.count_tokens(content).total_tokens] *)
Definition count_tokens (content : value) (w : World) : outcome Z * World :=
  (count_tokens_reply (ai_log w) content,
   mkWorld (ai_log w ++ [CountTokens content])%list (progress w)).

(** [model.generate_content(full_prompt, ...)] *)
Definition generate_content (full_prompt : string) (max_output_tokens : Z)
    (w : World) : option (outcome response * World) :=
  Some (generate_reply (ai_log w) full_prompt max_output_tokens,
        mkWorld (ai_log w ++ [GenerateContent full_prompt max_output_tokens])%list
                (progress w)).

(** [@retry_with_backoff(retries=5, backoff_in_seconds=2)] *)
Definition _call_gemini_with_retry (full_prompt : string)
    (max_output_tokens : Z) : World -> option (outcome response * World) :=
  retry_with_backoff uniform 5 2 (generate_content full_prompt max_output_tokens).

(** [celery_task.update_state(...)] when a task is given. *)
Definition update_state (celery_task : bool) (state msg : string) (w : World)
  : World :=
  if celery_task then mkWorld (ai_log w) (progress w ++ [(state, msg)])%list
  else w.

Definition _build_full_prompt (prompt : string) (data_string : value)
    (audit_name : string) : outcome string :=
  match data_string with
  | VStr data =>
      let trimmed_data := strip data in
      let fence kind :=
        "```" ++ kind ++ String LF data ++ String LF "```" in
      let data_section : outcome string :=
        if (startswith "{" trimmed_data || startswith "[" trimmed_data)%bool
        then Returned (fence "json")
        else
          match splitlines trimmed_data with
          | [] => Raised (OtherError "IndexError" "list index out of range")
          | first :: _ =>
              if contains "," first then Returned (fence "csv")
              else Returned data
          end in
      match data_section with
      | Raised e => Raised e
      | Returned section =>
          Returned
            ("The current date and time is " ++ utcnow_iso ++ " UTC."
               ++ String LF (String LF prompt) ++ String LF (String LF
               ("Analyze the following data for the '" ++ audit_name
                  ++ "' audit:")) ++ String LF (String LF section))
      end
  | _ => Raised (AttributeError "object has no attribute 'strip'")
  end.

Definition _handle_gemini_response (r : response) : outcome value :=
  if parts r then
    match text r with
    | Returned t => Returned (VStr t)
    | Raised (ValueError _) =>
        Returned (VDict [("error",
          VStr ("The response from the AI was blocked. Finish Reason: "
                  ++ finish_reason r ++ ". Safety Ratings: "
                  ++ safety_ratings r))])
    | Raised e => Raised e
    end
  else
    Returned (VDict [("error",
      VStr ("The response from the AI was blocked or incomplete. Finish Reason: "
              ++ finish_reason r ++ ". Safety Ratings: " ++ safety_ratings r))]).

(** One call site: build the prompt, call the service, read the answer. *)
Definition ask (prompt : string) (data_string : value) (label : string)
    (max_output_tokens : Z) (w : World) : option (outcome value * World) :=
  match _build_full_prompt prompt data_string label with
  | Raised e => Some (Raised e, w)
  | Returned full_prompt =>
      match _call_gemini_with_retry full_prompt max_output_tokens w with
      | None => None
      | Some (Raised e, w') => Some (Raised e, w')
      | Some (Returned r, w') => Some (_handle_gemini_response r, w')
      end
  end.

Definition chunk_prompt : string :=
  "This is one part of a larger dataset. Please summarize the key findings from this specific chunk of data. Do not draw final conclusions, as you only have a partial view.".

(** The token counter as the chunker calls it. *)
Definition line_counter (line : string) (w : World) : option Z * World :=
  match count_tokens (VStr line) w with
  | (Returned n, w') => (Some n, w')
  | (Raised _, w') => (None, w')
  end.

(** Lines 229-236: the map phase over the chunks, numbered from [i]. *)
Fixpoint map_phase (celery_task : bool) (audit_name : string) (total : nat)
    (i : nat) (todo : list string) (partial_summaries : list value) (w : World)
  : option (outcome (list value) * World) :=
  match todo with
  | [] => Some (Returned partial_summaries, w)
  | chunk :: rest =>
      let part := str_of_Z (Z.of_nat (S i)) in
      let w1 := update_state celery_task "PROGRESS"
                  ("Summarizing chunk " ++ part ++ "/"
                     ++ str_of_Z (Z.of_nat total) ++ " for '" ++ audit_name
                     ++ "'...") w in
      match ask chunk_prompt (VStr chunk)
              (audit_name ++ " (Part " ++ part ++ ")")
              (map_max_output_tokens config) w1 with
      | None => None
      | Some (Raised e, w2) => Some (Raised e, w2)
      | Some (Returned summary, w2) =>
          map_phase celery_task audit_name total (S i) rest
            (partial_summaries ++ [summary])%list w2
      end
  end.

(** [sep.join(parts)]: every part has to be a [str]. *)
Fixpoint all_str (parts : list value) : option (list string) :=
  match parts with
  | [] => Some []
  | VStr s :: rest => option_map (cons s) (all_str rest)
  | _ :: _ => None
  end.

(** [len(x)] *)
Definition len (v : value) : outcome Z :=
  match v with
  | VStr s => Returned (Z.of_nat (String.length s))
  | VList l => Returned (Z.of_nat (List.length l))
  | VDict d => Returned (Z.of_nat (List.length d))
  | _ => Raised (TypeError "object has no len()")
  end.

(** Lines 167-246: the [try] block. *)
Definition summarize (celery_task : bool) (prompt : string) (data : value)
    (audit_name : string) (w : World) : option (outcome value * World) :=
  let data_string : value :=
    match data with
    | VStr s =>
        match json_loads s with
        | Some deserialized_data => VStr (dumps deserialized_data)
        | None => data
        end
    | _ => data
    end in
  let '(counted, w) := count_tokens data_string w in
  match
    match counted with
    | Returned n => Returned n
    | Raised _ =>
        match len data_string with
        | Returned n => Returned (n / 4)
        | Raised e => Raised e
        end
    end
  with
  | Raised e => Some (Raised e, w)
  | Returned data_tokens =>
  match _build_full_prompt prompt (VStr "[DATA_PLACEHOLDER]") audit_name with
  | Raised e => Some (Raised e, w)
  | Returned template_prompt =>
  match count_tokens (VStr template_prompt) w with
  | (Raised e, w) => Some (Raised e, w)
  | (Returned template_tokens, w) =>
  match count_tokens (VStr "[DATA_PLACEHOLDER]") w with
  | (Raised e, w) => Some (Raised e, w)
  | (Returned placeholder_tokens, w) =>
  let prompt_tokens := template_tokens - placeholder_tokens in
  let total_input_tokens := data_tokens + prompt_tokens in
  if total_input_tokens <? max_tokens_per_chunk config then
    let w := update_state celery_task "PROGRESS"
               ("Sending data for '" ++ audit_name ++ "' to the LLM...") w in
    ask prompt data_string audit_name (final_max_output_tokens config) w
  else
    match data_string with
    | VStr text =>
        let '(chunks, w) :=
          chunk_data_by_tokens line_counter text
            (max_tokens_per_chunk config - prompt_tokens) w in
        match map_phase celery_task audit_name (List.length chunks) 0 chunks [] w with
        | None => None
        | Some (Raised e, w) => Some (Raised e, w)
        | Some (Returned partial_summaries, w) =>
            let w := update_state celery_task "PROGRESS"
                       ("Creating final summary for '" ++ audit_name ++ "'...") w in
            match all_str partial_summaries with
            | None =>
                Some (Raised (TypeError "sequence item: expected str instance"), w)
            | Some texts =>
                let sep := String LF (String LF ("---" ++ String LF (String LF ""))) in
                let combined_summary_text := String.concat sep texts in
                let reduce_prompt :=
                  prompt ++ String LF (String LF
                    "The following are several partial summaries... Your task is to synthesize them...") in
                ask reduce_prompt (VStr combined_summary_text) audit_name
                  (final_max_output_tokens config) w
            end
        end
    | _ => Some (Raised (AttributeError "object has no attribute 'splitlines'"), w)
    end
  end end end end.

Definition generate_gemini_summary (celery_task : bool) (prompt : string)
    (data : value) (audit_name : string) (w : World)
  : option (value * World) :=
  if (negb (truthy data) || (is_container data && negb (any data)))%bool then
    Some (VStr no_data_message, w)
  else
    match summarize celery_task prompt data audit_name w with
    | None => None
    | Some (Returned v, w') => Some (v, w')
    | Some (Raised e, w') =>
        let error_message :=
          "An error occurred while generating the summary for '" ++ audit_name
            ++ "': " ++ exn_str e in
        Some (VDict [("error", VStr error_message)],
              update_state celery_task "FAILURE" error_message w')
    end.

End GenerateGeminiSummary.

(** A service for examples: every text counts four tokens and every
    request is answered with one line. *)
Module Sample.

Definition four_tokens : list ai_call -> value -> outcome Z :=
  fun _ _ => Returned 4.

Definition one_line_answer : list ai_call -> string -> Z -> outcome response :=
  fun _ _ _ => Returned (mkGenResponse true (Returned "fine") "STOP" "N/A").

Definition no_json : string -> option value := fun _ => None.

Definition no_jitter : nat -> Q := fun _ => 0%Q.

Definition config : gemini_config := mkGeminiConfig 900000 8192 2048.

Definition world0 : World := mkWorld [] [].

End Sample.

End Summarizer.

(** ** ScheduleTicker: [celery_worker.schedule_ticker] *)

Module ScheduleTicker.
Import Py.

(** Instants are counted in microseconds since the epoch, in UTC. *)
Definition second : Z := 1000000.

(** A row of [schedule].  [last_run_at] holds the ISO text of an instant
    or [NULL]; [isoformat] and [fromisoformat] are inverse to each other,
    so the instant itself stands for the text. *)
Record schedule := mkSchedule {
  id : Z;
  name : string;
  cron_schedule : string;
  is_enabled : Z;
  last_run_at : option Z
}.

Record state := mkState {
  schedules : list schedule;     (* the table, in row order *)
  queue : list Z                 (* [run_scheduled_job.delay(id)] messages *)
}.

Definition set_last_run_at (s : schedule) (now : Z) : schedule :=
  mkSchedule (id s) (name s) (cron_schedule s) (is_enabled s) (Some now).

(** Lines 55-65 *)
Definition should_run (s : schedule) (now prev_run : Z) : bool :=
  match last_run_at s with
  | Some last_run_time => prev_run >? last_run_time
  | None => now - prev_run <? 300 * second
  end.

Section Ticker.

(** [croniter(cron, now).get_prev(datetime)]; [None] when the expression
    is rejected. *)
Variable get_prev : string -> Z -> option Z.

(** Lines 50-73: the loop over the rows; disabled rows are not part of
    the query and stay as they are.  An exception leaves the loop. *)
Fixpoint tick_rows (now : Z) (rows : list schedule) (queue : list Z)
  : list schedule * list Z * option exn :=
  match rows with
  | [] => ([], queue, None)
  | s :: rest =>
      if is_enabled s =? 1 then
        match get_prev (cron_schedule s) now with
        | None =>
            (rows, queue, Some (OtherError "CroniterBadCronError" (cron_schedule s)))
        | Some prev_run =>
            if should_run s now prev_run then
              let '(rest', queue', e) := tick_rows now rest (queue ++ [id s])%list in
              (set_last_run_at s now :: rest', queue', e)
            else
              let '(rest', queue', e) := tick_rows now rest queue in
              (s :: rest', queue', e)
        end
      else
        let '(rest', queue', e) := tick_rows now rest queue in
        (s :: rest', queue', e)
  end.

Definition schedule_ticker (now : Z) (st : state) : state * option exn :=
  let '(rows, queue', e) := tick_rows now (schedules st) (queue st) in
  (mkState rows queue', e).

(** Successive ticks of one ticker, at the given instants. *)
Fixpoint run_ticks (instants : list Z) (st : state) : state :=
  match instants with
  | [] => st
  | now :: later => run_ticks later (fst (schedule_ticker now st))
  end.

(** The identifiers a tick emits from an empty queue, and the table it
    leaves. *)
Definition emitted (now : Z) (rows : list schedule) : list Z :=
  snd (fst (tick_rows now rows [])).
Definition rows_after (now : Z) (rows : list schedule) : list schedule :=
  fst (fst (tick_rows now rows [])).

End Ticker.

(** The rows with a given identifier. *)
Definition count_id (job : Z) (rows : list schedule) : nat :=
  List.length (filter (fun s => Z.eqb job (id s)) rows).

(** The rows of a job that an occurrence [p] can still trigger: the rows
    with no watermark, or with a watermark before [p]. *)
Definition pending (job p : Z) (rows : list schedule) : nat :=
  List.length
    (filter (fun s =>
               Z.eqb job (id s) &&
               negb match last_run_at s with
                    | Some w => p <=? w
                    | None => false
                    end) rows).

(** How often a job was dispatched. *)
Definition dispatches (job : Z) (queue : list Z) : nat :=
  List.length (filter (Z.eqb job) queue).

(** [croniter] on the expression [* * * * *]: the instant is rounded up
    to a whole second, moved back by one second (by a minute when it lies
    on a minute), and cut down to the minute. *)
Definition every_minute_prev (now : Z) : Z :=
  let secs := (now + second - 1) / second in
  let offset := if secs mod 60 >? 0 then 1 else 60 in
  let start := secs - offset in
  (start - start mod 60) * second.

Definition every_minute : string := "* * * * *".

(** A [croniter] that knows the one expression [* * * * *]. *)
Definition minutely_croniter (cron : string) (now : Z) : option Z :=
  if String.eqb cron every_minute then Some (every_minute_prev now) else None.

(** The job of the example: every minute, enabled, with a watermark. *)
Definition minutely_job (job : Z) (name : string) (watermark : Z) : schedule :=
  mkSchedule job name every_minute 1 (Some watermark).

End ScheduleTicker.

From Stdlib Require Import Lqa.

(** * Further parts of the pipeline

    Beyond the functions above, the development follows
    - [utils.py]: [remove_excluded_fields], [get_response_details],
      [_extract_value_from_union], [convert_secops_json_to_csv];
    - [audit_logic.py]: [list_available_audits_from_db];
    - [celery_worker.py]: [run_scheduled_job] and the comparison of two
      runs in [generate_combined_diff_report_task];
    and it names the notions the properties of these and of the earlier
    functions are stated with. *)


(** ** Field exclusions: [utils.remove_excluded_fields] *)

Module Exclusions.
Import PyStr Py.

(** [key in excluded_fields] *)
Definition excluded (excluded_fields : list string) (key : string) : bool :=
  existsb (String.eqb key) excluded_fields.

Fixpoint remove_excluded_fields (excluded_fields : list string) (data : value)
  : value :=
  match data with
  | VDict items =>
      VDict
        ((fix entries (l : list (string * value)) : list (string * value) :=
            match l with
            | [] => []
            | (key, v) :: rest =>
                if excluded excluded_fields key then entries rest
                else (key, remove_excluded_fields excluded_fields v)
                       :: entries rest
            end) items)
  | VList items => VList (map (remove_excluded_fields excluded_fields) items)
  | other => other
  end.

(** The entries a dictionary keeps, each with its value filtered. *)
Definition kept_entries (excluded_fields : list string)
    (items : list (string * value)) : list (string * value) :=
  map (fun kv => (fst kv, remove_excluded_fields excluded_fields (snd kv)))
      (filter (fun kv => negb (excluded excluded_fields (fst kv))) items).

(** The key occurs in the value, as the key of a dictionary at any depth. *)
Fixpoint mentions (key : string) (data : value) : bool :=
  match data with
  | VDict items =>
      (fix any_entry (l : list (string * value)) : bool :=
         match l with
         | [] => false
         | (k, v) :: rest => String.eqb k key || mentions key v || any_entry rest
         end) items
  | VList items => existsb (mentions key) items
  | _ => false
  end.

End Exclusions.

(** ** The time a retried call spends asleep *)

Module RetryBudget.
Import RetryPolicy.

(** The seconds slept in all, over the wrapper's actions. *)
Fixpoint total_sleep (log : list action) : Q :=
  match log with
  | [] => 0%Q
  | Invoke :: rest => total_sleep rest
  | Sleep seconds :: rest => (seconds + total_sleep rest)%Q
  end.

End RetryBudget.

(** ** What a fetch gathers *)

Module FetchTrace.
Import Py Sys PaginatedFetcher.

(** A round that has gathered nothing: its list of results is empty, and
    what it returns is at most the raw text of an answer. *)
Definition nothing_gathered (r : round) : Prop :=
  match r with
  | Continue _ gathered | Break gathered => gathered = []
  | Return v => exists t, v = VDict [("result", VStr t)]
  | Raise _ => True
  end.

(** The request goes to [url] with the given method, body and headers. *)
Definition aimed_at (method json_data : value) (url : string) (headers : dict)
    (r : request) : Prop :=
  req_method r = method /\ req_url r = url /\ req_json r = json_data /\
  req_headers r = headers.

End FetchTrace.

(** ** What a run leaves in the database *)

Module AuditTrail.
Import Py Sys.

(** The tables an audit run only reads. *)
Definition same_catalogue (d d' : database) : Prop :=
  tenant_configs d' = tenant_configs d /\
  audit_types d' = audit_types d /\
  configurable_audits d' = configurable_audits d /\
  custom_yl2_queries d' = custom_yl2_queries d.

(** The rows [rows] were appended to the table of audit runs, and nothing
    else was written. *)
Definition appended (d d' : database) (rows : list audit) : Prop :=
  same_catalogue d d' /\ audits d' = (audits d ++ rows)%list.

(** The row the handler writes for an audit that is not in the
    catalogue. *)
Definition unknown_audit_row (project_id run_timestamp audit_name : string)
  : audit :=
  mkAudit project_id (VStr "Unknown") (VStr "Unknown") run_timestamp "Failed"
    (Json.dumps
       (VDict [("error", VStr ("Audit '" ++ audit_name ++ "' not found"))])).

End AuditTrail.

(** ** Scheduled jobs: [celery_worker.run_scheduled_job] *)

Module ScheduledJob.
Import PyStr Py Sys AuditRun.

(** A row of [schedule] with its three relationships: the rows of
    [configurable_audit] that the association tables relate to it. *)
Record job := mkJob {
  job_id : Z;
  job_tenant_project_id : string;
  schedule_type : string;
  audits_to_run : list configurable_audit;
  audits_for_report : list configurable_audit;
  audits_for_diff : list configurable_audit;
  report_name_format : value
}.

(** [[audit.name for audit in related]] *)
Definition names_of (related : list configurable_audit) : list string :=
  map ca_name related.

(** The tasks the job hands to the queue with [.delay(...)]. *)
Inductive task : Type :=
| GenerateReport (project_id : string) (audit_names : list string)
    (report_name_format : value)
| GenerateCombinedDiffReport (project_id : string) (audit_names : list string)
    (report_name_format : value).

Section RunScheduledJob.

Variable server : list request -> request -> outcome http_response.
Variable json_loads : string -> option value.
Variable get_gcp_credentials : outcome unit.
Variable uniform : nat -> Q.
Variable run_custom_iam_audit : string -> value.
Variable utcnow_iso : World -> string.
Variable render_kb : Z -> string.
Variable fuel : nat.

(** Lines 95-100: the audits one after the other; [except Exception]
    drops the error of an audit and goes on with the next. *)
Fixpoint run_audits (project_id : string) (audit_names : list string)
    (w : World) : option World :=
  match audit_names with
  | [] => Some w
  | audit_name :: rest =>
      match run_audit_logic server json_loads get_gcp_credentials uniform
              run_custom_iam_audit utcnow_iso render_kb fuel project_id
              [("audit_name", VStr audit_name)] w with
      | None => None
      | Some (_, w') => run_audits project_id rest w'
      end
  end.

(** Lines 84-110: [schedules] is the table the job looks its row up in. *)
Definition run_scheduled_job (schedules : list job) (schedule_id : Z)
    (w : World) : option (World * list task) :=
  match find (fun s => job_id s =? schedule_id) schedules with
  | None => Some (w, [])
  | Some schedule =>
      let project_id := job_tenant_project_id schedule in
      if String.eqb (schedule_type schedule) "audit" then
        match run_audits project_id (names_of (audits_to_run schedule)) w with
        | Some w' => Some (w', [])
        | None => None
        end
      else if String.eqb (schedule_type schedule) "report" then
        Some (w, [GenerateReport project_id
                    (names_of (audits_for_report schedule))
                    (report_name_format schedule)])
      else if String.eqb (schedule_type schedule) "diff" then
        Some (w, [GenerateCombinedDiffReport project_id
                    (names_of (audits_for_diff schedule))
                    (report_name_format schedule)])
      else Some (w, [])
  end.

End RunScheduledJob.

(** The catalogue can be listed: every audit definition has its audit
    type, and the names are distinct (the column is unique). *)
Definition listable (d : database) : Prop :=
  Forall (fun a => ca_audit_type a <> None) (configurable_audits d) /\
  NoDup (map ca_name (configurable_audits d)).

(** A related audit that is fetched over HTTP under its own definition:
    a row of the table with a name, not shadowed by a custom query, and
    of a type other than [Custom IAM]. *)
Definition fetched_audit (d : database) (a : configurable_audit) : Prop :=
  In a (configurable_audits d) /\
  nonempty (ca_name a) = true /\
  ~ In (ca_name a) (map q_name (custom_yl2_queries d)) /\
  forall t, ca_audit_type a = Some t -> at_name t <> "Custom IAM".

(** The row the handler writes for an audit of a tenant that has no
    configuration. *)
Definition tenant_missing_row (project_id run_timestamp : string)
    (a : configurable_audit) : audit :=
  mkAudit project_id (VStr (ca_category a)) (VStr (ca_name a)) run_timestamp
    "Failed"
    (Json.dumps (VDict [("error", VStr "Tenant is not configured.")])).

(** Two definitions and a job that runs both, for examples. *)
Module Sample.

Definition feeds_audit : configurable_audit :=
  mkConfigurableAudit "feeds" "Ingestion" (VStr "/v1/feeds") (VStr "GET")
    VNone VNone (Some PaginatedFetcher.Sample.soar_type) (VStr "JSON") VNone
    VNone VNone VNone.

Definition catalogue_db : database :=
  mkDatabase [PaginatedFetcher.Sample.tenant]
    [PaginatedFetcher.Sample.soar_type]
    [PaginatedFetcher.Sample.rules_audit; feeds_audit] [] [].

Definition nightly : job :=
  mkJob 7 "proj-9" "audit" [PaginatedFetcher.Sample.rules_audit; feeds_audit]
    [] [] VNone.

Definition weekly_report : job :=
  mkJob 8 "proj-1" "report" [] [PaginatedFetcher.Sample.rules_audit] []
    (VStr "Weekly {date}").

End Sample.

End ScheduledJob.

(** ** Watermarks of the schedule table *)

Module Watermarks.
Import ScheduleTicker.

(** The row carries the watermark [now]. *)
Definition stamped_at (now : Z) (s : schedule) : bool :=
  match last_run_at s with
  | Some w => w =? now
  | None => false
  end.

(** A watermark that is not older than another; no watermark is older
    than any. *)
Definition not_older (before after : option Z) : Prop :=
  match before, after with
  | None, _ => True
  | Some a, Some b => a <= b
  | Some _, None => False
  end.

(** The row is enabled and its expression is rejected by [croniter]. *)
Definition bad_row (get_prev : string -> Z -> option Z) (now : Z)
    (s : schedule) : bool :=
  (is_enabled s =? 1) &&
  match get_prev (cron_schedule s) now with Some _ => false | None => true end.

End Watermarks.

(** ** The token budget of a chunk *)

Module TokenBudget.
Import PyStr TokenChunker.

(** The tokens of a group of lines, line by line. *)
Definition cost_sum (cost : string -> Z) (g : list string) : Z :=
  fold_right (fun line acc => cost line + acc) 0 g.

(** The group is within the budget, or it is a single line (a line is
    never split, however long). *)
Definition fits (cost : string -> Z) (max_tokens_per_chunk : Z)
    (g : list string) : Prop :=
  List.length g = 1%nat \/ cost_sum cost g <= max_tokens_per_chunk.

(** The counter gives each line a price that does not depend on the
    calls made before. *)
Definition priced {W : Type} (count_tokens : string -> W -> option Z * W)
    (cost : string -> Z) : Prop :=
  forall line w, fst (line_token_count count_tokens line w) = cost line.

(** The chunks closed so far fit the budget, the open group does, and
    the counter of the loop is the price of the open group. *)
Definition budgeted (cost : string -> Z) (max_tokens_per_chunk : Z)
    (read : list string) (st : state) : Prop :=
  exists groups : list (list string),
    chunks st = map join groups /\
    Forall (fits cost max_tokens_per_chunk) groups /\
    (current_chunk_lines st = [] \/
     fits cost max_tokens_per_chunk (current_chunk_lines st)) /\
    current_token_count st = cost_sum cost (current_chunk_lines st) /\
    (List.concat groups ++ current_chunk_lines st)%list = read.

(** A counter that prices a line by its length, for examples. *)
Definition by_length (line : string) (w : unit) : option Z * unit :=
  (Some (Z.of_nat (String.length line)), w).

End TokenBudget.

(** ** The comparison of two runs: [celery_worker.generate_combined_diff_report_task] *)

Module DiffReport.
Import PyStr Py Json Exclusions DiffEngine.

Section CompareRuns.

Variable json_loads : string -> option value.
Variable json_error : string -> string.
Variable unified_diff :
  list string -> list string -> string -> string -> list string.

(** [json.dumps(data)], on one line. *)
Variable dumps_compact : value -> string.

(** [if excluded_fields: data = remove_excluded_fields(data, excluded_fields)] *)
Definition apply_exclusions (excluded_fields : list string) (data : value)
  : value :=
  match excluded_fields with
  | [] => data
  | _ :: _ => remove_excluded_fields excluded_fields data
  end.

(** Lines 259-292: the two texts that are compared, given the [results]
    of the two runs; when either does not decode, both are taken as they
    are. *)
Definition diff_inputs (excluded_fields : list string)
    (latest_results previous_results : string) : string * string :=
  match json_loads latest_results with
  | None => (latest_results, previous_results)
  | Some latest_data =>
      match json_loads previous_results with
      | None => (latest_results, previous_results)
      | Some previous_data =>
          (dumps_compact (apply_exclusions excluded_fields latest_data),
           dumps_compact (apply_exclusions excluded_fields previous_data))
      end
  end.

(** Lines 296-301 *)
Definition diff_text (excluded_fields : list string)
    (latest_results previous_results fromfile tofile : string) : string :=
  let '(latest_data_str, previous_data_str) :=
    diff_inputs excluded_fields latest_results previous_results in
  generate_json_diff json_loads json_error unified_diff previous_data_str
    latest_data_str fromfile tofile.

(** Line 303: the audit gets a section in the report. *)
Definition reports_change (excluded_fields : list string)
    (latest_results previous_results fromfile tofile : string) : bool :=
  negb (contains "No differences found"
          (diff_text excluded_fields latest_results previous_results
             fromfile tofile)).

End CompareRuns.

(** Two runs that differ in the field [etag] only, and the decoder of
    their texts. *)
Module Sample.

Definition latest : value := VDict [("a", VInt 1); ("etag", VStr "x")].
Definition previous : value := VDict [("etag", VStr "y"); ("a", VInt 1)].
Definition common : value := VDict [("a", VInt 1)].

Definition loads : string -> option value :=
  table_loads (dumped [latest; previous; common]).

End Sample.

End DiffReport.

(** ** The calls a summary makes *)

Module ServiceLog.
Import PyStr Py Summarizer.

(** The log of service calls of [w'] continues that of [w]. *)
Definition extends (w w' : World) : Prop :=
  exists more, ai_log w' = (ai_log w ++ more)%list.

(** The guard of [generate_gemini_summary]: nothing to summarise. *)
Definition no_data (data : value) : bool :=
  negb (truthy data) || (is_container data && negb (any data)).

(** What the callers of the summarizer tell apart: a text, or a dict
    with the one entry [error]. *)
Definition text_or_error (v : value) : Prop :=
  (exists t, v = VStr t) \/ (exists msg, v = VDict [("error", VStr msg)]).

Definition is_generation (c : ai_call) : bool :=
  match c with GenerateContent _ _ => true | CountTokens _ => false end.

End ServiceLog.

(** ** The summarizer with its set-up: [utils.generate_gemini_summary], lines 163-199 *)

Module SummarizerSetup.
Import PyStr Py Json Summarizer.

(** What [json.loads(data)] followed by [json.dumps(..., indent=2)] comes
    to on a text: the document, or a [JSONDecodeError] (caught on the
    spot, the text is then taken as it is), or any other exception (for
    one, a [RecursionError] on a deeply nested text), which leaves the
    [try] block. *)
Inductive decoded : Type :=
| Decoded (deserialized_data : value)
| NotJson
| DecoderFailure (e : exn).

Section WithSetup.

Variable count_tokens_reply : list ai_call -> value -> outcome Z.
Variable generate_reply : list ai_call -> string -> Z -> outcome response.
Variable uniform : nat -> Q.
Variable utcnow_iso : string.

(** Lines 169-181: [config.ini] is read and the model is made;
    [config.read], [getint] and [getboolean] raise on a file they cannot
    parse. *)
Variable read_config : outcome gemini_config.

Variable decode : string -> decoded.

Definition json_loads (s : string) : option value :=
  match decode s with
  | Decoded deserialized_data => Some deserialized_data
  | NotJson | DecoderFailure _ => None
  end.

(** The exception, if any, that leaves the [try] block before the first
    call of the service. *)
Definition setup_failure (data : value) : option exn :=
  match read_config with
  | Raised e => Some e
  | Returned _ =>
      match data with
      | VStr s =>
          match decode s with
          | DecoderFailure e => Some e
          | Decoded _ | NotJson => None
          end
      | _ => None         (* [json.loads] raises a [TypeError], caught *)
      end
  end.

(** Lines 248-254: the outer [except Exception]. *)
Definition failure (celery_task : bool) (audit_name : string) (e : exn)
    (w : World) : value * World :=
  let error_message :=
    "An error occurred while generating the summary for '" ++ audit_name
      ++ "': " ++ exn_str e in
  (VDict [("error", VStr error_message)],
   update_state celery_task "FAILURE" error_message w).

(** The function with its set-up: the guard, the configuration, the
    decoding of the data, and then the token counts and the calls of
    [Summarizer.generate_gemini_summary]. *)
Definition generate_gemini_summary (celery_task : bool) (prompt : string)
    (data : value) (audit_name : string) (w : World)
  : option (value * World) :=
  if (negb (truthy data) || (is_container data && negb (any data)))%bool then
    Some (VStr no_data_message, w)
  else
    match read_config with
    | Raised e => Some (failure celery_task audit_name e w)
    | Returned config =>
        match setup_failure data with
        | Some e => Some (failure celery_task audit_name e w)
        | None =>
            Summarizer.generate_gemini_summary count_tokens_reply
              generate_reply json_loads uniform utcnow_iso config celery_task
              prompt data audit_name w
        end
    end.

End WithSetup.

(** A decoder that takes no text for JSON, and one that fails on every
    text. *)
Module Sample.

Definition no_json : string -> decoded := fun _ => NotJson.

Definition too_deep : string -> decoded :=
  fun _ => DecoderFailure (OtherError "RecursionError"
                             "maximum recursion depth exceeded").

End Sample.

End SummarizerSetup.

(** ** CSV export: [utils.convert_secops_json_to_csv] *)

Module SecopsCsv.
Import PyStr Py PaginatedFetcher AuditRun.

(** The priority list of the simple value types. *)
Definition VALUE_KEYS : list string :=
  ["stringVal"; "int64Val"; "uint64Val"; "doubleVal"; "boolVal";
   "timestampVal"; "bytesVal"].

(** Lines 408-410: the value under the first key of the list that the
    union holds. *)
Fixpoint first_present (keys : list string) (value_union : value)
  : outcome (option value) :=
  match keys with
  | [] => Returned None
  | key :: rest =>
      match key_in key value_union with
      | Raised e => Raised e
      | Returned true =>
          match subscript value_union key with
          | Returned v => Returned (Some v)
          | Raised e => Raised e
          end
      | Returned false => first_present rest value_union
      end
  end.

(** [zip] over the unpacked columns: the rows of the columns, as many as
    the shortest column has values. *)
Fixpoint heads (columns : list (list value)) : option (list value) :=
  match columns with
  | [] => Some []
  | [] :: _ => None
  | (x :: _) :: rest => option_map (cons x) (heads rest)
  end.

Fixpoint zip_rows (n : nat) (columns : list (list value)) : list (list value) :=
  match n with
  | O => []
  | S n' =>
      match heads columns with
      | Some row => row :: zip_rows n' (map (@tl value) columns)
      | None => []
      end
  end.

Definition zip_star (columns : list (list value)) : list (list value) :=
  match columns with
  | [] => []
  | first :: _ => zip_rows (List.length first) columns
  end.

(** The length of the shortest column, and [bound] at most. *)
Definition min_length (columns : list (list value)) (bound : nat) : nat :=
  fold_right (fun column m => Nat.min (List.length column) m) bound columns.

Definition shortest (columns : list (list value)) : nat :=
  match columns with
  | [] => O
  | first :: _ => min_length columns (List.length first)
  end.

Section Convert.

(** [json.dumps(x)], on one line. *)
Variable dumps_compact : value -> string.

(** [csv.writer(output).writerow(row)]: the line written for a row, with
    its terminator. *)
Variable writerow : list value -> string.

(** Lines 389-431 *)
Definition _extract_value_from_union (value_union : value) : outcome value :=
  match first_present VALUE_KEYS value_union with
  | Raised e => Raised e
  | Returned (Some v) => Returned v
  | Returned None =>
      let null : outcome bool :=
        match key_in "nullVal" value_union with
        | Raised e => Raised e
        | Returned false => Returned false
        | Returned true =>
            match subscript value_union "nullVal" with
            | Raised e => Raised e
            | Returned v => Returned (truthy v)
            end
        end in
      match null with
      | Raised e => Raised e
      | Returned true => Returned VNone
      | Returned false =>
          match key_in "dateVal" value_union with
          | Raised e => Raised e
          | Returned true =>
              match attr_get value_union "dateVal" (VDict []) with
              | Raised e => Raised e
              | Returned date_obj =>
                  match attr_get date_obj "year" (VStr "YYYY"),
                        attr_get date_obj "month" (VStr "MM"),
                        attr_get date_obj "day" (VStr "DD") with
                  | Returned y, Returned m, Returned d =>
                      Returned (VStr (str y ++ "-" ++ str m ++ "-" ++ str d))
                  | Raised e, _, _ | _, Raised e, _ | _, _, Raised e => Raised e
                  end
              end
          | Returned false =>
              match key_in "protoVal" value_union with
              | Raised e => Raised e
              | Returned true =>
                  match attr_get value_union "protoVal" VNone with
                  | Raised e => Raised e
                  | Returned v => Returned (VStr (dumps_compact v))
                  end
              | Returned false => Returned VNone
              end
          end
      end
  end.

(** Lines 466-469: the values of one column. *)
Fixpoint extract_all (value_objs : list value) : outcome (list value) :=
  match value_objs with
  | [] => Returned []
  | value_obj :: rest =>
      match attr_get value_obj "value" (VDict []) with
      | Raised e => Raised e
      | Returned value_union =>
          match _extract_value_from_union value_union with
          | Raised e => Raised e
          | Returned extracted_val =>
              match extract_all rest with
              | Raised e => Raised e
              | Returned vals => Returned (extracted_val :: vals)
              end
          end
      end
  end.

(** Lines 463-470: [item.get('values', [])] is iterated; an empty string
    or dict yields no value. *)
Definition column_values (item : value) : outcome (list value) :=
  match attr_get item "values" (VList []) with
  | Raised e => Raised e
  | Returned (VList value_objs) => extract_all value_objs
  | Returned (VStr s) =>
      if nonempty s then Raised (AttributeError "'str' object has no attribute 'get'")
      else Returned []
  | Returned (VDict []) => Returned []
  | Returned (VDict (_ :: _)) =>
      Raised (AttributeError "'str' object has no attribute 'get'")
  | Returned _ => Raised (TypeError "object is not iterable")
  end.

Fixpoint headers_of (items : list value) : outcome (list value) :=
  match items with
  | [] => Returned []
  | item :: rest =>
      match subscript item "column" with
      | Raised e => Raised e
      | Returned h =>
          match headers_of rest with
          | Raised e => Raised e
          | Returned hs => Returned (h :: hs)
          end
      end
  end.

Fixpoint columns_of (items : list value) : outcome (list (list value)) :=
  match items with
  | [] => Returned []
  | item :: rest =>
      match column_values item with
      | Raised e => Raised e
      | Returned column =>
          match columns_of rest with
          | Raised e => Raised e
          | Returned columns => Returned (column :: columns)
          end
      end
  end.

(** Lines 451-477: the header row and the data rows; [None] when the
    [try] block raises. *)
Definition csv_table (items : list value)
  : option (list value * list (list value)) :=
  match headers_of items, columns_of items with
  | Returned headers, Returned columnar_data =>
      Some (headers, zip_star columnar_data)
  | _, _ => None
  end.

(** Lines 433-499 *)
Definition convert_secops_json_to_csv (api_response : value) : outcome string :=
  match key_in "results" api_response with
  | Raised e => Raised e
  | Returned false => Returned ""
  | Returned true =>
      match subscript api_response "results" with
      | Raised e => Raised e
      | Returned results =>
          if negb (truthy results) then Returned ""
          else
            match results with
            | VList items =>
                match csv_table items with
                | Some (headers, rows) =>
                    Returned (writerow headers ++ PyStr.join (map writerow rows))
                | None => Returned ""
                end
            | _ => Returned ""
            end
      end
  end.

End Convert.

(** A response with two columns of unequal length, for examples. *)
Module Sample.

Definition cell (key : string) (v : value) : value :=
  VDict [("value", VDict [(key, v)])].

Definition two_columns : list value :=
  [VDict [("column", VStr "user");
          ("values", VList [cell "stringVal" (VStr "ann");
                            cell "stringVal" (VStr "bob")])];
   VDict [("column", VStr "total");
          ("values", VList [cell "int64Val" (VStr "3")])]].

Definition no_dumps : value -> string := fun _ => "".

End Sample.

End SecopsCsv.

(** * Properties of the pipeline *)

Module PyStrFacts.
Import PyStr.

Lemma append_empty_r (s : string) : s ++ "" = s.
Proof. induction s; simpl; congruence. Qed.

Lemma append_assoc (a b c : string) : (a ++ b) ++ c = a ++ (b ++ c).
Proof. induction a; simpl; congruence. Qed.

Lemma join_cons (x : string) (xs : list string) : join (x :: xs) = x ++ join xs.
Proof.
  unfold join. destruct xs as [|y ys]; simpl.
  - now rewrite append_empty_r.
  - reflexivity.
Qed.

Lemma join_app (a b : list string) : join (a ++ b)%list = join a ++ join b.
Proof.
  induction a as [|x a IH].
  - reflexivity.
  - change ((x :: a) ++ b)%list with (x :: (a ++ b))%list.
    now rewrite !join_cons, IH, append_assoc.
Qed.

Lemma join_concat (groups : list (list string)) :
  join (map join groups) = join (List.concat groups).
Proof.
  induction groups as [|g gs IH].
  - reflexivity.
  - simpl. now rewrite join_cons, join_app, IH.
Qed.

(** Induction on strings that may step over two characters at once. *)
Lemma string_ind2 (P : string -> Prop) :
  P "" ->
  (forall c, P (String c "")) ->
  (forall c c' s, P s -> P (String c' s) -> P (String c (String c' s))) ->
  forall s, P s.
Proof.
  intros H0 H1 H2.
  assert (H : forall s, P s /\ forall c, P (String c s)).
  { induction s as [|c' s [IHs IHc]].
    - split; [exact H0 | exact H1].
    - split; [apply IHc | intro c; apply H2; [exact IHs | apply IHc]]. }
  intro s. apply H.
Qed.

Lemma join_splitlines_keepends (s : string) : join (splitlines_keepends s) = s.
Proof.
  induction s as [|c|c c' s IH IH'] using string_ind2.
  - reflexivity.
  - simpl. destruct (is_linebreak c); reflexivity.
  - change (splitlines_keepends (String c (String c' s))) with
      (if is_linebreak c then
         if (Ascii.eqb c CR && Ascii.eqb c' LF)%bool
         then String c (String c' EmptyString) :: splitlines_keepends s
         else String c EmptyString :: splitlines_keepends (String c' s)
       else match splitlines_keepends (String c' s) with
            | [] => [String c EmptyString]
            | line :: lines => String c line :: lines
            end).
    destruct (is_linebreak c).
    + destruct (Ascii.eqb c CR && Ascii.eqb c' LF)%bool.
      * rewrite join_cons, IH. reflexivity.
      * rewrite join_cons, IH'. reflexivity.
    + destruct (splitlines_keepends (String c' s)) as [|line lines] eqn:E.
      * simpl in IH'. discriminate.
      * rewrite join_cons in *. simpl. now rewrite IH'.
Qed.

Lemma ends_with_linebreak_cons c s :
  s <> "" -> ends_with_linebreak (String c s) = ends_with_linebreak s.
Proof. destruct s; [congruence | reflexivity]. Qed.

Lemma ends_with_linebreak_app (a b : string) :
  b <> "" -> ends_with_linebreak (a ++ b) = ends_with_linebreak b.
Proof.
  intro Hb. induction a as [|c a IH]; [reflexivity|].
  simpl append. rewrite ends_with_linebreak_cons; [exact IH|].
  destruct a; simpl; [exact Hb | discriminate].
Qed.

(** Every line but the last ends in a line boundary, and the first line of
    a non-empty text is not empty. *)
Lemma splitlines_keepends_shape (s : string) :
  Forall ends_lb (removelast (splitlines_keepends s)) /\
  Forall (fun l => l <> "") (splitlines_keepends s).
Proof.
  induction s as [|c|c c' s IH IH'] using string_ind2.
  - split; constructor.
  - simpl. destruct (is_linebreak c); split; repeat constructor; discriminate.
  - change (splitlines_keepends (String c (String c' s))) with
      (if is_linebreak c then
         if (Ascii.eqb c CR && Ascii.eqb c' LF)%bool
         then String c (String c' EmptyString) :: splitlines_keepends s
         else String c EmptyString :: splitlines_keepends (String c' s)
       else match splitlines_keepends (String c' s) with
            | [] => [String c EmptyString]
            | line :: lines => String c line :: lines
            end).
    destruct (is_linebreak c) eqn:Hc.
    + destruct (Ascii.eqb c CR && Ascii.eqb c' LF)%bool eqn:Hcrlf.
      * destruct IH as [IHa IHb]. split.
        -- destruct (splitlines_keepends s) eqn:E; [constructor|].
           change (removelast (?x :: s0 :: l)) with (x :: removelast (s0 :: l)).
           constructor; [|exact IHa].
           unfold ends_lb. simpl.
           apply andb_prop in Hcrlf. destruct Hcrlf as [_ H].
           apply Ascii.eqb_eq in H. subst c'. reflexivity.
        -- constructor; [discriminate | exact IHb].
      * destruct IH' as [IHa IHb]. split.
        -- destruct (splitlines_keepends (String c' s)) eqn:E; [constructor|].
           change (removelast (?x :: s0 :: l)) with (x :: removelast (s0 :: l)).
           constructor; [exact Hc | exact IHa].
        -- constructor; [discriminate | exact IHb].
    + destruct IH' as [IHa IHb].
      destruct (splitlines_keepends (String c' s)) as [|line lines] eqn:E.
      * split; repeat constructor; discriminate.
      * inversion IHb as [|? ? Hline Hlines]; subst. split.
        -- destruct lines as [|l2 lines]; [constructor|].
           change (removelast (?x :: l2 :: lines)) with (x :: removelast (l2 :: lines)) in *.
           inversion IHa; subst. constructor; [|assumption].
           unfold ends_lb in *. now rewrite ends_with_linebreak_cons.
        -- constructor; [discriminate | assumption].
Qed.

Lemma join_nonempty (g : list string) :
  g <> [] -> Forall (fun l => l <> "") g -> join g <> "".
Proof.
  intros Hg Hne. destruct g as [|x g]; [congruence|].
  rewrite join_cons. inversion Hne; subst.
  destruct x; [congruence | discriminate].
Qed.

Lemma join_ends_lb (g : list string) :
  g <> [] -> Forall (fun l => l <> "") g -> Forall ends_lb g -> ends_lb (join g).
Proof.
  induction g as [|x g IH]; intros Hg Hne Hlb; [congruence|].
  rewrite join_cons. inversion Hne; subst. inversion Hlb; subst.
  destruct g as [|y g].
  - unfold join. simpl. rewrite append_empty_r. assumption.
  - unfold ends_lb. rewrite ends_with_linebreak_app.
    + apply IH; [discriminate | assumption | assumption].
    + apply join_nonempty; [discriminate | assumption].
Qed.

End PyStrFacts.

Module TokenChunkerFacts.
Import PyStr PyStrFacts TokenChunker.

Section Facts.

Context {W : Type}.
Variable count_tokens : string -> W -> option Z * W.
Variable max_tokens_per_chunk : Z.

Lemma flush_grouped (read : list string) (st : state) :
  grouped read st ->
  exists groups : list (list string),
    flush st = map join groups /\
    Forall (fun g => g <> []) groups /\
    List.concat groups = read.
Proof.
  intros (groups & Hc & Hne & Hread). unfold flush.
  destruct (current_chunk_lines st) as [|l ls] eqn:E.
  - exists groups. rewrite app_nil_r in Hread. auto.
  - exists (groups ++ [l :: ls])%list. repeat split.
    + rewrite map_app, Hc. reflexivity.
    + apply Forall_app. split; [assumption|]. repeat constructor. discriminate.
    + rewrite concat_app. simpl. rewrite app_nil_r. exact Hread.
Qed.

Lemma step_grouped (read : list string) (st : state) (w : W) (line : string) :
  grouped read st ->
  grouped (read ++ [line])%list (fst (step count_tokens max_tokens_per_chunk (st, w) line)).
Proof.
  intro H. unfold step.
  destruct (line_token_count count_tokens line w) as [n w'].
  destruct (current_token_count st + n >? max_tokens_per_chunk)%Z.
  - destruct (flush_grouped read st H) as (groups & Hf & Hne & Hread).
    exists groups. simpl. subst read. auto.
  - destruct H as (groups & Hc & Hne & Hread).
    exists groups. simpl. subst read. rewrite app_assoc. auto.
Qed.

Lemma fold_grouped (lines read : list string) (st : state) (w : W) :
  grouped read st ->
  grouped (read ++ lines)%list
    (fst (fold_left (step count_tokens max_tokens_per_chunk) lines (st, w))).
Proof.
  revert read st w. induction lines as [|line lines IH]; intros read st w H.
  - simpl. now rewrite app_nil_r.
  - cbn [fold_left].
    pose proof (step_grouped read st w line H) as Hs.
    destruct (step count_tokens max_tokens_per_chunk (st, w) line) as [st' w'].
    cbn [fst] in Hs. specialize (IH _ _ w' Hs). rewrite <- app_assoc in IH. exact IH.
Qed.

Lemma chunks_are_line_groups (data_string : string) (w : W) :
  exists groups : list (list string),
    fst (chunk_data_by_tokens count_tokens data_string max_tokens_per_chunk w)
      = map join groups /\
    Forall (fun g => g <> []) groups /\
    List.concat groups = splitlines_keepends data_string.
Proof.
  unfold chunk_data_by_tokens.
  assert (H0 : grouped [] (mkState [] [] 0)).
  { exists []. repeat split; constructor. }
  pose proof (fold_grouped (splitlines_keepends data_string) [] _ w H0) as H.
  destruct (fold_left _ _ _) as [st w']. simpl in *.
  now apply flush_grouped.
Qed.

End Facts.

Lemma removelast_map {A B} (f : A -> B) (l : list A) :
  removelast (map f l) = map f (removelast l).
Proof.
  induction l as [|x l IH]; [reflexivity|].
  destruct l; [reflexivity|]. simpl in *. now rewrite IH.
Qed.

Lemma Forall_concat_inv {A} (P : A -> Prop) (ls : list (list A)) :
  Forall P (List.concat ls) -> Forall (Forall P) ls.
Proof.
  induction ls as [|l ls IH]; intro H; [constructor|].
  simpl in H. apply Forall_app in H. destruct H. constructor; auto.
Qed.

Lemma closed_groups_end_in_linebreak (groups : list (list string)) :
  Forall (fun g => g <> []) groups ->
  Forall ends_lb (removelast (List.concat groups)) ->
  Forall (fun l => l <> "") (List.concat groups) ->
  Forall ends_lb (removelast (map join groups)).
Proof.
  intros Hne Hlb Hnonempty.
  rewrite removelast_map.
  destruct groups as [|g0 gs] using rev_ind; [constructor|].
  rewrite removelast_last.
  apply Forall_app in Hne. destruct Hne as [Hne Hlast].
  inversion Hlast as [|? ? Hg0 _]; subst.
  rewrite concat_app in Hlb, Hnonempty. simpl in Hlb, Hnonempty.
  rewrite app_nil_r in Hlb, Hnonempty.
  rewrite removelast_app in Hlb by assumption.
  apply Forall_app in Hlb. destruct Hlb as [Hlb _].
  apply Forall_app in Hnonempty. destruct Hnonempty as [Hnonempty _].
  apply Forall_concat_inv in Hlb. apply Forall_concat_inv in Hnonempty.
  apply Forall_map.
  rewrite Forall_forall in *. intros g Hg.
  apply join_ends_lb; auto.
Qed.

(** C7. Chunking is lossless and cuts only at line boundaries: the chunks
    put one after the other give the input text back, each chunk is a run
    of whole lines, and every chunk that is followed by another one ends in
    a line boundary.  This holds for every token counter and every budget. *)
Theorem chunk_reconstruction {W : Type}
    (count_tokens : string -> W -> option Z * W)
    (data_string : string) (max_tokens_per_chunk : Z) (w : W) :
  let chunks :=
    fst (chunk_data_by_tokens count_tokens data_string max_tokens_per_chunk w) in
  join chunks = data_string /\
  (exists groups : list (list string),
     chunks = map join groups /\
     Forall (fun g => g <> []) groups /\
     List.concat groups = splitlines_keepends data_string) /\
  Forall (fun c => ends_with_linebreak c = true) (removelast chunks).
Proof.
  intro chunks.
  destruct (chunks_are_line_groups count_tokens max_tokens_per_chunk data_string w)
    as (groups & Hc & Hne & Hlines).
  fold chunks in Hc.
  destruct (splitlines_keepends_shape data_string) as [Hlb Hnonempty].
  repeat split.
  - rewrite Hc, join_concat, Hlines. apply join_splitlines_keepends.
  - exists groups. auto.
  - rewrite Hc. apply closed_groups_end_in_linebreak; rewrite ?Hlines; assumption.
Qed.

End TokenChunkerFacts.

Module RetryPolicyFacts.
Import PyStr Py RetryPolicy.

Lemma status_429_mentions_429 (details : string) :
  contains "429" ("Status 429: " ++ details) = true.
Proof. reflexivity. Qed.

Section Facts.

Context {W R : Type} {HR : PyResult R}.
Variable uniform : nat -> Q.
Variable retries : nat.
Variable backoff_in_seconds : Z.
Variable f : W -> option (outcome R * W).

#[local] Abbreviation loop := (wrapper_loop uniform retries backoff_in_seconds f).
#[local] Abbreviation pause := (sleep_time uniform backoff_in_seconds).

Lemma inspect_spec (result : R) :
  inspect result =
  if rate_limited_payload result
  then Raised (HTTPError ("Status 429: " ++ payload_details result) None)
  else Returned result.
Proof.
  unfold inspect, rate_limited_payload, payload_details.
  destruct (as_dict result) as [d|]; [|reflexivity].
  destruct (mem "error" d); [|reflexivity].
  destruct (contains "429" (str (get "error" (VStr "") d))); reflexivity.
Qed.

Lemma except_clause_retryable (x : nat) (e : exn) :
  retryable e = true ->
  except_clause retries x e = if Nat.eqb x retries then Reraise else Backoff.
Proof.
  destruct e; simpl; try discriminate; try reflexivity.
  intros ->. reflexivity.
Qed.

Lemma except_clause_terminal (x : nat) (e : exn) :
  retryable e = false -> except_clause retries x e = Reraise.
Proof.
  destruct e; simpl; try discriminate; try reflexivity.
  intros ->. reflexivity.
Qed.

(** One round of the loop on a failure. *)
Lemma loop_raised (fuel x : nat) (w w1 : W) (log : list action) (e : exn) :
  f w = Some (Raised e, w1) ->
  loop (S fuel) x w log =
  match except_clause retries x e with
  | Reraise => Some (Raised e, w1, log ++ [Invoke])%list
  | Backoff => loop fuel (S x) w1 ((log ++ [Invoke]) ++ [Sleep (pause x)])%list
  end.
Proof. intro Hf. simpl. rewrite Hf. reflexivity. Qed.

(** One round of the loop on a returned result. *)
Lemma loop_returned (fuel x : nat) (w w1 : W) (log : list action) (result : R) :
  f w = Some (Returned result, w1) ->
  loop (S fuel) x w log =
  if rate_limited_payload result then
    let e := HTTPError ("Status 429: " ++ payload_details result) None in
    if Nat.eqb x retries then Some (Raised e, w1, log ++ [Invoke])%list
    else loop fuel (S x) w1 ((log ++ [Invoke]) ++ [Sleep (pause x)])%list
  else Some (Returned result, w1, log ++ [Invoke])%list.
Proof.
  intro Hf. simpl. rewrite Hf, inspect_spec.
  destruct (rate_limited_payload result); [|reflexivity].
  cbn [except_clause exn_str]. rewrite status_429_mentions_429. simpl negb.
  destruct (Nat.eqb x retries); reflexivity.
Qed.

Lemma always_retryable_loop (k x : nat) (w : W) (log : list action) :
  always_retryable f -> (x + k = retries)%nat ->
  exists e w_last w',
    loop (S k) x w log = Some (Raised e, w', log ++ backoff_log pause x k)%list /\
    f w_last = Some (Raised e, w') /\ retryable e = true.
Proof.
  intro Hf. revert x w log. induction k as [|k IH]; intros x w log Hx.
  - destruct (Hf w) as (e & w' & Hfw & He).
    exists e, w, w'. rewrite (loop_raised _ _ _ _ _ _ Hfw), except_clause_retryable by exact He.
    replace (Nat.eqb x retries) with true by (symmetry; apply Nat.eqb_eq; lia).
    auto.
  - destruct (Hf w) as (e & w1 & Hfw & He).
    rewrite (loop_raised _ _ _ _ _ _ Hfw), except_clause_retryable by exact He.
    replace (Nat.eqb x retries) with false by (symmetry; apply Nat.eqb_neq; lia).
    destruct (IH (S x) w1 ((log ++ [Invoke]) ++ [Sleep (pause x)])%list) as (e' & wl & w' & Hl & Hlast & He'); [lia|].
    exists e', wl, w'. rewrite Hl. simpl backoff_log.
    rewrite <- !app_assoc. simpl. auto.
Qed.

Lemma backoff_log_counts (x k : nat) :
  invocations (backoff_log pause x k) = S k /\ sleeps (backoff_log pause x k) = k.
Proof.
  revert x. induction k as [|k IH]; intro x; [split; reflexivity|].
  destruct (IH (S x)) as [Hi Hs]. unfold invocations, sleeps in *. simpl.
  rewrite Hi, Hs. split; reflexivity.
Qed.

(** The loop never runs out of fuel: [retries + 1 - x] rounds are enough,
    as long as the operation itself returns. *)
Lemma loop_total (k x : nat) (w : W) (log : list action) :
  (forall w, f w <> None) -> (x + k = retries)%nat ->
  loop (S k) x w log <> None.
Proof.
  intro Hf. revert x w log. induction k as [|k IH]; intros x w log Hx.
  - destruct (f w) as [[[result|e] w1]|] eqn:Hfw; [| |now apply Hf in Hfw].
    + rewrite (loop_returned _ _ _ _ _ _ Hfw).
      replace (Nat.eqb x retries) with true by (symmetry; apply Nat.eqb_eq; lia).
      destruct (rate_limited_payload result); discriminate.
    + rewrite (loop_raised _ _ _ _ _ _ Hfw).
      assert (Hx' : Nat.eqb x retries = true) by (apply Nat.eqb_eq; lia).
      destruct e; simpl; rewrite ?Hx'; try discriminate.
      destruct (negb _); discriminate.
  - destruct (f w) as [[[result|e] w1]|] eqn:Hfw; [| |now apply Hf in Hfw].
    + rewrite (loop_returned _ _ _ _ _ _ Hfw).
      destruct (rate_limited_payload result); [|discriminate].
      destruct (Nat.eqb x retries); [discriminate|]. apply IH. lia.
    + rewrite (loop_raised _ _ _ _ _ _ Hfw).
      destruct (except_clause retries x e); [|discriminate]. apply IH. lia.
Qed.

(** A rate-limited payload is handled as the HTTP 429 error it is turned
    into. *)
Lemma loop_as_transport_failure (fuel x : nat) (w : W) (log : list action) :
  loop fuel x w log =
  wrapper_loop uniform retries backoff_in_seconds (as_transport_failure f)
    fuel x w log.
Proof.
  revert x w log. induction fuel as [|fuel IH]; intros x w log; [reflexivity|].
  simpl. unfold as_transport_failure at 1.
  destruct (f w) as [[[result|e] w1]|]; [| |reflexivity].
  - rewrite inspect_spec.
    destruct (rate_limited_payload result) eqn:Hp.
    + destruct (except_clause retries x _); [apply IH | reflexivity].
    + rewrite inspect_spec, Hp. reflexivity.
  - destruct (except_clause retries x e); [apply IH | reflexivity].
Qed.

(** A quantity of the world that each call of the operation raises by
    at most [step] is raised by at most [(retries + 1 - x) * step] by the
    loop, which always ends when the operation does. *)
Lemma loop_measure (measure : W -> nat) (step : nat) (k x : nat) (w : W)
    (log : list action) :
  (forall w0, exists res w1,
     f w0 = Some (res, w1) /\ (measure w1 <= measure w0 + step)%nat) ->
  (x + k = retries)%nat ->
  exists res w' log',
    loop (S k) x w log = Some (res, w', log') /\
    (measure w' <= measure w + S k * step)%nat.
Proof.
  intro Hf. revert x w log. induction k as [|k IH]; intros x w log Hx.
  - destruct (Hf w) as (res & w1 & Hfw & Hm).
    assert (Hx' : Nat.eqb x retries = true) by (apply Nat.eqb_eq; lia).
    destruct res as [result|e].
    + rewrite (loop_returned _ _ _ _ _ _ Hfw), Hx'.
      destruct (rate_limited_payload result); eexists; eexists; eexists;
        (split; [reflexivity | lia]).
    + rewrite (loop_raised _ _ _ _ _ _ Hfw).
      destruct (except_clause retries x e) eqn:Hc.
      * exfalso. destruct e; simpl in Hc; rewrite ?Hx' in Hc; try discriminate.
        destruct (negb _); discriminate.
      * eexists; eexists; eexists; (split; [reflexivity | lia]).
  - destruct (Hf w) as (res & w1 & Hfw & Hm).
    assert (Hnext : forall log1, exists res' w' log',
              loop (S k) (S x) w1 log1 = Some (res', w', log') /\
              (measure w' <= measure w + S (S k) * step)%nat).
    { intro log1. destruct (IH (S x) w1 log1 ltac:(lia)) as (r & w' & l & Hl & Hm').
      exists r, w', l. split; [exact Hl | simpl in *; lia]. }
    destruct res as [result|e].
    + rewrite (loop_returned _ _ _ _ _ _ Hfw).
      destruct (rate_limited_payload result).
      * cbv zeta. destruct (Nat.eqb x retries); [|apply Hnext].
        eexists; eexists; eexists; (split; [reflexivity | simpl; lia]).
      * eexists; eexists; eexists; (split; [reflexivity | simpl; lia]).
    + rewrite (loop_raised _ _ _ _ _ _ Hfw).
      destruct (except_clause retries x e); [apply Hnext|].
      eexists; eexists; eexists; (split; [reflexivity | simpl; lia]).
Qed.

End Facts.

Import Sample.

(** The bound, for the failures as the wrapper itself tells them apart.
    With three retries, an operation that on every call fails with a
    Google resource-exhausted or service-unavailable error, or with an
    HTTP error whose text mentions 429, is called four times, with a
    sleep between two calls, and the failure of the fourth call is raised
    as it is; a failure of any other kind is raised after the first call,
    without a sleep. *)
Theorem retry_bound {W R : Type} {HR : PyResult R} (uniform : nat -> Q)
    (backoff_in_seconds : Z) (f g : W -> option (outcome R * W))
    (w w_t : W) (e_t : exn) :
  always_retryable f ->
  g w = Some (Raised e_t, w_t) -> retryable e_t = false ->
  (exists e w_last w' log,
     retry_with_backoff_log uniform 3 backoff_in_seconds f w
       = Some (Raised e, w', log) /\
     log = [Invoke; Sleep (sleep_time uniform backoff_in_seconds 0);
            Invoke; Sleep (sleep_time uniform backoff_in_seconds 1);
            Invoke; Sleep (sleep_time uniform backoff_in_seconds 2);
            Invoke] /\
     invocations log = 4%nat /\ sleeps log = 3%nat /\
     f w_last = Some (Raised e, w') /\ retryable e = true) /\
  retry_with_backoff_log uniform 3 backoff_in_seconds g w
    = Some (Raised e_t, w_t, [Invoke]).
Proof.
  intros Hf Hg He. split.
  - destruct (always_retryable_loop uniform 3 backoff_in_seconds f 3 0 w [] Hf eq_refl)
      as (e & w_last & w' & Hloop & Hlast & Hre).
    exists e, w_last, w'. eexists. split; [exact Hloop|].
    repeat split; assumption.
  - unfold retry_with_backoff_log.
    rewrite (loop_raised _ _ _ _ _ _ _ _ _ _ Hg), except_clause_terminal by exact He.
    reflexivity.
Qed.

Lemma retry_bound_witness :
  (exists e w_last w' log,
     retry_with_backoff_log no_jitter 3 2 always_quota 0%nat
       = Some (Raised e, w', log) /\
     log = [Invoke; Sleep (sleep_time no_jitter 2 0);
            Invoke; Sleep (sleep_time no_jitter 2 1);
            Invoke; Sleep (sleep_time no_jitter 2 2);
            Invoke] /\
     invocations log = 4%nat /\ sleeps log = 3%nat /\
     always_quota w_last = Some (Raised e, w') /\ retryable e = true) /\
  retry_with_backoff_log no_jitter 3 2 always_forbidden 0%nat
    = Some (Raised (HTTPError "403 Client Error: Forbidden for url: u" None),
            1%nat, [Invoke]).
Proof.
  apply (retry_bound no_jitter 2 always_quota always_forbidden 0%nat 1%nat
           (HTTPError "403 Client Error: Forbidden for url: u" None)).
  - intro n. eexists. eexists. split; reflexivity.
  - reflexivity.
  - reflexivity.
Defined.

(** C3, on the code.  The wrapper tells an HTTP failure by its text, not
    by its status: [if "429" not in str(e): raise e], with the comment
    that anything but a 429 error is raised again.  The error of an HTTP
    404 answer carries the URL of the request in its text, so a request
    for case 1429 that is not found is terminal by its status and yet is
    retried: with three retries the operation is called four times, with
    three sleeps, before the 404 is raised.  The other way round, an HTTP
    429 error whose text does not show the status is raised after the
    first call. *)
Theorem terminal_http_error_is_retried (uniform : nat -> Q)
    (backoff_in_seconds : Z) :
  spec_retryable not_found = false /\
  retry_with_backoff_log uniform 3 backoff_in_seconds
    (always_raising not_found) 0%nat
  = Some (Raised not_found, 4%nat,
          [Invoke; Sleep (sleep_time uniform backoff_in_seconds 0);
           Invoke; Sleep (sleep_time uniform backoff_in_seconds 1);
           Invoke; Sleep (sleep_time uniform backoff_in_seconds 2);
           Invoke]) /\
  spec_retryable quiet_429 = true /\
  retry_with_backoff_log uniform 3 backoff_in_seconds
    (always_raising quiet_429) 0%nat
  = Some (Raised quiet_429, 1%nat, [Invoke]).
Proof.
  assert (Htext : retryable not_found = true) by reflexivity.
  assert (Hquiet : retryable quiet_429 = false) by reflexivity.
  split; [reflexivity|]. split; [|split; [reflexivity|]].
  - unfold retry_with_backoff_log.
    do 3 (rewrite (loop_raised uniform 3 backoff_in_seconds
                     (always_raising not_found) _ _ _ _ _ not_found eq_refl),
            (except_clause_retryable 3 _ not_found Htext); cbn [Nat.eqb]).
    rewrite (loop_raised uniform 3 backoff_in_seconds
               (always_raising not_found) _ _ _ _ _ not_found eq_refl),
      (except_clause_retryable 3 _ not_found Htext). reflexivity.
  - unfold retry_with_backoff_log.
    rewrite (loop_raised uniform 3 backoff_in_seconds
               (always_raising quiet_429) _ _ _ _ _ quiet_429 eq_refl),
      (except_clause_terminal 3 _ quiet_429 Hquiet). reflexivity.
Qed.

(** C5. A returned dict whose ["error"] entry mentions 429 is not handed
    back: the wrapper turns it into a retryable HTTP error, so that round
    of the loop sleeps and calls the operation again, or raises that error
    when the retries are used up; the whole run is the run of the same
    operation with each such payload replaced by an HTTP 429 error raised
    by the operation itself.  When every call returns such a payload the
    operation is called [retries + 1] times, with [retries] sleeps, and
    the run ends in the error made from the last payload. *)
Theorem payload_rate_limit_is_retried {W R : Type} {HR : PyResult R}
    (uniform : nat -> Q) (retries : nat) (backoff_in_seconds : Z)
    (f : W -> option (outcome R * W)) (w w1 : W) (result : R) :
  f w = Some (Returned result, w1) ->
  rate_limited_payload result = true ->
  let e := HTTPError ("Status 429: " ++ payload_details result) None in
  retryable e = true /\
  (forall fuel x log,
     wrapper_loop uniform retries backoff_in_seconds f (S fuel) x w log =
     if Nat.eqb x retries then Some (Raised e, w1, log ++ [Invoke])%list
     else wrapper_loop uniform retries backoff_in_seconds f fuel (S x) w1
            ((log ++ [Invoke])
               ++ [Sleep (sleep_time uniform backoff_in_seconds x)])%list) /\
  (forall w0,
     retry_with_backoff_log uniform retries backoff_in_seconds f w0
     = retry_with_backoff_log uniform retries backoff_in_seconds
         (as_transport_failure f) w0) /\
  (always_rate_limited f ->
   exists last w_last w' log,
     retry_with_backoff_log uniform retries backoff_in_seconds f w
       = Some (Raised (HTTPError ("Status 429: " ++ payload_details last) None),
               w', log) /\
     log = backoff_log (sleep_time uniform backoff_in_seconds) 0 retries /\
     invocations log = S retries /\ sleeps log = retries /\
     f w_last = Some (Returned last, w') /\
     rate_limited_payload last = true).
Proof.
  intros Hfw Hp e. split; [apply status_429_mentions_429|]. split; [|split].
  - intros fuel x log.
    rewrite (loop_returned _ _ _ _ _ _ _ _ _ _ Hfw), Hp. reflexivity.
  - intro w0. apply loop_as_transport_failure.
  - intro Hf. unfold retry_with_backoff_log.
    rewrite loop_as_transport_failure.
    assert (Ht : always_retryable (as_transport_failure f)).
    { intro w0. destruct (Hf w0) as (r0 & w' & Hf0 & Hp0).
      unfold as_transport_failure. rewrite Hf0, Hp0.
      eexists. eexists. split; reflexivity. }
    destruct (always_retryable_loop uniform retries backoff_in_seconds _
                retries 0 w [] Ht eq_refl)
      as (e' & w_last & w' & Hloop & Hlast & _).
    unfold as_transport_failure in Hlast.
    destruct (Hf w_last) as (last & w'' & Hfl & Hpl).
    rewrite Hfl, Hpl in Hlast. injection Hlast as <- <-.
    exists last, w_last, w''. eexists. split; [exact Hloop|].
    simpl app.
    destruct (backoff_log_counts uniform backoff_in_seconds 0 retries).
    repeat split; assumption.
Qed.

Lemma payload_rate_limit_is_retried_witness :
  let e := HTTPError ("Status 429: " ++ payload_details payload_429) None in
  retryable e = true /\
  (forall fuel x log,
     wrapper_loop no_jitter 3 2 (always_payload payload_429) (S fuel) x 0%nat log =
     if Nat.eqb x 3 then Some (Raised e, 1%nat, log ++ [Invoke])%list
     else wrapper_loop no_jitter 3 2 (always_payload payload_429) fuel (S x) 1%nat
            ((log ++ [Invoke]) ++ [Sleep (sleep_time no_jitter 2 x)])%list) /\
  (forall w0,
     retry_with_backoff_log no_jitter 3 2 (always_payload payload_429) w0
     = retry_with_backoff_log no_jitter 3 2
         (as_transport_failure (always_payload payload_429)) w0) /\
  (always_rate_limited (always_payload payload_429) ->
   exists last w_last w' log,
     retry_with_backoff_log no_jitter 3 2 (always_payload payload_429) 0%nat
       = Some (Raised (HTTPError ("Status 429: " ++ payload_details last) None),
               w', log) /\
     log = backoff_log (sleep_time no_jitter 2) 0 3 /\
     invocations log = 4%nat /\ sleeps log = 3%nat /\
     always_payload payload_429 w_last = Some (Returned last, w') /\
     rate_limited_payload last = true).
Proof.
  apply (payload_rate_limit_is_retried no_jitter 3 2 (always_payload payload_429)
           0%nat 1%nat payload_429); reflexivity.
Defined.

(** The run on the example payload, evaluated: four calls, three sleeps,
    and the error in place of the payload. *)
Example payload_429_run :
  retry_with_backoff_log no_jitter 3 2 (always_payload payload_429) 0%nat
  = Some (Raised (HTTPError "Status 429: slow down" None), 4%nat,
          [Invoke; Sleep (sleep_time no_jitter 2 0);
           Invoke; Sleep (sleep_time no_jitter 2 1);
           Invoke; Sleep (sleep_time no_jitter 2 2); Invoke]).
Proof. reflexivity. Qed.

(** The error [raise_for_status] makes of an HTTP 429 answer is one of
    the retryable failures. *)
Lemma http_429_is_retryable (reason url : string) (r : option http_response) :
  retryable (HTTPError (http_error_message 429 reason url) r) = true.
Proof. reflexivity. Qed.

Lemma loop_log_extends {W R : Type} {HR : PyResult R} (uniform : nat -> Q)
    (retries : nat) (backoff_in_seconds : Z) (f : W -> option (outcome R * W))
    (fuel x : nat) (w w' : W) (log log' : list action) (res : outcome R) :
  wrapper_loop uniform retries backoff_in_seconds f fuel x w log
    = Some (res, w', log') ->
  exists ext, log' = (log ++ Invoke :: ext)%list.
Proof.
  revert x w log. induction fuel as [|fuel IH]; intros x w log; [discriminate|].
  simpl. destruct (f w) as [[res0 w1]|]; [|discriminate].
  destruct (match res0 with Returned r => inspect r | Raised e => Raised e end).
  - intro H. injection H as <- <- <-. now exists [].
  - destruct (except_clause retries x e).
    + intro H. apply IH in H. destruct H as [ext ->].
      exists (Sleep (sleep_time uniform backoff_in_seconds x) :: Invoke :: ext).
      now rewrite <- !app_assoc.
    + intro H. injection H as <- <- <-. now exists [].
Qed.

Lemma rate_limited_payload_spec {R : Type} {HR : PyResult R} (result : R) :
  rate_limited_payload result = true <->
  exists d error,
    as_dict result = Some d /\ lookup "error" d = Some error /\
    contains "429" (str error) = true.
Proof.
  unfold rate_limited_payload, mem, get. split.
  - destruct (as_dict result) as [d|]; [|discriminate].
    destruct (lookup "error" d) as [error|] eqn:He; [|discriminate].
    intro H. exists d, error. repeat split; [exact He | exact H].
  - intros (d & error & -> & -> & H). exact H.
Qed.

(** C10. A result that is returned without an exception is handed to the
    caller at once, after that single call, with no sleep and no
    exception, exactly when it is not a dict with an ["error"] entry whose
    text mentions 429; a dict whose ["error"] entry carries any other
    message is therefore returned as it is. *)
Theorem other_results_are_returned {W R : Type} {HR : PyResult R}
    (uniform : nat -> Q) (retries : nat) (backoff_in_seconds : Z)
    (f : W -> option (outcome R * W)) (w w1 : W) (result : R) :
  f w = Some (Returned result, w1) ->
  (retry_with_backoff_log uniform retries backoff_in_seconds f w
     = Some (Returned result, w1, [Invoke])
   <-> rate_limited_payload result = false) /\
  (rate_limited_payload result = true <->
   exists d error,
     as_dict result = Some d /\ lookup "error" d = Some error /\
     contains "429" (str error) = true).
Proof.
  intro Hf. split; [|apply rate_limited_payload_spec].
  unfold retry_with_backoff_log.
  rewrite (loop_returned _ _ _ _ _ _ _ _ _ _ Hf).
  destruct (rate_limited_payload result); split; try reflexivity; try discriminate.
  cbv zeta. destruct (Nat.eqb 0 retries); [discriminate|].
  intro H. apply loop_log_extends in H. destruct H as [ext H].
  discriminate.
Qed.

Lemma other_results_are_returned_witness :
  (retry_with_backoff_log no_jitter 3 2 (always_payload payload_500) 0%nat
     = Some (Returned payload_500, 1%nat, [Invoke])
   <-> rate_limited_payload payload_500 = false) /\
  (rate_limited_payload payload_500 = true <->
   exists d error,
     as_dict payload_500 = Some d /\ lookup "error" d = Some error /\
     contains "429" (str error) = true).
Proof.
  apply (other_results_are_returned no_jitter 3 2 (always_payload payload_500)
           0%nat 1%nat payload_500).
  reflexivity.
Defined.

End RetryPolicyFacts.

Module PaginatedFetcherFacts.
Import PyStr Py Json Sys RetryPolicy PaginatedFetcher.

Section LoopFacts.

Variable server : list request -> request -> outcome http_response.
Variable json_loads : string -> option value.
Variables (method json_data : value) (url : string) (headers : dict).
Variables (page_token_key results_key request_token_key page_size : value).
Variable max_pages : value.

#[local] Abbreviation round_of :=
  (one_round server json_loads method json_data url headers page_token_key
     results_key request_token_key page_size max_pages).
#[local] Abbreviation loop :=
  (pages_loop server json_loads method json_data url headers page_token_key
     results_key request_token_key page_size max_pages).
#[local] Abbreviation request_for :=
  (page_request method json_data url headers request_token_key page_size).

(** A round leaves the database alone and issues at most one request, and
    none once the cap is reached. *)
Lemma one_round_log (page_count : Z) (token : value) (all_results : list value)
    (w w' : World) (r : round) :
  round_of page_count token all_results w = (r, w') ->
  db w' = db w /\
  (w' = w \/
   cap_reached max_pages page_count = false /\
   w' = log_request (request_for token) w).
Proof.
  unfold one_round.
  destruct (cap_reached max_pages page_count).
  { intro H. injection H as <- <-. auto. }
  destruct (print_error request_token_key token).
  { intro H. injection H as <- <-. auto. }
  intro H.
  assert (Hw : w' = log_request (request_for token) w).
  { destruct (server (http_log w) (request_for token)) as [response|e].
    2:{ now injection H as <- <-. }
    cbv zeta in H.
    repeat match type of H with
           | (if ?c then _ else _) = _ => destruct c
           | (match ?c with _ => _ end) = _ => destruct c
           | (let (_, _) := ?c in _) = _ => destruct c
           end;
      now injection H as <- <-. }
  subst w'. auto.
Qed.

Lemma one_round_cap (page_count : Z) (token : value) (all_results : list value)
    (w : World) :
  cap_reached max_pages page_count = true ->
  round_of page_count token all_results w = (Break all_results, w).
Proof. unfold one_round. now intros ->. Qed.

Lemma loop_step (fuel : nat) (page_count : Z) (token : value)
    (all_results : list value) (w : World) :
  loop (S fuel) page_count token all_results w =
  match round_of (page_count + 1) token all_results w with
  | (Continue token' results, w') => loop fuel (page_count + 1) token' results w'
  | (exit, w') => Some (exit, w')
  end.
Proof. reflexivity. Qed.

End LoopFacts.

Section Bounded.

Variable server : list request -> request -> outcome http_response.
Variable json_loads : string -> option value.
Variables (method json_data : value) (url : string) (headers : dict).
Variables (page_token_key results_key request_token_key page_size : value).
Variable m : Z.
Hypothesis m_positive : 1 <= m.

#[local] Abbreviation capped_loop :=
  (pages_loop server json_loads method json_data url headers page_token_key
     results_key request_token_key page_size (VInt m)).

Lemma cap_reached_spec (page_count : Z) :
  cap_reached (VInt m) page_count = (page_count >? m).
Proof.
  unfold cap_reached. replace (m =? 0) with false by (symmetry; apply Z.eqb_neq; lia).
  reflexivity.
Qed.

(** With a cap the loop is left after at most [m - page_count] requests. *)
Lemma capped_loop_terminates (fuel : nat) (page_count : Z) (token : value)
    (all_results : list value) (w : World) :
  0 <= page_count ->
  (Z.to_nat (m - page_count) < fuel)%nat ->
  exists exit w' new,
    capped_loop fuel page_count token all_results w = Some (exit, w') /\
    is_continue exit = false /\
    db w' = db w /\
    http_log w' = (http_log w ++ new)%list /\
    (List.length new <= Z.to_nat (m - page_count))%nat.
Proof.
  revert page_count token all_results w.
  induction fuel as [|fuel IH]; intros page_count token all_results w Hpc Hfuel; [lia|].
  rewrite loop_step.
  destruct (one_round _ _ _ _ _ _ _ _ _ _ _ (page_count + 1) token all_results w)
    as [r w1] eqn:Hr.
  destruct (one_round_log _ _ _ _ _ _ _ _ _ _ _ _ _ _ _ _ _ Hr) as [Hdb Hlog].
  assert (Hnew : exists new1, http_log w1 = (http_log w ++ new1)%list /\
            (List.length new1 <= Z.to_nat (m - page_count))%nat /\
            (is_continue r = true ->
             (List.length new1 + Z.to_nat (m - (page_count + 1))
                <= Z.to_nat (m - page_count))%nat /\
             (Z.to_nat (m - (page_count + 1)) < fuel)%nat)).
  { destruct Hlog as [-> | [Hcap ->]].
    - exists []. rewrite app_nil_r. split; [reflexivity|]. split; [simpl; lia|].
      intro Hc.
      destruct (cap_reached (VInt m) (page_count + 1)) eqn:Hcap.
      + rewrite one_round_cap in Hr by exact Hcap.
        injection Hr as <-. discriminate.
      + rewrite cap_reached_spec in Hcap. simpl. lia.
    - rewrite cap_reached_spec in Hcap.
      eexists. split; [reflexivity|]. simpl. split; [lia|]. intros _. lia. }
  destruct Hnew as (new1 & Hlog1 & Hlen1 & Hcont).
  destruct r as [token' results|results|v|e].
  - destruct (Hcont eq_refl) as [Hsum Hfuel'].
    destruct (IH (page_count + 1) token' results w1 ltac:(lia) Hfuel')
      as (exit & w' & new2 & Hloop & Hexit & Hdb' & Hlog' & Hlen').
    exists exit, w', (new1 ++ new2)%list. repeat split; try assumption.
    + congruence.
    + rewrite Hlog', Hlog1. now rewrite app_assoc.
    + rewrite length_app. lia.
  - exists (Break results), w1, new1. auto.
  - exists (Return v), w1, new1. auto.
  - exists (Raise e), w1, new1. auto.
Qed.

(** Once the page counter has reached the cap, the next round stops the
    loop with the results gathered so far, without a request. *)
Lemma capped_loop_stops_at_cap (fuel : nat) (page_count : Z) (token : value)
    (all_results : list value) (w : World) :
  m <= page_count ->
  capped_loop (S fuel) page_count token all_results w
    = Some (Break all_results, w).
Proof.
  intro H. rewrite loop_step, one_round_cap; [reflexivity|].
  rewrite cap_reached_spec. lia.
Qed.

End Bounded.
Section Counting.

Variable server : list request -> request -> outcome http_response.
Variable json_loads : string -> option value.
Variables (method json_data : value) (url : string) (headers : dict).
Variables (page_token_key results_key request_token_key page_size : value).
Variable max_pages : value.
Variable rk : string.
Hypothesis results_key_configured : configured results_key = Some rk.

#[local] Abbreviation round_of :=
  (one_round server json_loads method json_data url headers page_token_key
     results_key request_token_key page_size max_pages).
#[local] Abbreviation loop :=
  (pages_loop server json_loads method json_data url headers page_token_key
     results_key request_token_key page_size max_pages).
#[local] Abbreviation request_for :=
  (page_request method json_data url headers request_token_key page_size).

#[local] Abbreviation good_page :=
  (PaginatedFetcher.good_page json_loads page_token_key rk).
#[local] Abbreviation total_items :=
  (PaginatedFetcher.total_items json_loads rk).

Lemma print_error_ok (token : value) :
  token_ok token = true -> print_error request_token_key token = None.
Proof.
  unfold token_ok, print_error, token_param.
  destruct (configured request_token_key); [|reflexivity].
  destruct (truthy token); [|reflexivity]. simpl. now intros ->.
Qed.

Lemma good_round (page_count : Z) (token : value) (all_results : list value)
    (w : World) :
  cap_reached max_pages page_count = false ->
  token_ok token = true ->
  good_page (server (http_log w) (request_for token)) = true ->
  exists items,
    page_items json_loads rk (server (http_log w) (request_for token))
      = Some items /\
    (round_of page_count token all_results w
       = (Break (all_results ++ items)%list, log_request (request_for token) w)
     \/ exists token',
         token_ok token' = true /\
         round_of page_count token all_results w
           = (Continue token' (all_results ++ items)%list,
              log_request (request_for token) w)).
Proof.
  intros Hcap Htok Hgood.
  unfold one_round. rewrite Hcap, (print_error_ok _ Htok).
  unfold good_page, is_list_page, token_is_text, page_items, page_body in Hgood |- *.
  destruct (server (http_log w) (request_for token)) as [r|e]; [|discriminate].
  unfold raise_for_status.
  destruct ((400 <=? status_code r) && (status_code r <? 600))%bool; [discriminate|].
  destruct (status_code r =? 204); [discriminate|].
  destruct (nonempty (text r)); [|discriminate].
  simpl orb in *. cbv iota in *.
  destruct (json_loads (text r)) as [[| | | | | |d]|]; try discriminate.
  destruct (lookup rk d) as [[| | | | |items|]|] eqn:Hlk; try discriminate.
  exists items. split; [reflexivity|].
  rewrite results_key_configured.
  unfold key_in, mem, data_get, get. rewrite Hlk.
  destruct (configured page_token_key) as [tk|]; [|now left].
  simpl in Hgood. unfold get in Hgood.
  set (tokv := match lookup tk d with Some v => v | None => VNone end) in *.
  destruct (truthy tokv) eqn:Ht.
  - simpl in Hgood |- *. rewrite Hgood. right.
    exists tokv. split; [|reflexivity]. unfold token_ok. now rewrite Hgood, orb_true_r.
  - simpl. now left.
Qed.

Lemma total_items_cons (o : outcome http_response)
    (rest : list (outcome http_response)) :
  total_items (o :: rest)
    = (page_item_count json_loads rk o + total_items rest)%nat.
Proof. reflexivity. Qed.

Lemma page_item_count_items (o : outcome http_response) (items : list value) :
  page_items json_loads rk o = Some items ->
  page_item_count json_loads rk o = List.length items.
Proof. unfold page_item_count. now intros ->. Qed.

Lemma loop_counts (fuel : nat) (page_count : Z) (token : value)
    (all_results : list value) (w w' : World) (exit : round) :
  token_ok token = true ->
  loop fuel page_count token all_results w = Some (exit, w') ->
  exists new,
    http_log w' = (http_log w ++ new)%list /\
    (forallb good_page (replay server (http_log w) new) = true ->
     exists items,
       exit = Break (all_results ++ items)%list /\
       List.length items = total_items (replay server (http_log w) new)).
Proof.
  revert page_count token all_results w.
  induction fuel as [|fuel IH]; intros page_count token all_results w Htok; [discriminate|].
  rewrite loop_step.
  destruct (cap_reached max_pages (page_count + 1)) eqn:Hcap.
  { rewrite one_round_cap by exact Hcap. intro H. injection H as <- <-.
    exists []. rewrite app_nil_r. split; [reflexivity|]. intros _.
    exists []. now rewrite app_nil_r. }
  destruct (round_of (page_count + 1) token all_results w) as [r w1] eqn:Hr.
  assert (Hw1 : w1 = log_request (request_for token) w).
  { pose proof Hr as Hr'. unfold one_round in Hr'.
    rewrite Hcap, (print_error_ok _ Htok) in Hr'.
    apply (f_equal snd) in Hr'. simpl in Hr'. rewrite <- Hr'.
    destruct (server (http_log w) (request_for token)); [|reflexivity].
    cbv zeta.
    repeat match goal with
           | |- snd (if ?c then _ else _) = _ => destruct c
           | |- snd (match ?c with _ => _ end) = _ => destruct c
           end; reflexivity. }
  assert (Hround : good_page (server (http_log w) (request_for token)) = true ->
            exists items,
              page_items json_loads rk (server (http_log w) (request_for token))
                = Some items /\
              (r = Break (all_results ++ items)%list \/
               exists token', token_ok token' = true /\
                              r = Continue token' (all_results ++ items)%list)).
  { intro Hgood.
    destruct (good_round (page_count + 1) token all_results w Hcap Htok Hgood)
      as (items & Hitems & [H | (token' & Hok & H)]);
      rewrite H in Hr; injection Hr as <- _; exists items; split; eauto. }
  destruct r as [token' results|results|v|e].
  - (* the loop goes on *)
    intro Hloop.
    assert (Htok' : good_page (server (http_log w) (request_for token)) = true ->
                    token_ok token' = true).
    { intro Hg. destruct (Hround Hg) as (items & _ & [H | (t & Hok & H)]);
        [discriminate | now injection H as -> _]. }
    destruct (good_page (server (http_log w) (request_for token))) eqn:Hg.
    + destruct (IH _ _ _ _ (Htok' eq_refl) Hloop) as (new2 & Hlog2 & Hcount2).
      exists (request_for token :: new2). subst w1. split.
      * rewrite Hlog2. simpl. now rewrite <- app_assoc.
      * simpl replay. simpl forallb. rewrite Hg. simpl andb. intro Hall.
        destruct (Hround eq_refl) as (items & Hitems & [H | (t & _ & H)]);
          [discriminate|]. injection H as _ ->.
        destruct (Hcount2 Hall) as (items2 & -> & Hlen).
        exists (items ++ items2)%list. split; [now rewrite app_assoc|].
        rewrite total_items_cons, length_app, Hlen.
        now rewrite (page_item_count_items _ _ Hitems).
    + (* the answer was not a good page: nothing is claimed *)
      assert (Hex : exists new, http_log w' = (http_log w1 ++ new)%list).
      { clear - Hloop. revert Hloop. generalize (page_count + 1) token' results w1.
        clear. induction fuel as [|fuel IHf]; intros pc t res w1; [discriminate|].
        rewrite loop_step.
        destruct (one_round _ _ _ _ _ _ _ _ _ _ _ (pc + 1) t res w1) as [r w2] eqn:Hr.
        destruct (one_round_log _ _ _ _ _ _ _ _ _ _ _ _ _ _ _ _ _ Hr) as [_ Hlog].
        assert (Hl : exists n1, http_log w2 = (http_log w1 ++ n1)%list).
        { destruct Hlog as [-> | [_ ->]]; [exists []; now rewrite app_nil_r|].
          eexists. reflexivity. }
        destruct Hl as [n1 Hl].
        destruct r; intro H.
        - apply IHf in H. destruct H as [n2 H]. exists (n1 ++ n2)%list.
          now rewrite H, Hl, app_assoc.
        - injection H as _ <-. eauto.
        - injection H as _ <-. eauto.
        - injection H as _ <-. eauto. }
      destruct Hex as [new2 Hlog2].
      exists (request_for token :: new2). subst w1. split.
      * rewrite Hlog2. simpl. now rewrite <- app_assoc.
      * simpl replay. simpl forallb. rewrite Hg. discriminate.
  - intro H. injection H as <- <-. exists [request_for token]. subst w1.
    split; [reflexivity|]. simpl. rewrite andb_true_r. intro Hg.
    destruct (Hround Hg) as (items & Hitems & [H | (t & _ & H)]); [|discriminate].
    injection H as ->. exists items. split; [reflexivity|].
    rewrite total_items_cons, (page_item_count_items _ _ Hitems).
    unfold total_items. simpl. lia.
  - intro H. injection H as <- <-. exists [request_for token]. subst w1.
    split; [reflexivity|]. simpl. rewrite andb_true_r. intro Hg.
    destruct (Hround Hg) as (items & Hitems & [H | (t & _ & H)]); discriminate.
  - intro H. injection H as <- <-. exists [request_for token]. subst w1.
    split; [reflexivity|]. simpl. rewrite andb_true_r. intro Hg.
    destruct (Hround Hg) as (items & Hitems & [H | (t & _ & H)]); discriminate.
Qed.

End Counting.
Import Sample.

(** C2, on the code.  A page whose next-page token is a number.  The
    audit is set up, the cap is 2, the only answer is a page with the
    list [[1, 2]] under the results key and the token [7].  The token is
    sliced for a log line, [next_page_token[:10]], which raises a
    [TypeError] for a number; the [except Exception] clause turns it into
    an error dict, which the decorator hands back as it is.  One request
    was made, one page with two items was received, and the result holds
    no item at all. *)
Theorem numeric_token_loses_items (uniform : nat -> Q) :
  let answers := [Returned (ok numbered_page)] in
  let lost :=
    VDict [("error", VStr "An unexpected error occurred");
           ("details", VStr "'int' object is not subscriptable")] in
  let run_body :=
    make_api_request_body (mock_server [ok numbered_page]) loads (Returned tt)
      3 "proj-1" details base_url parent_path (VInt 2) world0 in
  let run :=
    make_api_request (mock_server [ok numbered_page]) loads (Returned tt)
      uniform 3 "proj-1" details base_url parent_path (VInt 2) world0 in
  configured (get "pagination_results_key" VNone details) = Some "items" /\
  replay (mock_server [ok numbered_page]) [] [first_request] = answers /\
  forallb (is_list_page loads "items") answers = true /\
  total_items loads "items" answers = 2%nat /\
  run_body = Some (Returned lost, mkWorld database0 [first_request]) /\
  run = Some (Returned lost, mkWorld database0 [first_request]) /\
  result_item_count "items" (Returned lost) = None.
Proof.
  cbv zeta. repeat split; reflexivity.
Qed.

(** With a cap [m >= 1] one call of the function body ends, after at
    most [m] requests, and leaves the database as it was. *)
Lemma body_terminates
    (server : list request -> request -> outcome http_response)
    (json_loads : string -> option value) (get_gcp_credentials : outcome unit)
    (project_id : string) (audit_details : dict) (base_url parent_path : value)
    (m : Z) (fuel : nat) (w : World) :
  1 <= m -> (Z.to_nat m < fuel)%nat ->
  exists res w' new,
    make_api_request_body server json_loads get_gcp_credentials fuel project_id
      audit_details base_url parent_path (VInt m) w = Some (res, w') /\
    db w' = db w /\
    http_log w' = (http_log w ++ new)%list /\
    (List.length new <= Z.to_nat m)%nat /\
    forall config target,
      first_tenant_config project_id (db w) = Some config ->
      prepare get_gcp_credentials config audit_details base_url parent_path
        = Returned (inr target) ->
      exists exit,
        pages_loop server json_loads (get "method" (VStr "GET") audit_details)
          (get "json_data" VNone audit_details) (fst target) (snd target)
          (get "pagination_token_key" VNone audit_details)
          (get "pagination_results_key" VNone audit_details)
          (or_else (get "pagination_request_token_key" VNone audit_details)
             (get "pagination_token_key" VNone audit_details))
          (get "default_page_size" VNone audit_details) (VInt m) fuel 0 VNone []
          w = Some (exit, w') /\
        res = finish json_loads
                (get "pagination_results_key" VNone audit_details) exit.
Proof.
  intros Hm Hfuel. unfold make_api_request_body.
  destruct (first_tenant_config project_id (db w)) as [config|] eqn:Hcfg.
  2:{ eexists. exists w, []. rewrite app_nil_r. repeat split; simpl; try lia.
      intros. discriminate. }
  destruct (prepare get_gcp_credentials config audit_details base_url parent_path)
    as [[early|[url headers]]|e] eqn:Hprep.
  1,3: eexists; exists w, []; rewrite app_nil_r; repeat split; simpl; try lia;
       intros c t Hc Ht; injection Hc as <-; rewrite Hprep in Ht; discriminate.
  set (ptk := get "pagination_token_key" VNone audit_details).
  set (rkey := get "pagination_results_key" VNone audit_details).
  set (rtk := or_else (get "pagination_request_token_key" VNone audit_details) ptk).
  destruct (capped_loop_terminates server json_loads
              (get "method" (VStr "GET") audit_details)
              (get "json_data" VNone audit_details) url headers ptk rkey rtk
              (get "default_page_size" VNone audit_details) m Hm
              fuel 0 VNone [] w ltac:(lia) ltac:(now rewrite Z.sub_0_r))
    as (exit & w' & new & Hloop & Hexit & Hdb & Hlog & Hlen).
  rewrite Hloop.
  exists (finish json_loads rkey exit), w', new.
  split; [destruct exit; try reflexivity; discriminate|].
  rewrite Z.sub_0_r in Hlen. repeat split; try assumption.
  intros c t Hc Ht. injection Hc as <-. rewrite Hprep in Ht. injection Ht as <-.
  exists exit. split; [exact Hloop | reflexivity].
Qed.

(** The decorated function calls the body up to four times, so with a
    cap [m >= 1] it terminates after at most [4 * m] HTTP requests. *)
Lemma decorated_fetch_bound
    (server : list request -> request -> outcome http_response)
    (json_loads : string -> option value) (get_gcp_credentials : outcome unit)
    (uniform : nat -> Q)
    (project_id : string) (audit_details : dict) (base_url parent_path : value)
    (m : Z) (fuel : nat) (w : World) :
  1 <= m -> (Z.to_nat m < fuel)%nat ->
  exists res w',
    make_api_request server json_loads get_gcp_credentials uniform fuel
      project_id audit_details base_url parent_path (VInt m) w = Some (res, w') /\
    (List.length (http_log w') <= List.length (http_log w) + 4 * Z.to_nat m)%nat.
Proof.
  intros Hm Hfuel. unfold make_api_request, retry_with_backoff, retry_with_backoff_log.
  destruct (RetryPolicyFacts.loop_measure uniform 3 2
              (make_api_request_body server json_loads get_gcp_credentials fuel
                 project_id audit_details base_url parent_path (VInt m))
              (fun w0 => List.length (http_log w0)) (Z.to_nat m) 3 0 w [])
    as (res & w' & log' & Hloop & Hmeasure).
  - intro w0.
    destruct (body_terminates server json_loads get_gcp_credentials project_id
                audit_details base_url parent_path m fuel w0 Hm Hfuel)
      as (res & w1 & new & Hrun & _ & Hlog & Hlen & _).
    exists res, w1. split; [exact Hrun|]. rewrite Hlog, length_app. lia.
  - reflexivity.
  - rewrite Hloop. exists res, w'. split; [reflexivity | lia].
Qed.

(** Where the fetch keeps to the bound and to the count.  With a cap
    [m >= 1] one call of the function body terminates (any fuel above
    [m] is enough) after at most [m] HTTP requests, and once the page counter has reached the cap the loop stops
    without a request and hands over the results gathered so far.  When the
    results key is configured, the tenant and the request are set up, and
    every answer received is a page with a list under that key and with a
    next-page token that is text (or absent or empty), the result is
    [{results_key: items}] and the number of items is the sum of the item
    counts of the pages received. *)
Theorem pagination_terminates_and_counts
    (server : list request -> request -> outcome http_response)
    (json_loads : string -> option value) (get_gcp_credentials : outcome unit)
    (project_id : string) (audit_details : dict) (base_url parent_path : value)
    (m : Z) (fuel : nat) (w : World) :
  1 <= m -> (Z.to_nat m < fuel)%nat ->
  (exists res w' new,
     make_api_request_body server json_loads get_gcp_credentials fuel project_id
       audit_details base_url parent_path (VInt m) w = Some (res, w') /\
     db w' = db w /\
     http_log w' = (http_log w ++ new)%list /\
     (List.length new <= Z.to_nat m)%nat /\
     forall rk config target,
       configured (get "pagination_results_key" VNone audit_details) = Some rk ->
       first_tenant_config project_id (db w) = Some config ->
       prepare get_gcp_credentials config audit_details base_url parent_path
         = Returned (inr target) ->
       forallb (good_page json_loads
                  (get "pagination_token_key" VNone audit_details) rk)
               (replay server (http_log w) new) = true ->
       exists items,
         res = Returned (VDict [(rk, VList items)]) /\
         List.length items
           = total_items json_loads rk (replay server (http_log w) new)) /\
  (forall method json_data url headers page_token_key results_key
          request_token_key page_size fuel' page_count token all_results w0,
     m <= page_count ->
     pages_loop server json_loads method json_data url headers page_token_key
       results_key request_token_key page_size (VInt m) (S fuel') page_count
       token all_results w0 = Some (Break all_results, w0) /\
     finish json_loads results_key (Break all_results)
       = Returned (final_result results_key all_results)).
Proof.
  intros Hm Hfuel. split.
  2:{ intros. split; [now apply capped_loop_stops_at_cap | reflexivity]. }
  destruct (body_terminates server json_loads get_gcp_credentials project_id
              audit_details base_url parent_path m fuel w Hm Hfuel)
    as (res & w' & new & Hrun & Hdb & Hlog & Hlen & Hloop).
  exists res, w', new. repeat split; try assumption.
  intros rk config target Hrk Hcfg Hprep Hgood.
  destruct (Hloop config target Hcfg Hprep) as (exit & Hexit & ->).
  destruct (loop_counts server json_loads _ _ _ _ _ _ _ _ (VInt m) rk Hrk
              fuel 0 VNone [] w w' exit eq_refl Hexit) as (new' & Hlog' & Hcount).
  assert (new' = new) by (rewrite Hlog in Hlog'; now apply app_inv_head in Hlog').
  subst new'. destruct (Hcount Hgood) as (items & -> & Hlen').
  exists items. split; [|exact Hlen'].
  simpl. unfold final_result. now rewrite Hrk.
Qed.

Lemma pagination_terminates_and_counts_witness :
  (exists res w' new,
     make_api_request_body (mock_server [ok page1; ok page2; ok page3]) loads
       (Returned tt) 3 "proj-1" details base_url parent_path (VInt 2) world0
       = Some (res, w') /\
     db w' = db world0 /\
     http_log w' = (http_log world0 ++ new)%list /\
     (List.length new <= Z.to_nat 2)%nat /\
     forall rk config target,
       configured (get "pagination_results_key" VNone details) = Some rk ->
       first_tenant_config "proj-1" (db world0) = Some config ->
       prepare (Returned tt) config details base_url parent_path
         = Returned (inr target) ->
       forallb (good_page loads (get "pagination_token_key" VNone details) rk)
               (replay (mock_server [ok page1; ok page2; ok page3])
                  (http_log world0) new) = true ->
       exists items,
         res = Returned (VDict [(rk, VList items)]) /\
         List.length items
           = total_items loads rk
               (replay (mock_server [ok page1; ok page2; ok page3])
                  (http_log world0) new)) /\
  (forall method json_data url headers page_token_key results_key
          request_token_key page_size fuel' page_count token all_results w0,
     2 <= page_count ->
     pages_loop (mock_server [ok page1; ok page2; ok page3]) loads method
       json_data url headers page_token_key results_key request_token_key
       page_size (VInt 2) (S fuel') page_count token all_results w0
       = Some (Break all_results, w0) /\
     finish loads results_key (Break all_results)
       = Returned (final_result results_key all_results)).
Proof.
  apply (pagination_terminates_and_counts
           (mock_server [ok page1; ok page2; ok page3]) loads (Returned tt)
           "proj-1" details base_url parent_path 2 3 world0).
  - lia.
  - simpl. lia.
Defined.

(** The example run, evaluated: two requests under the cap of 2, three
    items, the sum of the item counts 2 and 1 of the two pages received. *)
Example capped_run :
  make_api_request_body (mock_server [ok page1; ok page2; ok page3]) loads
    (Returned tt) 3 "proj-1" details base_url parent_path (VInt 2) world0
  = Some (Returned (VDict [("items", VList [VInt 1; VInt 2; VInt 3])]),
          mkWorld database0
            [first_request;
             mkRequest (VStr "GET") "https://soar.example/v1/parent/rules"
               [("next", VStr "t1")] VNone [("AppKey", VStr "key")]]).
Proof. vm_compute. reflexivity. Qed.

(** C8. A page whose body is not empty and does not decode as JSON (the
    answer is not an HTTP error and not a 204) ends the pagination.  When
    nothing has been aggregated so far the function returns the raw text,
    as [{"result": text}], and not an error; when results of earlier pages
    have been aggregated it returns those, under the results key. *)
Theorem non_json_page_returns_text
    (server : list request -> request -> outcome http_response)
    (json_loads : string -> option value)
    (method json_data : value) (url : string) (headers : dict)
    (page_token_key results_key request_token_key page_size max_pages : value)
    (fuel : nat) (page_count : Z) (token : value) (all_results : list value)
    (w : World) (r : http_response) :
  let req :=
    page_request method json_data url headers request_token_key page_size token in
  let after :=
    option_map (fun x => (finish json_loads results_key (fst x), snd x))
      (pages_loop server json_loads method json_data url headers page_token_key
         results_key request_token_key page_size max_pages (S fuel) page_count
         token all_results w) in
  cap_reached max_pages (page_count + 1) = false ->
  print_error request_token_key token = None ->
  server (http_log w) req = Returned r ->
  page_body (Returned r) = Some (text r) ->
  json_loads (text r) = None ->
  after = Some (Returned
                  (match all_results with
                   | [] => VDict [("result", VStr (text r))]
                   | _ :: _ => final_result results_key all_results
                   end),
                log_request req w) /\
  forall rk, configured results_key = Some rk ->
    final_result results_key all_results = VDict [(rk, VList all_results)].
Proof.
  intros req after Hcap Hprint Hserver Hbody Hjson.
  assert (Hround :
    one_round server json_loads method json_data url headers page_token_key
      results_key request_token_key page_size max_pages (page_count + 1) token
      all_results w
    = (match all_results with
       | [] => Return (VDict [("result", VStr (text r))])
       | _ :: _ => Break all_results
       end, log_request req w)).
  { unfold one_round. rewrite Hcap, Hprint. fold req. rewrite Hserver.
    unfold page_body in Hbody. unfold raise_for_status.
    destruct ((400 <=? status_code r) && (status_code r <? 600))%bool; [discriminate|].
    simpl orb in Hbody.
    destruct ((status_code r =? 204) || negb (nonempty (text r)))%bool; [discriminate|].
    rewrite Hjson. destruct all_results; reflexivity. }
  subst after. rewrite loop_step, Hround. split.
  - destruct all_results; reflexivity.
  - intros rk Hrk. unfold final_result. now rewrite Hrk.
Qed.

Lemma non_json_page_returns_text_witness :
  option_map (fun x => (finish loads (VStr "items") (fst x), snd x))
    (pages_loop (mock_server [ok page1; html]) loads (VStr "GET") VNone
       "https://soar.example/v1/parent/rules" [("AppKey", VStr "key")]
       (VStr "next") (VStr "items") (VStr "next") VNone (VInt 2) 1 1 (VStr "t1")
       [VInt 1; VInt 2] (log_request first_request world0))
  = Some (Returned (final_result (VStr "items") [VInt 1; VInt 2]),
          log_request
            (mkRequest (VStr "GET") "https://soar.example/v1/parent/rules"
               [("next", VStr "t1")] VNone [("AppKey", VStr "key")])
            (log_request first_request world0)) /\
  forall rk, configured (VStr "items") = Some rk ->
    final_result (VStr "items") [VInt 1; VInt 2]
      = VDict [(rk, VList [VInt 1; VInt 2])].
Proof.
  apply (non_json_page_returns_text (mock_server [ok page1; html]) loads
           (VStr "GET") VNone "https://soar.example/v1/parent/rules"
           [("AppKey", VStr "key")] (VStr "next") (VStr "items") (VStr "next")
           VNone (VInt 2) 0 1 (VStr "t1") [VInt 1; VInt 2]
           (log_request first_request world0) html); reflexivity.
Defined.

(** The two cases on the example audit, through the whole function: a
    first page that is not JSON, and a second page that is not JSON after
    a first page with two items. *)
Example text_page_alone :
  make_api_request_body (mock_server [html]) loads (Returned tt) 3 "proj-1"
    details base_url parent_path (VInt 2) world0
  = Some (Returned (VDict [("result", VStr "<html>")]),
          mkWorld database0 [first_request]).
Proof. vm_compute. reflexivity. Qed.

Example text_page_after_items :
  option_map fst
    (make_api_request_body (mock_server [ok page1; html]) loads (Returned tt) 3
       "proj-1" details base_url parent_path (VInt 2) world0)
  = Some (Returned (VDict [("items", VList [VInt 1; VInt 2])])).
Proof. vm_compute. reflexivity. Qed.

End PaginatedFetcherFacts.

Module AuditRunFacts.
Import PyStr Py Json Sys RetryPolicy PaginatedFetcher AuditRun.

(** What the handler does when it is reached with [audit_details] bound
    to a dict and the two [NOT NULL] columns filled: it inserts a
    [Failed] row that carries the text of the error, and raises the error
    again. *)
Lemma handler_records_failure (utcnow_iso : World -> string)
    (project_id : string) (request details : dict) (e : exn) (w : World) :
  details <> [] ->
  get "category" (VStr "Unknown") details <> VNone ->
  or_else (get "name" VNone details) (get "audit_name" VNone request) <> VNone ->
  exists row w',
    handler utcnow_iso project_id request e (Some (VDict details)) w
      = (Raised e, w') /\
    audits (db w') = (audits (db w) ++ [row])%list /\
    failed_record row (exn_str e).
Proof.
  intros Hne Hcat Hname. unfold handler, attr_get.
  destruct details as [|kv details]; [congruence|]. cbn [truthy].
  unfold add_and_commit, insertable, new_audit. cbn [audit_category audit_name].
  destruct (get "category" (VStr "Unknown") (kv :: details)) eqn:Ec; try congruence;
    destruct (or_else (get "name" VNone (kv :: details))
                (get "audit_name" VNone request)) eqn:En; try congruence;
    eexists; eexists; (split; [reflexivity|]); split; try reflexivity;
    split; reflexivity.
Qed.

(** Only [ValueError] and [KeyError] reach the handler: any other
    exception of the [try] block leaves the function with the table of
    audit runs as the block left it. *)
Lemma other_exceptions_bypass_the_handler
    (server : list request -> request -> outcome http_response)
    (json_loads : string -> option value) (get_gcp_credentials : outcome unit)
    (uniform : nat -> Q) (run_custom_iam_audit : string -> value)
    (utcnow_iso : World -> string) (render_kb : Z -> string) (fuel : nat)
    (project_id : string) (request : dict) (w w' : World) (e : exn)
    (binding : option value) :
  try_block server json_loads get_gcp_credentials uniform run_custom_iam_audit
    utcnow_iso render_kb fuel project_id request w = Some (Raised e, w', binding) ->
  match e with ValueError _ | KeyError _ => False | _ => True end ->
  run_audit_logic server json_loads get_gcp_credentials uniform
    run_custom_iam_audit utcnow_iso render_kb fuel project_id request w
  = Some (Raised e, w').
Proof.
  intros Htry He. unfold run_audit_logic. rewrite Htry.
  destruct e; try reflexivity; contradiction.
Qed.

Import PaginatedFetcher.Sample AuditRun.Sample.

(** C4, on the code.  The scheduled audit [rules] of a configured tenant
    runs against an API that answers every request with HTTP 429.  The
    fetch turns each answer into an error dict, the retry wrapper turns
    the dict into an HTTP error and gives up after four calls, and that
    error is neither a [ValueError] nor a [KeyError]: it leaves
    [run_audit_logic] and no row is inserted, neither [Failed] nor any
    other. *)
Theorem rate_limited_audit_leaves_no_record :
  exists w',
    run_audit_logic always_429 loads (Returned tt) RetryPolicy.Sample.no_jitter
      no_roles clock kb 3 "proj-1" by_name world0
    = Some (Raised (HTTPError
              "Status 429: 429 Client Error: Too Many Requests for url: https://soar.example/v1/rules"
              None), w') /\
    audits (db w') = [] /\
    List.length (http_log w') = 4%nat.
Proof. eexists. vm_compute. repeat split; reflexivity. Qed.

(** The sibling path: on HTTP 500 the same audit fails with a
    [ValueError] and the [Failed] row is written. *)
Example server_error_is_recorded :
  exists w' row,
    run_audit_logic always_500 loads (Returned tt) RetryPolicy.Sample.no_jitter
      no_roles clock kb 3 "proj-1" by_name world0
    = Some (Raised (ValueError
              "500 Server Error: Internal Server Error for url: https://soar.example/v1/rules"),
            w') /\
    audits (db w') = [row] /\
    failed_record row
      "500 Server Error: Internal Server Error for url: https://soar.example/v1/rules".
Proof. eexists. eexists. vm_compute. repeat split; reflexivity. Qed.

(** A request with neither an audit name nor audit details raises a
    [ValueError] before [audit_details] is bound; the handler reads that
    name, so it fails in turn and writes no row. *)
Example empty_request_leaves_no_record :
  run_audit_logic always_429 loads (Returned tt) RetryPolicy.Sample.no_jitter
    no_roles clock kb 3 "proj-1" [] world0
  = Some (Raised (UnboundLocalError
            "cannot access local variable 'audit_details' where it is not associated with a value"),
          world0).
Proof. vm_compute. reflexivity. Qed.

End AuditRunFacts.

Module JsonFacts.
Import PyStr Py Json.

(** *** The order of the keys *)

Lemma compare_gt_lt (a b : string) :
  String_as_OT.compare a b = Gt -> String_as_OT.compare b a = Lt.
Proof.
  intro H. destruct (String_as_OT.compare_spec a b) as [E|L|G]; try discriminate.
  exact G.
Qed.

Lemma compare_refl (a : string) : String_as_OT.compare a a = Eq.
Proof.
  destruct (String_as_OT.compare_spec a a) as [E|L|G]; [reflexivity| |];
    exfalso; eapply String_as_OT.lt_strorder; eassumption.
Qed.

Lemma key_le_trans (x y z : string * string) :
  key_le x y -> key_le y z -> key_le x z.
Proof.
  unfold key_le. intros Hxy Hyz Hxz. apply compare_gt_lt in Hxz.
  destruct (String_as_OT.compare_spec (fst x) (fst y)) as [E|L|G]; [| |congruence].
  - rewrite E in *. apply Hyz.
    destruct (String_as_OT.compare_spec (fst y) (fst z)) as [E'|L'|G']; try reflexivity.
    + rewrite E' in Hxz. rewrite compare_refl in Hxz. discriminate.
    + exfalso. eapply String_as_OT.lt_strorder. etransitivity; [exact L'|exact Hxz].
  - destruct (String_as_OT.compare_spec (fst y) (fst z)) as [E'|L'|G']; [| |congruence].
    + rewrite <- E' in Hxz.
      eapply String_as_OT.lt_strorder. etransitivity; [exact L|exact Hxz].
    + eapply String_as_OT.lt_strorder.
      etransitivity; [exact L|]. etransitivity; [exact L'|exact Hxz].
Qed.

Lemma key_le_antisym (x y : string * string) :
  key_le x y -> key_le y x -> fst x = fst y.
Proof.
  unfold key_le. intros Hxy Hyx.
  destruct (String_as_OT.compare_spec (fst x) (fst y)) as [E|L|G];
    [exact E | | congruence].
  exfalso. apply Hyx.
  destruct (String_as_OT.compare_spec (fst y) (fst x)) as [E'|L'|G']; try reflexivity.
  - rewrite E' in L. exfalso. eapply String_as_OT.lt_strorder. exact L.
  - exfalso. eapply String_as_OT.lt_strorder. etransitivity; eassumption.
Qed.

(** *** Insertion sort *)

Lemma insert_item_perm (kv : string * string) (l : list (string * string)) :
  Permutation (kv :: l) (insert_item kv l).
Proof.
  induction l as [|kv' l IH]; simpl; [reflexivity|].
  destruct (String_as_OT.compare (fst kv) (fst kv')); try reflexivity.
  rewrite perm_swap. now apply perm_skip.
Qed.

Lemma sort_items_perm (l : list (string * string)) : Permutation l (sort_items l).
Proof.
  induction l as [|kv l IH]; simpl; [reflexivity|].
  rewrite <- insert_item_perm. now apply perm_skip.
Qed.

Lemma insert_item_sorted (kv : string * string) (l : list (string * string)) :
  StronglySorted key_le l -> StronglySorted key_le (insert_item kv l).
Proof.
  induction l as [|kv' l IH]; intro Hs; simpl.
  - repeat constructor.
  - inversion Hs as [|? ? Hl Hall]; subst.
    destruct (String_as_OT.compare (fst kv) (fst kv')) eqn:Hc.
    + constructor; [exact Hs|]. constructor.
      * unfold key_le. congruence.
      * eapply Forall_impl; [|exact Hall]. intros z Hz.
        eapply key_le_trans; [|exact Hz]. unfold key_le. congruence.
    + constructor; [exact Hs|]. constructor.
      * unfold key_le. congruence.
      * eapply Forall_impl; [|exact Hall]. intros z Hz.
        eapply key_le_trans; [|exact Hz]. unfold key_le. congruence.
    + constructor; [now apply IH|].
      assert (Hle : key_le kv' kv).
      { unfold key_le. apply compare_gt_lt in Hc. congruence. }
      eapply Permutation_Forall; [apply insert_item_perm|].
      constructor; assumption.
Qed.

Lemma sort_items_sorted (l : list (string * string)) :
  StronglySorted key_le (sort_items l).
Proof.
  induction l as [|kv l IH]; simpl; [constructor|]. now apply insert_item_sorted.
Qed.

(** Two sorted lists with the same entries, the keys being pairwise
    distinct, are the same list. *)
Lemma sorted_unique (l1 l2 : list (string * string)) :
  StronglySorted key_le l1 -> StronglySorted key_le l2 ->
  NoDup (map fst l1) -> Permutation l1 l2 -> l1 = l2.
Proof.
  revert l2. induction l1 as [|a l1 IH]; intros l2 Hs1 Hs2 Hnd Hp.
  - apply Permutation_nil in Hp. now subst.
  - destruct l2 as [|b l2]; [apply Permutation_sym, Permutation_nil in Hp; discriminate|].
    inversion Hs1 as [|? ? Hs1' Ha]; subst. inversion Hs2 as [|? ? Hs2' Hb]; subst.
    assert (Hnd2 : NoDup (map fst (b :: l2))).
    { eapply Permutation_NoDup; [|exact Hnd]. now apply Permutation_map. }
    assert (Hab : a = b).
    { assert (Hin_a : In a (b :: l2)) by (eapply Permutation_in; [exact Hp|now left]).
      assert (Hin_b : In b (a :: l1))
        by (eapply Permutation_in; [apply Permutation_sym; exact Hp|now left]).
      destruct Hin_a as [->|Hin_a]; [reflexivity|].
      destruct Hin_b as [->|Hin_b]; [reflexivity|].
      rewrite Forall_forall in Ha, Hb.
      pose proof (key_le_antisym _ _ (Ha _ Hin_b) (Hb _ Hin_a)) as Hk.
      exfalso. simpl in Hnd2. inversion Hnd2 as [|? ? Hnotin _]; subst.
      apply Hnotin. rewrite <- Hk. now apply in_map. }
    subst b. f_equal. apply IH; try assumption.
    + simpl in Hnd. now inversion Hnd.
    + eapply Permutation_cons_inv. exact Hp.
Qed.

Lemma sort_items_unique (l1 l2 : list (string * string)) :
  NoDup (map fst l1) -> Permutation l1 l2 -> sort_items l1 = sort_items l2.
Proof.
  intros Hnd Hp. apply sorted_unique; try apply sort_items_sorted.
  - eapply Permutation_NoDup; [|exact Hnd].
    apply Permutation_map, sort_items_perm.
  - rewrite <- (sort_items_perm l1), <- (sort_items_perm l2). exact Hp.
Qed.

Lemma lookup_In (key : string) (d : dict) (v : value) :
  lookup key d = Some v -> In (key, v) d.
Proof.
  induction d as [|[k v0] d IH]; simpl; [discriminate|].
  destruct (String.eqb k key) eqn:E.
  - apply String.eqb_eq in E. intro H. injection H as ->. subst. now left.
  - intro H. right. now apply IH.
Qed.

(** Documents that agree up to the order of their keys have the same
    sorted encoding, at every depth of indentation. *)
Lemma encode_sorted_key_order (a : value) :
  forall b, wf a -> wf b -> same_up_to_key_order a b = true ->
  forall level, encode true level a = encode true level b.
Proof.
  induction a as [|b0|n0|r0|s0|xs IH|d1 IH] using value_rect';
    intros b Hwa Hwb Hsame level; destruct b as [| | | | |ys|d2];
    simpl in Hsame; try discriminate.
  - reflexivity.
  - apply Bool.eqb_prop in Hsame. now subst.
  - apply Z.eqb_eq in Hsame. now subst.
  - apply String.eqb_eq in Hsame. now subst.
  - apply String.eqb_eq in Hsame. now subst.
  - (* lists *)
    simpl. f_equal.
    inversion Hwa as [| | | | |? Hxs|]; subst. inversion Hwb as [| | | | |? Hys|]; subst.
    clear Hwa Hwb. revert ys Hsame Hys.
    induction xs as [|x xs IHxs]; intros [|y ys] Hsame Hys; try discriminate;
      [reflexivity|].
    apply andb_prop in Hsame. destruct Hsame as [Hxy Hrest].
    inversion IH; subst. inversion Hxs; subst. inversion Hys; subst.
    simpl. f_equal; [now auto|]. now apply IHxs.
  - (* dictionaries *)
    apply andb_prop in Hsame. destruct Hsame as [Hlen Hall].
    apply Nat.eqb_eq in Hlen. rewrite forallb_forall in Hall.
    inversion Hwa as [| | | | | |? Hnd1 Hw1]; subst.
    inversion Hwb as [| | | | | |? Hnd2 Hw2]; subst.
    simpl. f_equal. f_equal.
    set (r1 := map (fun kv => (fst kv, encode true (S level) (snd kv))) d1).
    set (r2 := map (fun kv => (fst kv, encode true (S level) (snd kv))) d2).
    apply sort_items_unique.
    + subst r1. rewrite map_map. simpl. exact Hnd1.
    + apply NoDup_Permutation_bis.
      * apply (NoDup_map_inv fst). subst r1. rewrite map_map. simpl. exact Hnd1.
      * subst r1 r2. rewrite !length_map. lia.
      * intros [k s] Hin. subst r1 r2. apply in_map_iff in Hin.
        destruct Hin as ([k' v] & Heq & Hin). simpl in Heq. injection Heq as <- <-.
        specialize (Hall _ Hin). simpl in Hall.
        destruct (lookup k' d2) as [v'|] eqn:Hlk; [|discriminate].
        apply lookup_In in Hlk.
        rewrite Forall_forall in IH, Hw1, Hw2.
        pose proof (IH _ Hin v' (Hw1 _ Hin) (Hw2 _ Hlk) Hall (S level)) as Henc.
        simpl in Henc. apply in_map_iff. exists (k', v'). simpl.
        split; [now rewrite Henc | exact Hlk].
Qed.

(** A value with distinct keys agrees with itself, and reordering the
    entries of a dictionary keeps the agreement. *)
Lemma lookup_of_In (key : string) (v : value) (d : dict) :
  NoDup (map fst d) -> In (key, v) d -> lookup key d = Some v.
Proof.
  induction d as [|[k v0] d IH]; simpl; intros Hnd Hin; [contradiction|].
  inversion Hnd as [|? ? Hnotin Hnd']; subst.
  destruct Hin as [Heq|Hin].
  - injection Heq as -> ->. now rewrite String.eqb_refl.
  - destruct (String.eqb k key) eqn:E.
    + apply String.eqb_eq in E. subst. exfalso. apply Hnotin.
      change key with (fst (key, v)). now apply in_map.
    + now apply IH.
Qed.

Lemma same_up_to_key_order_refl (v : value) :
  wf v -> same_up_to_key_order v v = true.
Proof.
  induction v as [|b0|n0|r0|s0|xs IH|d IH] using value_rect'; intro Hw; simpl.
  - reflexivity.
  - now destruct b0.
  - apply Z.eqb_refl.
  - apply String.eqb_refl.
  - apply String.eqb_refl.
  - inversion Hw as [| | | | |? Hxs|]; subst. clear Hw.
    induction xs as [|x xs IHxs]; [reflexivity|].
    inversion IH; subst. inversion Hxs; subst.
    apply andb_true_intro. split; [now auto | now apply IHxs].
  - inversion Hw as [| | | | | |? Hnd Hws]; subst.
    rewrite Nat.eqb_refl. simpl. apply forallb_forall. intros [k v] Hin.
    simpl. rewrite (lookup_of_In _ _ _ Hnd Hin).
    rewrite Forall_forall in IH, Hws. exact (IH _ Hin (Hws _ Hin)).
Qed.

Lemma reordered_dict_same (d1 d2 : dict) :
  wf (VDict d1) -> Permutation d1 d2 ->
  same_up_to_key_order (VDict d1) (VDict d2) = true.
Proof.
  intros Hw Hp. inversion Hw as [| | | | | |? Hnd Hws]; subst. simpl.
  rewrite (Permutation_length Hp), Nat.eqb_refl. simpl.
  apply forallb_forall. intros [k v] Hin. simpl.
  assert (Hnd2 : NoDup (map fst d2)).
  { eapply Permutation_NoDup; [|exact Hnd]. now apply Permutation_map. }
  rewrite (lookup_of_In _ _ _ Hnd2 (Permutation_in _ Hp Hin)).
  rewrite Forall_forall in Hws. exact (same_up_to_key_order_refl _ (Hws _ Hin)).
Qed.

End JsonFacts.

Module DiffEngineFacts.
Import PyStr Py Json JsonFacts DiffEngine.

Lemma lines_eqb_refl (a : list string) : lines_eqb a a = true.
Proof.
  induction a as [|x a IH]; [reflexivity|]. simpl. now rewrite String.eqb_refl.
Qed.

Lemma whole_file_diff_same (a : list string) (fromfile tofile : string) :
  whole_file_diff a a fromfile tofile = [].
Proof. unfold whole_file_diff. now rewrite lines_eqb_refl. Qed.

(** C6. When the two inputs decode to documents that are equal up to the
    order of the keys of their objects, at any depth, [generate_json_diff]
    returns the no-differences message: both documents are written out
    with sorted keys, so the line differ sees the same lines twice.  The
    line differ is any function that reports nothing for equal inputs. *)
Theorem diff_stable_under_key_reordering
    (json_loads : string -> option value) (json_error : string -> string)
    (unified_diff : list string -> list string -> string -> string -> list string)
    (json_str1 json_str2 fromfile tofile : string) (data1 data2 : value) :
  (forall a ff tf, unified_diff a a ff tf = []) ->
  json_loads json_str1 = Some data1 ->
  json_loads json_str2 = Some data2 ->
  wf data1 -> wf data2 ->
  same_up_to_key_order data1 data2 = true ->
  dumps_sorted data1 = dumps_sorted data2 /\
  generate_json_diff json_loads json_error unified_diff json_str1 json_str2
    fromfile tofile = no_differences.
Proof.
  intros Hdiff H1 H2 Hw1 Hw2 Hsame.
  assert (Henc : dumps_sorted data1 = dumps_sorted data2)
    by (apply encode_sorted_key_order; assumption).
  split; [exact Henc|].
  unfold generate_json_diff. rewrite H1, H2, Henc, Hdiff. reflexivity.
Qed.

Lemma sample_docs_wf : wf Sample.doc_ab /\ wf Sample.doc_ba.
Proof.
  split; constructor; repeat constructor; simpl; intuition discriminate.
Qed.

Lemma diff_stable_under_key_reordering_witness :
  dumps_sorted Sample.doc_ab = dumps_sorted Sample.doc_ba /\
  generate_json_diff Sample.loads Sample.error_text whole_file_diff
    Sample.text_ab Sample.text_ba "previous_run" "latest_run" = no_differences.
Proof.
  apply (diff_stable_under_key_reordering Sample.loads Sample.error_text
           whole_file_diff Sample.text_ab Sample.text_ba "previous_run"
           "latest_run" Sample.doc_ab Sample.doc_ba).
  - exact whole_file_diff_same.
  - reflexivity.
  - reflexivity.
  - exact (proj1 sample_docs_wf).
  - exact (proj2 sample_docs_wf).
  - reflexivity.
Defined.

(** Without the sorting the two texts would differ. *)
Example unsorted_texts_differ :
  dumps Sample.doc_ab <> dumps Sample.doc_ba.
Proof. vm_compute. discriminate. Qed.

End DiffEngineFacts.

Module SummarizerFacts.
Import PyStr Py Json RetryPolicy Summarizer.

(** Every falsy value short-circuits. *)
Lemma falsy_values (data : value) :
  truthy data = false <->
  data = VNone \/ data = VBool false \/ data = VInt 0 \/ data = VFloat "0.0"
  \/ data = VFloat "-0.0" \/ data = VStr "" \/ data = VList []
  \/ data = VDict [].
Proof.
  split.
  - destruct data as [|[|]|n|r|s|[|x l]|[|kv d]]; simpl; try discriminate; auto 10.
    + intro H. apply negb_false_iff, Z.eqb_eq in H. subst. auto 10.
    + intro H. apply negb_false_iff, orb_true_iff in H.
      destruct H as [H|H]; apply String.eqb_eq in H; subst; auto 10.
    + destruct s; [auto 10 | discriminate].
  - intros [->|[->|[->|[->|[->|[->|[->| ->]]]]]]]; reflexivity.
Qed.

(** C9. For every prompt, label and progress sink, and whatever the
    service would answer, the summarizer called with empty or falsy data
    returns the fixed no-data message and leaves the world as it was: no
    call to the generative-AI service is logged. *)
Theorem empty_data_short_circuit
    (count_tokens_reply : list ai_call -> value -> outcome Z)
    (generate_reply : list ai_call -> string -> Z -> outcome response)
    (json_loads : string -> option value) (uniform : nat -> Q)
    (utcnow_iso : string) (config : gemini_config)
    (celery_task : bool) (prompt : string) (data : value) (audit_name : string)
    (w : World) :
  truthy data = false ->
  generate_gemini_summary count_tokens_reply generate_reply json_loads uniform
    utcnow_iso config celery_task prompt data audit_name w
  = Some (VStr no_data_message, w) /\
  forall v w',
    generate_gemini_summary count_tokens_reply generate_reply json_loads uniform
      utcnow_iso config celery_task prompt data audit_name w = Some (v, w') ->
    ai_log w' = ai_log w.
Proof.
  intro Hfalsy.
  assert (H : generate_gemini_summary count_tokens_reply generate_reply json_loads
                uniform utcnow_iso config celery_task prompt data audit_name w
              = Some (VStr no_data_message, w)).
  { unfold generate_gemini_summary. now rewrite Hfalsy. }
  split; [exact H|]. intros v w' H'. rewrite H in H'. now injection H' as _ <-.
Qed.

Lemma empty_data_short_circuit_witness :
  generate_gemini_summary Sample.four_tokens Sample.one_line_answer
    Sample.no_json Sample.no_jitter "2024-01-01T00:00:00" Sample.config true
    "Summarise." (VStr "") "rules" Sample.world0
  = Some (VStr no_data_message, Sample.world0) /\
  forall v w',
    generate_gemini_summary Sample.four_tokens Sample.one_line_answer
      Sample.no_json Sample.no_jitter "2024-01-01T00:00:00" Sample.config true
      "Summarise." (VStr "") "rules" Sample.world0 = Some (v, w') ->
    ai_log w' = ai_log Sample.world0.
Proof.
  apply (empty_data_short_circuit Sample.four_tokens Sample.one_line_answer
           Sample.no_json Sample.no_jitter "2024-01-01T00:00:00" Sample.config
           true "Summarise." (VStr "") "rules" Sample.world0).
  reflexivity.
Defined.

(** The same call with data, evaluated: three token counts and one
    generation request reach the service. *)
Example summary_of_a_line :
  option_map (fun r => (fst r, List.length (ai_log (snd r))))
    (generate_gemini_summary Sample.four_tokens Sample.one_line_answer
       Sample.no_json Sample.no_jitter "2024-01-01T00:00:00" Sample.config true
       "Summarise." (VStr "a,b") "rules" Sample.world0)
  = Some (VStr "fine", 4%nat).
Proof. vm_compute. reflexivity. Qed.

End SummarizerFacts.

Module ScheduleTickerFacts.
Import Py ScheduleTicker.

Lemma dispatches_app (job : Z) (q1 q2 : list Z) :
  dispatches job (q1 ++ q2) = (dispatches job q1 + dispatches job q2)%nat.
Proof. unfold dispatches. now rewrite filter_app, length_app. Qed.

(** [croniter] looks back: the occurrence it returns lies before [now]. *)
Lemma every_minute_prev_before (now : Z) : every_minute_prev now < now.
Proof.
  unfold every_minute_prev, second.
  set (secs := (now + 1000000 - 1) / 1000000).
  assert (Hsecs : 1000000 * secs <= now + 999999 < 1000000 * secs + 1000000).
  { pose proof (Z.div_mod (now + 1000000 - 1) 1000000 ltac:(lia)) as Hdm.
    pose proof (Z.mod_pos_bound (now + 1000000 - 1) 1000000 ltac:(lia)) as Hb.
    fold secs in Hdm. lia. }
  assert (Hoff : 1 <= (if secs mod 60 >? 0 then 1 else 60))
    by (destruct (secs mod 60 >? 0); lia).
  set (offset := if secs mod 60 >? 0 then 1 else 60) in *.
  pose proof (Z.mod_pos_bound (secs - offset) 60 ltac:(lia)) as Hm.
  nia.
Qed.

Lemma minutely_croniter_before (cron : string) (now p : Z) :
  minutely_croniter cron now = Some p -> p <= now.
Proof.
  unfold minutely_croniter. destruct (String.eqb cron every_minute); [|discriminate].
  intro H. injection H as <-. pose proof (every_minute_prev_before now). lia.
Qed.

Section Facts.

Variable get_prev : string -> Z -> option Z.
Hypothesis get_prev_before :
  forall cron now p, get_prev cron now = Some p -> p <= now.

#[local] Abbreviation tick := (tick_rows get_prev).

(** What a tick appends to the queue does not depend on the queue. *)
Lemma tick_rows_queue (now : Z) (rows : list schedule) (q : list Z) :
  tick now rows q =
  let '(rows', emitted, e) := tick now rows [] in (rows', (q ++ emitted)%list, e).
Proof.
  revert q. induction rows as [|s rows IH]; intro q; simpl.
  - now rewrite app_nil_r.
  - destruct (is_enabled s =? 1).
    + destruct (get_prev (cron_schedule s) now) as [p|]; [|now rewrite app_nil_r].
      destruct (should_run s now p).
      * rewrite (IH (q ++ [id s])%list), (IH [id s]).
        destruct (tick now rows []) as [[rows' em] e]. now rewrite <- app_assoc.
      * rewrite (IH q). now destruct (tick now rows []) as [[rows' em] e].
    + rewrite (IH q). now destruct (tick now rows []) as [[rows' em] e].
Qed.

Lemma dispatches_cons (job x : Z) (q : list Z) :
  dispatches job (x :: q)
    = ((if (job =? x)%Z then 1 else 0) + dispatches job q)%nat.
Proof. unfold dispatches. simpl. now destruct (job =? x). Qed.

Lemma dispatches_nil (job : Z) : dispatches job [] = 0%nat.
Proof. reflexivity. Qed.

Lemma count_id_cons (job : Z) (s : schedule) (rows : list schedule) :
  count_id job (s :: rows)
    = ((if (job =? id s)%Z then 1 else 0) + count_id job rows)%nat.
Proof. unfold count_id. simpl. now destruct (job =? id s). Qed.

#[local] Abbreviation emitted := (ScheduleTicker.emitted get_prev).
#[local] Abbreviation rows_after := (ScheduleTicker.rows_after get_prev).

Lemma emitted_cons (now : Z) (s : schedule) (rows : list schedule) :
  emitted now (s :: rows) =
  if is_enabled s =? 1 then
    match get_prev (cron_schedule s) now with
    | None => []
    | Some p => if should_run s now p then id s :: emitted now rows
                else emitted now rows
    end
  else emitted now rows.
Proof.
  unfold emitted. simpl.
  destruct (is_enabled s =? 1).
  - destruct (get_prev (cron_schedule s) now) as [p|]; [|reflexivity].
    destruct (should_run s now p).
    + rewrite (tick_rows_queue now rows [id s]).
      now destruct (tick now rows []) as [[rows' em] e].
    + now destruct (tick now rows []) as [[rows' em] e].
  - now destruct (tick now rows []) as [[rows' em] e].
Qed.

Lemma rows_after_cons (now : Z) (s : schedule) (rows : list schedule) :
  rows_after now (s :: rows) =
  if is_enabled s =? 1 then
    match get_prev (cron_schedule s) now with
    | None => s :: rows
    | Some p => (if should_run s now p then set_last_run_at s now else s)
                  :: rows_after now rows
    end
  else s :: rows_after now rows.
Proof.
  unfold rows_after. simpl.
  destruct (is_enabled s =? 1).
  - destruct (get_prev (cron_schedule s) now) as [p|]; [|reflexivity].
    destruct (should_run s now p).
    + rewrite (tick_rows_queue now rows [id s]).
      now destruct (tick now rows []) as [[rows' em] e].
    + now destruct (tick now rows []) as [[rows' em] e].
  - now destruct (tick now rows []) as [[rows' em] e].
Qed.

Lemma count_id_unique (job : Z) (rows : list schedule) :
  NoDup (map id rows) -> (count_id job rows <= 1)%nat.
Proof.
  unfold count_id. induction rows as [|s rows IH]; intro Hnd; simpl; [lia|].
  inversion Hnd as [|? ? Hnotin Hnd']; subst.
  destruct (job =? id s) eqn:Hj; [|now apply IH].
  apply Z.eqb_eq in Hj. subst job. simpl.
  assert (Hnone : filter (fun s0 => id s =? id s0) rows = []).
  { clear - Hnotin. induction rows as [|s0 rows IH]; [reflexivity|]. simpl.
    destruct (id s =? id s0) eqn:E.
    - apply Z.eqb_eq in E. exfalso. apply Hnotin. left. now symmetry.
    - apply IH. intro H. apply Hnotin. now right. }
  rewrite Hnone. simpl. lia.
Qed.

Lemma pending_cons (job p : Z) (s : schedule) (rows : list schedule) :
  pending job p (s :: rows)
  = ((if ((job =? id s)%Z &&
          negb match last_run_at s with
               | Some w => (p <=? w)%Z
               | None => false
               end)%bool
      then 1 else 0) + pending job p rows)%nat.
Proof.
  unfold pending. simpl.
  now destruct ((job =? id s) && negb match last_run_at s with
                                      | Some w => p <=? w
                                      | None => false
                                      end)%bool.
Qed.

Lemma pending_le_count (job p : Z) (rows : list schedule) :
  (pending job p rows <= count_id job rows)%nat.
Proof.
  induction rows as [|s rows IH]; [unfold pending, count_id; simpl; lia|].
  rewrite pending_cons, count_id_cons.
  destruct (job =? id s); simpl; [|lia].
  destruct (negb _); lia.
Qed.

(** A tick at which the latest occurrence of the job is [p] pays for each
    dispatch of the job with one of its pending rows. *)
Lemma tick_pays_pending (now job p : Z) (rows : list schedule) :
  (forall s, In s rows -> id s = job ->
     get_prev (cron_schedule s) now = Some p) ->
  (dispatches job (emitted now rows) + pending job p (rows_after now rows)
   <= pending job p rows)%nat.
Proof.
  induction rows as [|s rows IH]; intro Hocc.
  - unfold emitted, rows_after, dispatches, pending. simpl. lia.
  - assert (Hrest : forall s0, In s0 rows -> id s0 = job ->
              get_prev (cron_schedule s0) now = Some p)
      by (intros; apply Hocc; [now right | assumption]).
    specialize (IH Hrest).
    rewrite emitted_cons, rows_after_cons.
    destruct (is_enabled s =? 1).
    + destruct (get_prev (cron_schedule s) now) as [p'|] eqn:Hp;
        [|rewrite dispatches_nil; lia].
      destruct (should_run s now p') eqn:Hdue.
      * rewrite dispatches_cons, !pending_cons. cbn [id last_run_at set_last_run_at].
        destruct (job =? id s) eqn:Hj; cbn [andb]; [|lia].
        apply Z.eqb_eq in Hj.
        assert (p' = p) by (rewrite (Hocc s) in Hp; [congruence | now left | now symmetry]).
        subst p'.
        replace (p <=? now) with true
          by (symmetry; apply Z.leb_le; now apply get_prev_before in Hp).
        unfold should_run in Hdue.
        destruct (last_run_at s) as [w|].
        -- replace (p <=? w) with false
             by (symmetry; apply Z.leb_gt; rewrite Z.gtb_ltb in Hdue;
                 now apply Z.ltb_lt in Hdue).
           simpl. lia.
        -- simpl. lia.
      * rewrite !pending_cons. lia.
    + rewrite !pending_cons. lia.
Qed.

(** A tick keeps the identifier and the expression of every row. *)
Lemma rows_after_keeps (now : Z) (rows : list schedule) :
  map (fun s => (id s, cron_schedule s)) (rows_after now rows)
  = map (fun s => (id s, cron_schedule s)) rows.
Proof.
  induction rows as [|s rows IH]; [reflexivity|].
  rewrite rows_after_cons.
  destruct (is_enabled s =? 1).
  - destruct (get_prev (cron_schedule s) now) as [p|]; [|reflexivity].
    destruct (should_run s now p); simpl; now rewrite IH.
  - simpl. now rewrite IH.
Qed.

Lemma schedule_ticker_split (now : Z) (st : state) :
  fst (schedule_ticker get_prev now st)
  = mkState (rows_after now (schedules st))
            (queue st ++ emitted now (schedules st))%list.
Proof.
  unfold schedule_ticker, emitted, rows_after.
  rewrite (tick_rows_queue now (schedules st) (queue st)).
  now destruct (tick now (schedules st) []) as [[rows1 em1] e1].
Qed.

(** Any number of ticks of one ticker that all see the occurrence [p] of
    the job: what they dispatch is paid by the pending rows. *)
Lemma run_ticks_pay_pending (job p : Z) (cron : string) (instants : list Z)
    (st : state) :
  (forall s, In s (schedules st) -> id s = job -> cron_schedule s = cron) ->
  (forall now, In now instants -> get_prev cron now = Some p) ->
  (dispatches job (queue (run_ticks get_prev instants st))
   + pending job p (schedules (run_ticks get_prev instants st))
   <= dispatches job (queue st) + pending job p (schedules st))%nat.
Proof.
  revert st. induction instants as [|now later IH]; intros st Hcron Hocc; [simpl; lia|].
  cbn [run_ticks]. rewrite schedule_ticker_split.
  set (st1 := mkState (rows_after now (schedules st))
                (queue st ++ emitted now (schedules st))%list).
  assert (Hcron1 : forall s, In s (schedules st1) -> id s = job ->
                     cron_schedule s = cron).
  { intros s Hin Hid. subst st1. cbn [schedules] in Hin.
    apply (in_map (fun s => (id s, cron_schedule s))) in Hin.
    rewrite rows_after_keeps in Hin. apply in_map_iff in Hin.
    destruct Hin as (s0 & Heq & Hin0). injection Heq as Hid0 Hc0.
    rewrite <- Hc0. apply Hcron; [assumption | congruence]. }
  specialize (IH st1 Hcron1 (fun t Ht => Hocc t (or_intror Ht))).
  pose proof (tick_pays_pending now job p (schedules st)) as Hpay.
  assert (Hnow : forall s, In s (schedules st) -> id s = job ->
                   get_prev (cron_schedule s) now = Some p).
  { intros s Hin Hid. rewrite (Hcron s Hin Hid). apply Hocc. now left. }
  specialize (Hpay Hnow).
  subst st1. cbn [schedules queue] in IH. rewrite dispatches_app in IH. lia.
Qed.

(** [croniter] on [* * * * *] returns the latest minute boundary before
    [now]. *)
Lemma every_minute_prev_latest (now : Z) :
  exists k, every_minute_prev now = k * (60 * second) /\
            every_minute_prev now < now <= every_minute_prev now + 60 * second.
Proof.
  unfold every_minute_prev, second.
  set (secs := (now + 1000000 - 1) / 1000000).
  assert (Hsecs : 1000000 * secs <= now + 999999 < 1000000 * secs + 1000000).
  { pose proof (Z.div_mod (now + 1000000 - 1) 1000000 ltac:(lia)) as Hdm.
    pose proof (Z.mod_pos_bound (now + 1000000 - 1) 1000000 ltac:(lia)) as Hb.
    fold secs in Hdm. lia. }
  pose proof (Z.div_mod secs 60 ltac:(lia)) as Hs60.
  pose proof (Z.mod_pos_bound secs 60 ltac:(lia)) as Hb60.
  destruct (secs mod 60 >? 0) eqn:Hpos.
  - apply Z.gtb_lt in Hpos.
    assert (Hm : (secs - 1) mod 60 = secs mod 60 - 1).
    { symmetry. apply (Z.mod_unique (secs - 1) 60 (secs / 60)); lia. }
    rewrite Hm. exists (secs / 60). lia.
  - assert (Hz : secs mod 60 = 0) by (rewrite Z.gtb_ltb in Hpos; apply Z.ltb_ge in Hpos; lia).
    assert (Hm : (secs - 60) mod 60 = 0).
    { symmetry. apply (Z.mod_unique (secs - 60) 60 (secs / 60 - 1)); lia. }
    rewrite Hm. exists (secs / 60 - 1). lia.
Qed.

(** A tick on a table that holds one enabled job. *)
Lemma tick_one_job (s : schedule) (now p : Z) (q : list Z) :
  is_enabled s = 1 -> get_prev (cron_schedule s) now = Some p ->
  schedule_ticker get_prev now (mkState [s] q) =
  if should_run s now p
  then (mkState [set_last_run_at s now] (q ++ [id s])%list, None)
  else (mkState [s] q, None).
Proof.
  intros Hen Hp. unfold schedule_ticker. simpl. rewrite Hen, Hp. simpl.
  now destruct (should_run s now p).
Qed.

End Facts.

(** C1, as it is stated, fails when no minute boundary lies between the
    watermark and the tick: at 22:13:45 on 14 November 2023, with the
    watermark 30 seconds earlier at 22:13:15, the latest occurrence is
    22:13:00, which is not after the watermark.  The first tick does not
    dispatch the job, and the tick one second later does not either. *)
Lemma tick_after_half_past_dispatches_nothing :
  let now := 1700000025 * second in
  let st := mkState [minutely_job 7 "nightly" (now - 30 * second)] [] in
  every_minute_prev now = 1699999980 * second /\
  schedule_ticker minutely_croniter now st = (st, None) /\
  dispatches 7 (queue (run_ticks minutely_croniter [now; now + second] st)) = 0%nat.
Proof. vm_compute. repeat split; reflexivity. Qed.

(** C1, amended.  For every [croniter] whose previous occurrence lies at
    or before [now]: a tick on an enabled job with watermark [w] dispatches
    it exactly when the latest occurrence is after [w], once, and then
    sets the watermark to [now]; successive ticks of one ticker, however
    many, that see the same latest occurrence of a job dispatch it at
    most once in all, in any table with distinct identifiers.  For the
    expression [* * * * *] and the watermark 30 seconds before [now],
    provided the latest minute boundary is after the watermark, the first
    tick dispatches the job once and a second tick one second later,
    before the next boundary, dispatches nothing. *)
Theorem at_most_once_per_occurrence (get_prev : string -> Z -> option Z) :
  (forall cron now p, get_prev cron now = Some p -> p <= now) ->
  (forall s now p q w,
     is_enabled s = 1 -> get_prev (cron_schedule s) now = Some p ->
     last_run_at s = Some w ->
     (should_run s now p = true <-> w < p) /\
     schedule_ticker get_prev now (mkState [s] q) =
       if should_run s now p
       then (mkState [set_last_run_at s now] (q ++ [id s])%list, None)
       else (mkState [s] q, None)) /\
  (forall st s instants p,
     In s (schedules st) -> NoDup (map id (schedules st)) ->
     (forall now, In now instants -> get_prev (cron_schedule s) now = Some p) ->
     (dispatches (id s) (queue (run_ticks get_prev instants st))
      <= dispatches (id s) (queue st) + 1)%nat) /\
  (forall now job name q,
     now - 30 * second < every_minute_prev now ->
     every_minute_prev (now + second) = every_minute_prev now ->
     let s := minutely_job job name (now - 30 * second) in
     let st1 := fst (schedule_ticker minutely_croniter now (mkState [s] q)) in
     let st2 := fst (schedule_ticker minutely_croniter (now + second) st1) in
     st1 = mkState [set_last_run_at s now] (q ++ [job])%list /\
     st2 = st1).
Proof.
  intro Hbefore. split; [|split].
  - intros s now p q w Hen Hp Hw. split.
    + unfold should_run. rewrite Hw. rewrite Z.gtb_ltb. apply Z.ltb_lt.
    + now apply tick_one_job.
  - intros st s instants p Hin Hnd Hocc.
    assert (Hcron : forall s0, In s0 (schedules st) -> id s0 = id s ->
              cron_schedule s0 = cron_schedule s).
    { intros s0 Hin0 Hid. enough (s0 = s) by now subst.
      clear - Hin Hin0 Hid Hnd. induction (schedules st) as [|x l IH]; [contradiction|].
      simpl in Hnd. inversion Hnd as [|? ? Hnotin Hnd']; subst.
      destruct Hin as [->|Hin], Hin0 as [->|Hin0]; auto.
      - exfalso. apply Hnotin. rewrite <- Hid. now apply in_map.
      - exfalso. apply Hnotin. rewrite Hid. now apply in_map. }
    pose proof (run_ticks_pay_pending get_prev Hbefore (id s) p (cron_schedule s)
                  instants st Hcron Hocc) as Hpay.
    pose proof (pending_le_count (id s) p (schedules st)) as Hle.
    pose proof (count_id_unique (id s) (schedules st) Hnd) as Hc.
    lia.
  - intros now job name q Hdue Hsame s st1 st2.
    assert (Hrun1 : should_run s now (every_minute_prev now) = true).
    { unfold should_run, s, minutely_job. cbn [last_run_at].
      rewrite Z.gtb_ltb. apply Z.ltb_lt. exact Hdue. }
    assert (Hrun2 : should_run (set_last_run_at s now) (now + second)
                      (every_minute_prev now) = false).
    { unfold should_run, set_last_run_at. cbn [last_run_at].
      rewrite Z.gtb_ltb. apply Z.ltb_ge.
      pose proof (every_minute_prev_before now). lia. }
    assert (H1 : schedule_ticker minutely_croniter now (mkState [s] q)
                 = (mkState [set_last_run_at s now] (q ++ [job])%list, None)).
    { rewrite (tick_one_job minutely_croniter s now (every_minute_prev now) q
                 eq_refl eq_refl), Hrun1. reflexivity. }
    subst st1 st2. rewrite H1. cbn [fst]. split; [reflexivity|].
    assert (Hp2 : minutely_croniter (cron_schedule (set_last_run_at s now))
                    (now + second) = Some (every_minute_prev now)).
    { unfold minutely_croniter. cbn. now rewrite Hsame. }
    rewrite (tick_one_job minutely_croniter (set_last_run_at s now) (now + second)
               (every_minute_prev now) _ eq_refl Hp2), Hrun2.
    reflexivity.
Qed.

Lemma at_most_once_per_occurrence_witness :
  (forall s now p q w,
     is_enabled s = 1 -> minutely_croniter (cron_schedule s) now = Some p ->
     last_run_at s = Some w ->
     (should_run s now p = true <-> w < p) /\
     schedule_ticker minutely_croniter now (mkState [s] q) =
       if should_run s now p
       then (mkState [set_last_run_at s now] (q ++ [id s])%list, None)
       else (mkState [s] q, None)) /\
  (forall st s instants p,
     In s (schedules st) -> NoDup (map id (schedules st)) ->
     (forall now, In now instants ->
        minutely_croniter (cron_schedule s) now = Some p) ->
     (dispatches (id s) (queue (run_ticks minutely_croniter instants st))
      <= dispatches (id s) (queue st) + 1)%nat) /\
  (forall now job name q,
     now - 30 * second < every_minute_prev now ->
     every_minute_prev (now + second) = every_minute_prev now ->
     let s := minutely_job job name (now - 30 * second) in
     let st1 := fst (schedule_ticker minutely_croniter now (mkState [s] q)) in
     let st2 := fst (schedule_ticker minutely_croniter (now + second) st1) in
     st1 = mkState [set_last_run_at s now] (q ++ [job])%list /\
     st2 = st1).
Proof.
  apply (at_most_once_per_occurrence minutely_croniter).
  exact minutely_croniter_before.
Defined.

(** The example on the clock: at 22:13:10 the watermark 22:12:40 is older
    than the occurrence 22:13:00, so the first tick dispatches the job;
    the tick at 22:13:11 leaves the queue as it is. *)
Example tick_after_the_minute :
  let now := 1700000000 * second - 10 * second in
  let st := mkState [minutely_job 7 "nightly" (now - 30 * second)] [] in
  queue (run_ticks minutely_croniter [now] st) = [7] /\
  queue (run_ticks minutely_croniter [now; now + second] st) = [7].
Proof. vm_compute. split; reflexivity. Qed.

End ScheduleTickerFacts.

Module ExclusionsFacts.
Import PyStr Py Json JsonFacts Exclusions.

Lemma remove_dict (ex : list string) (items : list (string * value)) :
  remove_excluded_fields ex (VDict items) = VDict (kept_entries ex items).
Proof.
  simpl. f_equal. unfold kept_entries.
  induction items as [|[k v] items IH]; [reflexivity|].
  simpl. destruct (excluded ex k); simpl; now rewrite IH.
Qed.

Lemma mentions_dict (key : string) (items : list (string * value)) :
  mentions key (VDict items)
  = existsb (fun kv => String.eqb (fst kv) key || mentions key (snd kv)) items.
Proof.
  simpl. induction items as [|[k v] items IH]; [reflexivity|].
  simpl. now rewrite IH.
Qed.

Lemma excluded_In (ex : list string) (key : string) :
  excluded ex key = true <-> In key ex.
Proof.
  unfold excluded. rewrite existsb_exists. split.
  - intros (x & Hin & Heq). apply String.eqb_eq in Heq. now subst.
  - intro H. exists key. split; [exact H | apply String.eqb_refl].
Qed.

(** X1. No excluded field is left, at any depth. *)
Theorem excluded_fields_are_gone (ex : list string) (key : string) (data : value) :
  In key ex -> mentions key (remove_excluded_fields ex data) = false.
Proof.
  intro Hin.
  induction data as [|b0|n0|r0|s0|xs IH|d IH] using value_rect'; try reflexivity.
  - simpl. induction xs as [|x xs IHxs]; [reflexivity|].
    inversion IH as [|? ? Hx Hxs]; subst. simpl. rewrite Hx. now apply IHxs.
  - rewrite remove_dict, mentions_dict. unfold kept_entries.
    induction d as [|[k v] d IHd]; [reflexivity|].
    inversion IH as [|? ? Hv Hd]; subst. simpl.
    destruct (excluded ex k) eqn:Hk; simpl; [now apply IHd|].
    simpl in Hv. rewrite Hv, (IHd Hd).
    destruct (String.eqb k key) eqn:E; [|reflexivity].
    apply String.eqb_eq in E. subst k.
    apply excluded_In in Hin. congruence.
Qed.

Lemma excluded_fields_are_gone_witness :
  mentions "etag"
    (remove_excluded_fields ["etag"; "updateTime"]
       (VDict [("rules", VList [VDict [("name", VStr "r1"); ("etag", VStr "x")]]);
               ("etag", VStr "y")])) = false.
Proof.
  apply (excluded_fields_are_gone ["etag"; "updateTime"] "etag"). simpl. auto.
Defined.

Lemma excluded_app (a b : list string) (key : string) :
  excluded (a ++ b) key = excluded a key || excluded b key.
Proof. unfold excluded. apply existsb_app. Qed.

(** X2. Filtering twice is filtering once by both lists: the order of the
    two passes does not matter and a second pass with the same list
    changes nothing. *)
Theorem exclusions_compose (a b : list string) (data : value) :
  remove_excluded_fields a (remove_excluded_fields b data)
    = remove_excluded_fields (a ++ b) data /\
  remove_excluded_fields a (remove_excluded_fields b data)
    = remove_excluded_fields b (remove_excluded_fields a data) /\
  remove_excluded_fields a (remove_excluded_fields a data)
    = remove_excluded_fields a data.
Proof.
  assert (Hcompose : forall a b v,
            remove_excluded_fields a (remove_excluded_fields b v)
            = remove_excluded_fields (a ++ b) v).
  { clear. intros a b v.
    induction v as [|b0|n0|r0|s0|xs IH|d IH] using value_rect'; try reflexivity.
    - simpl. f_equal. rewrite map_map.
      induction xs as [|x xs IHxs]; [reflexivity|].
      inversion IH; subst. simpl. f_equal; auto.
    - rewrite !remove_dict. f_equal. unfold kept_entries.
      induction d as [|[k v] d IHd]; [reflexivity|].
      inversion IH as [|? ? Hv Hd]; subst. simpl.
      rewrite excluded_app.
      destruct (excluded b k); simpl.
      + rewrite orb_true_r. simpl. now apply IHd.
      + rewrite orb_false_r. destruct (excluded a k); simpl; [now apply IHd|].
        simpl in Hv. rewrite Hv. f_equal. now apply IHd. }
  assert (Hsame : forall a b v,
            remove_excluded_fields (a ++ b) v = remove_excluded_fields (b ++ a) v).
  { clear. intros a b v.
    induction v as [|b0|n0|r0|s0|xs IH|d IH] using value_rect'; try reflexivity.
    - simpl. f_equal. induction xs as [|x xs IHxs]; [reflexivity|].
      inversion IH; subst. simpl. f_equal; auto.
    - rewrite !remove_dict. f_equal. unfold kept_entries.
      induction d as [|[k v] d IHd]; [reflexivity|].
      inversion IH as [|? ? Hv Hd]; subst. simpl.
      rewrite !excluded_app, (orb_comm (excluded a k)).
      destruct (excluded b k || excluded a k); simpl; [now apply IHd|].
      simpl in Hv. rewrite Hv. f_equal. now apply IHd. }
  assert (Hdup : forall a v,
            remove_excluded_fields (a ++ a) v = remove_excluded_fields a v).
  { clear. intros a v.
    induction v as [|b0|n0|r0|s0|xs IH|d IH] using value_rect'; try reflexivity.
    - simpl. f_equal. induction xs as [|x xs IHxs]; [reflexivity|].
      inversion IH; subst. simpl. f_equal; auto.
    - rewrite !remove_dict. f_equal. unfold kept_entries.
      induction d as [|[k v] d IHd]; [reflexivity|].
      inversion IH as [|? ? Hv Hd]; subst. simpl.
      rewrite excluded_app, orb_diag.
      destruct (excluded a k); simpl; [now apply IHd|].
      simpl in Hv. rewrite Hv. f_equal. now apply IHd. }
  split; [apply Hcompose|]. split.
  - now rewrite !Hcompose, Hsame.
  - now rewrite Hcompose, Hdup.
Qed.

(** X3. A value that mentions none of the fields comes back unchanged; in
    particular an empty list of fields changes nothing. *)
Theorem nothing_to_exclude (ex : list string) (data : value) :
  (forall key, In key ex -> mentions key data = false) ->
  remove_excluded_fields ex data = data.
Proof.
  induction data as [|b0|n0|r0|s0|xs IH|d IH] using value_rect'; intro Hno;
    try reflexivity.
  - simpl. f_equal.
    assert (Hxs : forall x, In x xs -> forall key, In key ex -> mentions key x = false).
    { intros x Hx key Hk. specialize (Hno key Hk). simpl in Hno.
      destruct (mentions key x) eqn:E; [|reflexivity].
      exfalso. assert (existsb (mentions key) xs = true)
        by (apply existsb_exists; eauto). congruence. }
    clear Hno. induction xs as [|x xs IHxs]; [reflexivity|].
    inversion IH; subst. simpl. f_equal.
    + apply H1. intros key Hk. apply (Hxs x); [now left | exact Hk].
    + apply IHxs; [assumption|]. intros y Hy. apply Hxs. now right.
  - rewrite remove_dict. f_equal. unfold kept_entries.
    assert (Hd : forall kv, In kv d -> forall key, In key ex ->
                   String.eqb (fst kv) key = false /\ mentions key (snd kv) = false).
    { intros kv Hkv key Hk. specialize (Hno key Hk). rewrite mentions_dict in Hno.
      destruct (String.eqb (fst kv) key || mentions key (snd kv)) eqn:E.
      - exfalso. assert (existsb (fun kv => String.eqb (fst kv) key
                                   || mentions key (snd kv)) d = true)
          by (apply existsb_exists; eauto). congruence.
      - now apply orb_false_iff in E. }
    clear Hno. induction d as [|[k v] d IHd]; [reflexivity|].
    inversion IH as [|? ? Hv Hrest]; subst. simpl.
    assert (Hk : excluded ex k = false).
    { destruct (excluded ex k) eqn:E; [|reflexivity].
      apply excluded_In in E. destruct (Hd (k, v) (or_introl eq_refl) k E) as [H _].
      simpl in H. rewrite String.eqb_refl in H. discriminate. }
    rewrite Hk. simpl. f_equal.
    + f_equal. apply Hv. intros key Hkey.
      now destruct (Hd (k, v) (or_introl eq_refl) key Hkey).
    + apply IHd; [assumption|]. intros kv Hkv. apply Hd. now right.
Qed.

Lemma nothing_to_exclude_witness :
  remove_excluded_fields [] (VDict [("rules", VList [VInt 1])])
  = VDict [("rules", VList [VInt 1])].
Proof.
  apply (nothing_to_exclude [] (VDict [("rules", VList [VInt 1])])).
  intros key H. destruct H.
Defined.

End ExclusionsFacts.

Module RetryBudgetFacts.
Import PyStr Py RetryPolicy RetryPolicyFacts RetryBudget.

Section Facts.

Context {W R : Type} {HR : PyResult R}.
Variable uniform : nat -> Q.
Variable retries : nat.
Variable backoff_in_seconds : Z.
Variable f : W -> option (outcome R * W).

#[local] Abbreviation loop := (wrapper_loop uniform retries backoff_in_seconds f).
#[local] Abbreviation pause := (sleep_time uniform backoff_in_seconds).

(** What the loop does from retry [x] on, for an operation that returns
    or raises whenever it is called: it ends, after [j + 1] calls with a
    sleep between two of them; a returned result carries no rate limit,
    and a failure raised while retries were left is not retryable. *)
Lemma loop_shape (k x : nat) (w : W) (log : list action) :
  (forall w, f w <> None) -> (x + k = retries)%nat ->
  exists res w' j,
    loop (S k) x w log = Some (res, w', log ++ backoff_log pause x j)%list /\
    (j <= k)%nat /\
    match res with
    | Returned result => rate_limited_payload result = false
    | Raised e => (j < k)%nat -> retryable e = false
    end.
Proof.
  intro Hf. revert x w log. induction k as [|k IH]; intros x w log Hx.
  - assert (Hx' : Nat.eqb x retries = true) by (apply Nat.eqb_eq; lia).
    destruct (f w) as [[[result|e] w1]|] eqn:Hfw; [| |now apply Hf in Hfw].
    + rewrite (loop_returned _ _ _ _ _ _ _ _ _ _ Hfw), Hx'.
      destruct (rate_limited_payload result) eqn:Hp.
      * eexists; exists w1, 0%nat. split; [reflexivity|]. split; [lia|]. cbv beta iota. lia.
      * exists (Returned result), w1, 0%nat. auto.
    + rewrite (loop_raised _ _ _ _ _ _ _ _ _ _ Hfw).
      assert (Hc : except_clause retries x e = Reraise).
      { destruct e; simpl; rewrite ?Hx'; try reflexivity.
        destruct (negb _); reflexivity. }
      rewrite Hc. exists (Raised e), w1, 0%nat.
      split; [reflexivity|]. split; [lia|]. lia.
  - assert (Hx' : Nat.eqb x retries = false) by (apply Nat.eqb_neq; lia).
    assert (Hnext : forall w1, exists res w' j,
              loop (S k) (S x) w1 ((log ++ [Invoke]) ++ [Sleep (pause x)])%list
              = Some (res, w', log ++ backoff_log pause x j)%list /\
              (j <= S k)%nat /\
              match res with
              | Returned result => rate_limited_payload result = false
              | Raised e => (j < S k)%nat -> retryable e = false
              end).
    { intro w1.
      destruct (IH (S x) w1 ((log ++ [Invoke]) ++ [Sleep (pause x)])%list ltac:(lia))
        as (res & w' & j & Hl & Hj & Hres).
      exists res, w', (S j). rewrite Hl. simpl backoff_log.
      rewrite <- !app_assoc. split; [reflexivity|]. split; [lia|].
      destruct res; [exact Hres | intro; apply Hres; lia]. }
    destruct (f w) as [[[result|e] w1]|] eqn:Hfw; [| |now apply Hf in Hfw].
    + rewrite (loop_returned _ _ _ _ _ _ _ _ _ _ Hfw), Hx'.
      destruct (rate_limited_payload result) eqn:Hp; [apply Hnext|].
      exists (Returned result), w1, 0%nat. split; [reflexivity|]. split; [lia | exact Hp].
    + rewrite (loop_raised _ _ _ _ _ _ _ _ _ _ Hfw).
      destruct (retryable e) eqn:He.
      * rewrite except_clause_retryable by exact He. rewrite Hx'. apply Hnext.
      * rewrite except_clause_terminal by exact He.
        exists (Raised e), w1, 0%nat. split; [reflexivity|]. split; [lia | auto].
Qed.

(** What every call of the operation preserves, the wrapper preserves. *)
Lemma loop_invariant (I : W -> Prop) (fuel x : nat) (w w' : W)
    (log log' : list action) (res : outcome R) :
  (forall w0 res0 w1, I w0 -> f w0 = Some (res0, w1) -> I w1) ->
  I w -> loop fuel x w log = Some (res, w', log') -> I w'.
Proof.
  intro Hf. revert x w log. induction fuel as [|fuel IH]; intros x w log Hw;
    [discriminate|].
  simpl. destruct (f w) as [[res0 w1]|] eqn:Hfw; [|discriminate].
  pose proof (Hf _ _ _ Hw Hfw) as Hw1.
  destruct (match res0 with Returned result => inspect result | Raised e => Raised e end)
    as [result|e].
  - intro H. now injection H as _ <- _.
  - destruct (except_clause retries x e).
    + apply IH. exact Hw1.
    + intro H. now injection H as _ <- _.
Qed.

(** The sleeps of [j] retries from retry [x] on, with a jitter between
    0 and 1 second. *)
Lemma backoff_log_sleep (x j : nat) :
  (0 <= backoff_in_seconds)%Z ->
  (forall i, 0 <= uniform i <= 1)%Q ->
  (0 <= total_sleep (backoff_log pause x j) <=
   inject_Z (backoff_in_seconds * (2 ^ Z.of_nat (x + j) - 2 ^ Z.of_nat x))
   + inject_Z (Z.of_nat j))%Q.
Proof.
  intros Hb Hu. revert x. induction j as [|j IH]; intro x.
  - cbn [backoff_log total_sleep]. rewrite Nat.add_0_r, Z.sub_diag, Z.mul_0_r.
    change (inject_Z (Z.of_nat 0)) with 0%Q. change (inject_Z 0) with 0%Q. split; lra.
  - cbn [backoff_log total_sleep]. specialize (IH (S x)).
    set (t := total_sleep (backoff_log pause (S x) j)) in *.
    unfold sleep_time. pose proof (Hu x) as Hux.
    assert (Hpow : (2 ^ Z.of_nat (S x) = 2 * 2 ^ Z.of_nat x)%Z)
      by (rewrite Nat2Z.inj_succ, Z.pow_succ_r; lia).
    assert (Hpos : (0 <= backoff_in_seconds * 2 ^ Z.of_nat x)%Z)
      by (apply Z.mul_nonneg_nonneg; [lia | apply Z.pow_nonneg; lia]).
    assert (Hq : (0 <= inject_Z (backoff_in_seconds * 2 ^ Z.of_nat x))%Q)
      by (change 0%Q with (inject_Z 0); rewrite <- Zle_Qle; exact Hpos).
    replace (S x + j)%nat with (x + S j)%nat in IH by lia.
    assert (Hsplit :
      (backoff_in_seconds * (2 ^ Z.of_nat (x + S j) - 2 ^ Z.of_nat x)
       = backoff_in_seconds * 2 ^ Z.of_nat x
         + backoff_in_seconds * (2 ^ Z.of_nat (x + S j) - 2 ^ Z.of_nat (S x)))%Z)
      by (rewrite Hpow; ring).
    assert (Hj : (inject_Z (Z.of_nat (S j)) == 1 + inject_Z (Z.of_nat j))%Q).
    { rewrite Nat2Z.inj_succ. unfold Z.succ. rewrite inject_Z_plus.
      change (inject_Z 1) with 1%Q. ring. }
    rewrite Hsplit, inject_Z_plus, Hj.
    destruct IH as [IH0 IH1]. split; lra.
Qed.

End Facts.

(** X4. Whatever the wrapped operation does, as long as each call of it
    returns or raises: the wrapper ends after at most [retries + 1]
    calls, it sleeps exactly once between two calls and not after the
    last, and its actions are a call followed by sleep and call in
    turn. *)
Theorem retry_budget {W R : Type} {HR : PyResult R} (uniform : nat -> Q)
    (retries : nat) (backoff_in_seconds : Z)
    (f : W -> option (outcome R * W)) (w : W) :
  (forall w, f w <> None) ->
  exists res w' log j,
    retry_with_backoff_log uniform retries backoff_in_seconds f w
      = Some (res, w', log) /\
    log = backoff_log (sleep_time uniform backoff_in_seconds) 0 j /\
    (1 <= invocations log <= retries + 1)%nat /\
    S (sleeps log) = invocations log.
Proof.
  intro Hf.
  destruct (loop_shape uniform retries backoff_in_seconds f retries 0 w [] Hf eq_refl)
    as (res & w' & j & Hl & Hj & _).
  exists res, w', (backoff_log (sleep_time uniform backoff_in_seconds) 0 j), j.
  split; [exact Hl|]. split; [reflexivity|].
  destruct (backoff_log_counts uniform backoff_in_seconds 0 j) as [Hi Hs].
  rewrite Hi, Hs. lia.
Qed.

Lemma retry_budget_witness :
  exists res w' log j,
    retry_with_backoff_log Sample.no_jitter 3 2 Sample.always_forbidden 0%nat
      = Some (res, w', log) /\
    log = backoff_log (sleep_time Sample.no_jitter 2) 0 j /\
    (1 <= invocations log <= 3 + 1)%nat /\
    S (sleeps log) = invocations log.
Proof.
  apply (retry_budget Sample.no_jitter 3 2 Sample.always_forbidden 0%nat).
  intros w H. discriminate H.
Defined.

(** X5. The wrapper hands back only what is final: a result it returns
    carries no rate limit in its [error] entry, and a failure it raises
    after fewer than [retries + 1] calls is not one of the transient
    failures. *)
Theorem early_exit_is_final {W R : Type} {HR : PyResult R} (uniform : nat -> Q)
    (retries : nat) (backoff_in_seconds : Z)
    (f : W -> option (outcome R * W)) (w : W) :
  (forall w, f w <> None) ->
  exists res w' log,
    retry_with_backoff_log uniform retries backoff_in_seconds f w
      = Some (res, w', log) /\
    match res with
    | Returned result => rate_limited_payload result = false
    | Raised e => (invocations log <= retries)%nat -> retryable e = false
    end.
Proof.
  intro Hf.
  destruct (loop_shape uniform retries backoff_in_seconds f retries 0 w [] Hf eq_refl)
    as (res & w' & j & Hl & Hj & Hres).
  exists res, w', (backoff_log (sleep_time uniform backoff_in_seconds) 0 j).
  split; [exact Hl|].
  destruct res as [result|e]; [exact Hres|].
  destruct (backoff_log_counts uniform backoff_in_seconds 0 j) as [Hi _].
  rewrite Hi. intro Hle. apply Hres. lia.
Qed.

Lemma early_exit_is_final_witness :
  exists res w' log,
    retry_with_backoff_log Sample.no_jitter 3 2
      (Sample.always_payload Sample.payload_500) 0%nat = Some (res, w', log) /\
    match res with
    | Returned result => rate_limited_payload result = false
    | Raised e => (invocations log <= 3)%nat -> retryable e = false
    end.
Proof.
  apply (early_exit_is_final Sample.no_jitter 3 2
           (Sample.always_payload Sample.payload_500) 0%nat).
  intros w H. discriminate H.
Defined.

(** X6. With a jitter between 0 and 1 second and a base delay that is
    not negative, the wrapper sleeps at most
    [backoff_in_seconds * (2 ^ retries - 1) + retries] seconds in all:
    17 seconds for the API requests (three retries on a base of two
    seconds). *)
Theorem total_sleep_bound {W R : Type} {HR : PyResult R} (uniform : nat -> Q)
    (retries : nat) (backoff_in_seconds : Z)
    (f : W -> option (outcome R * W)) (w : W) :
  (forall w, f w <> None) ->
  (0 <= backoff_in_seconds)%Z ->
  (forall i, 0 <= uniform i <= 1)%Q ->
  exists res w' log,
    retry_with_backoff_log uniform retries backoff_in_seconds f w
      = Some (res, w', log) /\
    (0 <= total_sleep log <=
     inject_Z (backoff_in_seconds * (2 ^ Z.of_nat retries - 1) + Z.of_nat retries))%Q.
Proof.
  intros Hf Hb Hu.
  destruct (loop_shape uniform retries backoff_in_seconds f retries 0 w [] Hf eq_refl)
    as (res & w' & j & Hl & Hj & _).
  exists res, w', (backoff_log (sleep_time uniform backoff_in_seconds) 0 j).
  split; [exact Hl|].
  destruct (backoff_log_sleep uniform backoff_in_seconds 0 j Hb Hu) as [H0 H1].
  split; [exact H0|].
  eapply Qle_trans; [exact H1|].
  rewrite <- inject_Z_plus, <- Zle_Qle. simpl Z.of_nat at 2. simpl Nat.add.
  change (2 ^ 0)%Z with 1%Z.
  assert (Hmono : (2 ^ Z.of_nat j <= 2 ^ Z.of_nat retries)%Z)
    by (apply Z.pow_le_mono_r; lia).
  nia.
Qed.

Lemma total_sleep_bound_witness :
  exists res w' log,
    retry_with_backoff_log Sample.no_jitter 3 2 Sample.always_quota 0%nat
      = Some (res, w', log) /\
    (0 <= total_sleep log <= inject_Z (2 * (2 ^ Z.of_nat 3 - 1) + Z.of_nat 3))%Q.
Proof.
  apply (total_sleep_bound Sample.no_jitter 3 2 Sample.always_quota 0%nat).
  - intros w H. discriminate H.
  - lia.
  - intro i. unfold Sample.no_jitter. split; apply Qle_refl || discriminate.
Defined.

End RetryBudgetFacts.

Module FetchTraceFacts.
Import PyStr Py Json Sys RetryPolicy PaginatedFetcher FetchTrace.

Section LoopFacts.

Variable server : list request -> request -> outcome http_response.
Variable json_loads : string -> option value.
Variables (method json_data : value) (url : string) (headers : dict).
Variables (page_token_key results_key request_token_key page_size : value).
Variable max_pages : value.

#[local] Abbreviation round_of :=
  (one_round server json_loads method json_data url headers page_token_key
     results_key request_token_key page_size max_pages).
#[local] Abbreviation loop :=
  (pages_loop server json_loads method json_data url headers page_token_key
     results_key request_token_key page_size max_pages).
#[local] Abbreviation request_for :=
  (page_request method json_data url headers request_token_key page_size).

#[local] Abbreviation round_log :=
  (PaginatedFetcherFacts.one_round_log server json_loads method json_data url
     headers page_token_key results_key request_token_key page_size max_pages).
#[local] Abbreviation step_eq :=
  (PaginatedFetcherFacts.loop_step server json_loads method json_data url
     headers page_token_key results_key request_token_key page_size max_pages).

(** The loop leaves the database alone, and every request it issues is
    the page request for some token. *)
Lemma loop_trace (fuel : nat) (page_count : Z) (token : value)
    (all_results : list value) (w w' : World) (exit : round) :
  loop fuel page_count token all_results w = Some (exit, w') ->
  db w' = db w /\
  exists new, http_log w' = (http_log w ++ new)%list /\
              Forall (fun r => exists t, r = request_for t) new.
Proof.
  revert page_count token all_results w.
  induction fuel as [|fuel IH]; intros page_count token all_results w; [discriminate|].
  rewrite step_eq.
  destruct (round_of (page_count + 1) token all_results w) as [r w1] eqn:Hr.
  destruct (round_log _ _ _ _ _ _ Hr) as [Hdb Hw1].
  assert (Hone : exists new1, http_log w1 = (http_log w ++ new1)%list /\
                   Forall (fun r => exists t, r = request_for t) new1).
  { destruct Hw1 as [->|[_ ->]].
    - exists []. now rewrite app_nil_r.
    - exists [request_for token]. split; [reflexivity|].
      constructor; [now exists token | constructor]. }
  destruct Hone as (new1 & Hlog1 & Hall1).
  destruct r as [token' results'| | |]; intro H.
  - destruct (IH _ _ _ _ H) as (Hdb' & new & Hlog & Hall).
    split; [congruence|]. exists (new1 ++ new)%list.
    rewrite Hlog, Hlog1, app_assoc. split; [reflexivity | now apply Forall_app].
  - injection H as <- <-. split; [exact Hdb | now exists new1].
  - injection H as <- <-. split; [exact Hdb | now exists new1].
  - injection H as <- <-. split; [exact Hdb | now exists new1].
Qed.

(** Without a page-token key no round asks for another. *)
Lemma unpaginated_round (page_count : Z) (token : value)
    (all_results : list value) (w w' : World) (r : round) :
  configured page_token_key = None ->
  round_of page_count token all_results w = (r, w') ->
  is_continue r = false.
Proof.
  unfold one_round. intros Hk H. rewrite Hk in H. cbv zeta in H.
  repeat match type of H with
         | (if ?c then _ else _) = _ => destruct c
         | (match ?c with _ => _ end) = _ => destruct c
         | (let (_, _) := ?c in _) = _ => destruct c
         end;
    injection H as <- <-; reflexivity.
Qed.

Lemma unpaginated_loop (fuel : nat) (page_count : Z) (token : value)
    (all_results : list value) (w : World) :
  configured page_token_key = None ->
  exists exit w' new,
    loop (S fuel) page_count token all_results w = Some (exit, w') /\
    is_continue exit = false /\
    db w' = db w /\
    http_log w' = (http_log w ++ new)%list /\
    (List.length new <= 1)%nat.
Proof.
  intro Hk. rewrite step_eq.
  destruct (round_of (page_count + 1) token all_results w) as [r w1] eqn:Hr.
  pose proof (unpaginated_round _ _ _ _ _ _ Hk Hr) as Hc.
  destruct (round_log _ _ _ _ _ _ Hr) as [Hdb Hw1].
  assert (Hnew : exists new, http_log w1 = (http_log w ++ new)%list /\
                              (List.length new <= 1)%nat).
  { destruct Hw1 as [->|[_ ->]].
    - exists []. rewrite app_nil_r. simpl. auto.
    - exists [request_for token]. simpl. auto. }
  destruct Hnew as (new & Hlog & Hlen).
  exists r, w1, new. destruct r; try discriminate; auto.
Qed.

(** With a page-token key but no results key nothing is gathered. *)
Lemma unkeyed_round (page_count : Z) (token : value) (w w' : World) (r : round)
    (tk : string) :
  configured page_token_key = Some tk ->
  configured results_key = None ->
  round_of page_count token [] w = (r, w') ->
  nothing_gathered r.
Proof.
  unfold one_round. intros Hk Hr H. rewrite Hk, Hr in H. cbv zeta in H.
  repeat match type of H with
         | (if ?c then _ else _) = _ => destruct c
         | (match ?c with _ => _ end) = _ => destruct c
         | (let (_, _) := ?c in _) = _ => destruct c
         end;
    injection H as <- <-; simpl; eauto.
Qed.

Lemma unkeyed_loop (fuel : nat) (page_count : Z) (token : value)
    (w w' : World) (exit : round) (tk : string) :
  configured page_token_key = Some tk ->
  configured results_key = None ->
  loop fuel page_count token [] w = Some (exit, w') ->
  nothing_gathered exit.
Proof.
  intros Hk Hr. revert page_count token w.
  induction fuel as [|fuel IH]; intros page_count token w; [discriminate|].
  rewrite step_eq.
  destruct (round_of (page_count + 1) token [] w) as [r w1] eqn:Hround.
  pose proof (unkeyed_round _ _ _ _ _ _ Hk Hr Hround) as Hn.
  destruct r as [token' results'| | |]; intro H.
  - simpl in Hn. subst results'. exact (IH _ _ _ H).
  - injection H as <- <-. exact Hn.
  - injection H as <- <-. exact Hn.
  - injection H as <- <-. exact Hn.
Qed.

End LoopFacts.

(** [s.rstrip('/')] and [s.lstrip('/')] at the joint of the URL. *)
Lemma rstrip_slash_app_slash (s : string) :
  rstrip_slash (s ++ "/") = rstrip_slash s.
Proof.
  induction s as [|c s IH]; [reflexivity|].
  simpl. rewrite IH. reflexivity.
Qed.

Lemma lstrip_slash_cons_slash (s : string) :
  lstrip_slash (String "/" s) = lstrip_slash s.
Proof. reflexivity. Qed.

Section BodyFacts.

Variable server : list request -> request -> outcome http_response.
Variable json_loads : string -> option value.
Variable get_gcp_credentials : outcome unit.

#[local] Abbreviation body :=
  (make_api_request_body server json_loads get_gcp_credentials).

(** One call of the body for an audit without a page-token key. *)
Lemma unpaginated_body (fuel : nat) (project_id : string) (audit_details : dict)
    (base_url parent_path max_pages : value) (w : World) :
  configured (get "pagination_token_key" VNone audit_details) = None ->
  exists res w' new,
    body (S fuel) project_id audit_details base_url parent_path max_pages w
      = Some (res, w') /\
    db w' = db w /\
    http_log w' = (http_log w ++ new)%list /\
    (List.length new <= 1)%nat.
Proof.
  intro Hk. unfold make_api_request_body.
  destruct (first_tenant_config project_id (db w)) as [config|].
  2:{ eexists. exists w, []. rewrite app_nil_r. simpl. auto. }
  destruct (prepare get_gcp_credentials config audit_details base_url parent_path)
    as [[early|[url headers]]|e].
  1,3: eexists; exists w, []; rewrite app_nil_r; simpl; auto.
  destruct (unpaginated_loop server json_loads
              (get "method" (VStr "GET") audit_details)
              (get "json_data" VNone audit_details) url headers
              (get "pagination_token_key" VNone audit_details)
              (get "pagination_results_key" VNone audit_details)
              (or_else (get "pagination_request_token_key" VNone audit_details)
                 (get "pagination_token_key" VNone audit_details))
              (get "default_page_size" VNone audit_details) max_pages
              fuel 0 VNone [] w Hk)
    as (exit & w' & new & Hloop & Hexit & Hdb & Hlog & Hlen).
  rewrite Hloop. eexists. exists w', new.
  split; [destruct exit; try reflexivity; discriminate | auto].
Qed.

End BodyFacts.

(** A call of the body leaves the database as it was, and so does the
    decorated function. *)
Lemma body_keeps_db
    (server : list request -> request -> outcome http_response)
    (json_loads : string -> option value) (get_gcp_credentials : outcome unit)
    (fuel : nat) (project_id : string) (audit_details : dict)
    (base_url parent_path max_pages : value) (w w' : World)
    (res : outcome value) :
  make_api_request_body server json_loads get_gcp_credentials fuel project_id
    audit_details base_url parent_path max_pages w = Some (res, w') ->
  db w' = db w.
Proof.
  unfold make_api_request_body.
  destruct (first_tenant_config project_id (db w)) as [config|].
  2:{ intro H. now injection H as _ <-. }
  destruct (prepare get_gcp_credentials config audit_details base_url parent_path)
    as [[early|[url headers]]|e].
  1,3: intro H; now injection H as _ <-.
  match goal with
  | |- match ?l with _ => _ end = _ -> _ => destruct l as [[exit w1]|] eqn:Hloop
  end; [|discriminate].
  intro H. assert (Hw : w1 = w') by (destruct exit; congruence). subst w1.
  now destruct (loop_trace _ _ _ _ _ _ _ _ _ _ _ _ _ _ _ _ _ _ Hloop).
Qed.

Lemma decorated_keeps_db
    (server : list request -> request -> outcome http_response)
    (json_loads : string -> option value) (get_gcp_credentials : outcome unit)
    (uniform : nat -> Q) (fuel : nat) (project_id : string)
    (audit_details : dict) (base_url parent_path max_pages : value)
    (w w' : World) (res : outcome value) :
  make_api_request server json_loads get_gcp_credentials uniform fuel project_id
    audit_details base_url parent_path max_pages w = Some (res, w') ->
  db w' = db w.
Proof.
  unfold make_api_request, retry_with_backoff, retry_with_backoff_log.
  match goal with
  | |- match ?l with _ => _ end = _ -> _ => destruct l as [[[res0 w0] log]|] eqn:Hloop
  end; [|discriminate].
  intro H. injection H as _ <-.
  apply (RetryBudgetFacts.loop_invariant uniform 3 2 _ (fun w1 => db w1 = db w)
           _ _ _ _ _ _ _) with (3 := Hloop); [|reflexivity].
  intros w1 res1 w2 Hw1 Hbody. rewrite <- Hw1. eapply body_keeps_db. exact Hbody.
Qed.

(** X7. An audit without a page-token key is fetched with at most one
    HTTP request by one call of the function body, whatever the page cap
    and whatever the server answers, and with at most four requests by
    the decorated function; the call ends and leaves the database as it
    was. *)
Theorem unpaginated_fetch_sends_one_request
    (server : list request -> request -> outcome http_response)
    (json_loads : string -> option value) (get_gcp_credentials : outcome unit)
    (uniform : nat -> Q) (fuel : nat) (project_id : string)
    (audit_details : dict) (base_url parent_path max_pages : value) (w : World) :
  configured (get "pagination_token_key" VNone audit_details) = None ->
  (exists res w' new,
     make_api_request_body server json_loads get_gcp_credentials (S fuel)
       project_id audit_details base_url parent_path max_pages w
       = Some (res, w') /\
     db w' = db w /\
     http_log w' = (http_log w ++ new)%list /\
     (List.length new <= 1)%nat) /\
  (exists res w',
     make_api_request server json_loads get_gcp_credentials uniform (S fuel)
       project_id audit_details base_url parent_path max_pages w
       = Some (res, w') /\
     (List.length (http_log w') <= List.length (http_log w) + 4)%nat).
Proof.
  intro Hk. split; [now apply unpaginated_body|].
  unfold make_api_request, retry_with_backoff, retry_with_backoff_log.
  destruct (RetryPolicyFacts.loop_measure uniform 3 2
              (make_api_request_body server json_loads get_gcp_credentials
                 (S fuel) project_id audit_details base_url parent_path max_pages)
              (fun w0 => List.length (http_log w0)) 1%nat 3 0 w [])
    as (res & w' & log' & Hloop & Hmeasure).
  - intro w0.
    destruct (unpaginated_body server json_loads get_gcp_credentials fuel
                project_id audit_details base_url parent_path max_pages w0 Hk)
      as (res & w1 & new & Hrun & _ & Hlog & Hlen).
    exists res, w1. split; [exact Hrun|]. rewrite Hlog, length_app. lia.
  - reflexivity.
  - rewrite Hloop. exists res, w'. split; [reflexivity | lia].
Qed.

Lemma unpaginated_fetch_sends_one_request_witness :
  let details := [("auth_method", VStr "SOAR_API_KEY");
                  ("api_path", VStr "/v1/status")] in
  (exists res w' new,
     make_api_request_body Sample.always_500 Sample.loads (Returned tt) 1
       "proj-1" details Sample.base_url VNone VNone Sample.world0
       = Some (res, w') /\
     db w' = db Sample.world0 /\
     http_log w' = (http_log Sample.world0 ++ new)%list /\
     (List.length new <= 1)%nat) /\
  (exists res w',
     make_api_request Sample.always_500 Sample.loads (Returned tt)
       RetryPolicy.Sample.no_jitter 1 "proj-1" details Sample.base_url VNone
       VNone Sample.world0 = Some (res, w') /\
     (List.length (http_log w') <= List.length (http_log Sample.world0) + 4)%nat).
Proof.
  apply (unpaginated_fetch_sends_one_request Sample.always_500 Sample.loads
           (Returned tt) RetryPolicy.Sample.no_jitter 0 "proj-1"
           [("auth_method", VStr "SOAR_API_KEY"); ("api_path", VStr "/v1/status")]
           Sample.base_url VNone VNone Sample.world0).
  reflexivity.
Defined.

(** X8. Every HTTP request of a call of the function body goes to the one
    URL built from the base URL and the path, with the method, the JSON
    body and the headers of the audit definition: only the query
    parameters differ between the pages.  No request is issued unless the
    tenant configuration was found and the path and the authentication
    were settled. *)
Theorem requests_go_to_prepared_target
    (server : list request -> request -> outcome http_response)
    (json_loads : string -> option value) (get_gcp_credentials : outcome unit)
    (fuel : nat) (project_id : string) (audit_details : dict)
    (base_url parent_path max_pages : value) (w w' : World)
    (res : outcome value) :
  make_api_request_body server json_loads get_gcp_credentials fuel project_id
    audit_details base_url parent_path max_pages w = Some (res, w') ->
  exists new,
    http_log w' = (http_log w ++ new)%list /\
    (new = [] \/
     exists config url headers,
       first_tenant_config project_id (db w) = Some config /\
       prepare get_gcp_credentials config audit_details base_url parent_path
         = Returned (inr (url, headers)) /\
       Forall (aimed_at (get "method" (VStr "GET") audit_details)
                 (get "json_data" VNone audit_details) url headers) new).
Proof.
  unfold make_api_request_body.
  destruct (first_tenant_config project_id (db w)) as [config|] eqn:Hcfg.
  2:{ intro H. injection H as _ <-. exists []. rewrite app_nil_r. auto. }
  destruct (prepare get_gcp_credentials config audit_details base_url parent_path)
    as [[early|[url headers]]|e] eqn:Hprep.
  1,3: intro H; injection H as _ <-; exists []; rewrite app_nil_r; auto.
  match goal with
  | |- match ?l with _ => _ end = _ -> _ => destruct l as [[exit w1]|] eqn:Hloop
  end; [|discriminate].
  intro H. assert (Hw : w1 = w') by (destruct exit; congruence). subst w1.
  destruct (loop_trace _ _ _ _ _ _ _ _ _ _ _ _ _ _ _ _ _ _ Hloop)
    as (_ & new & Hlog & Hall).
  exists new. split; [exact Hlog|]. right. exists config, url, headers.
  split; [reflexivity|]. split; [exact Hprep|]. revert Hall. apply Forall_impl.
  intros r (t & ->). repeat split.
Qed.

Lemma requests_go_to_prepared_target_witness :
  exists new,
    http_log (mkWorld Sample.database0 [Sample.first_request])
      = (http_log Sample.world0 ++ new)%list /\
    (new = [] \/
     exists config url headers,
       first_tenant_config "proj-1" (db Sample.world0) = Some config /\
       prepare (Returned tt) config Sample.details Sample.base_url
         Sample.parent_path = Returned (inr (url, headers)) /\
       Forall (aimed_at (get "method" (VStr "GET") Sample.details)
                 (get "json_data" VNone Sample.details) url headers) new).
Proof.
  apply (requests_go_to_prepared_target (mock_server [Sample.ok Sample.page3])
           Sample.loads (Returned tt) 3 "proj-1" Sample.details Sample.base_url
           Sample.parent_path (VInt 2) Sample.world0
           (mkWorld Sample.database0 [Sample.first_request])
           (Returned (VDict [("items", VList [VInt 4; VInt 5])]))).
  vm_compute. reflexivity.
Defined.

(** X9. An audit with a page-token key but without a results key never
    hands back what the server sent: the pages are followed and dropped,
    and a call of the body that returns gives the empty aggregate
    [{"results": []}], the raw text of an answer that is not JSON, or an
    error dict. *)
Theorem token_key_without_results_key_drops_data
    (server : list request -> request -> outcome http_response)
    (json_loads : string -> option value) (get_gcp_credentials : outcome unit)
    (fuel : nat) (project_id : string) (audit_details : dict)
    (base_url parent_path max_pages : value) (w w' : World) (v : value)
    (tk : string) (config : tenant_config) (target : string * dict) :
  configured (get "pagination_token_key" VNone audit_details) = Some tk ->
  configured (get "pagination_results_key" VNone audit_details) = None ->
  first_tenant_config project_id (db w) = Some config ->
  prepare get_gcp_credentials config audit_details base_url parent_path
    = Returned (inr target) ->
  make_api_request_body server json_loads get_gcp_credentials fuel project_id
    audit_details base_url parent_path max_pages w = Some (Returned v, w') ->
  v = VDict [("results", VList [])] \/
  (exists t, v = VDict [("result", VStr t)]) \/
  (exists d, v = VDict d /\ mem "error" d = true).
Proof.
  intros Hk Hr Hcfg Hprep. unfold make_api_request_body.
  rewrite Hcfg, Hprep. destruct target as [url headers].
  match goal with
  | |- match ?l with _ => _ end = _ -> _ => destruct l as [[exit w1]|] eqn:Hloop
  end; [|discriminate].
  assert (Hn : nothing_gathered exit)
    by (eapply unkeyed_loop; [exact Hk | exact Hr | exact Hloop]).
  destruct exit as [token results|results|v0|e]; [discriminate| | |];
    intro H; injection H as H <-.
  - simpl in Hn. subst results. unfold final_result in H. rewrite Hr in H.
    left. congruence.
  - right. left. destruct Hn as (t & ->). exists t. congruence.
  - right. right. unfold finish, except_clauses in H.
    destruct e as [? [?|]|?|?|?|?|?|?|?|? ?]; try discriminate;
      injection H as <-; eexists; split; reflexivity.
Qed.

Lemma token_key_without_results_key_drops_data_witness :
  let v := VDict [("results", VList [])] in
  v = VDict [("results", VList [])] \/
  (exists t, v = VDict [("result", VStr t)]) \/
  (exists d, v = VDict d /\ mem "error" d = true).
Proof.
  apply (token_key_without_results_key_drops_data
           (mock_server [Sample.ok Sample.page3]) Sample.loads (Returned tt) 3
           "proj-1"
           [("auth_method", VStr "SOAR_API_KEY"); ("api_path", VStr "/v1/rules");
            ("pagination_token_key", VStr "next")]
           Sample.base_url VNone VNone Sample.world0
           (mkWorld Sample.database0
              [mkRequest (VStr "GET") "https://soar.example/v1/rules" [] VNone
                 [("AppKey", VStr "key")]])
           (VDict [("results", VList [])]) "next" Sample.tenant
           ("https://soar.example/v1/rules", [("AppKey", VStr "key")]));
    vm_compute; reflexivity.
Defined.

(** X10. The URL of the request does not depend on a trailing slash of
    the base URL: the base is stripped of its slashes on the right and
    the path of its slashes on the left before they are joined by one
    slash. *)
Theorem url_ignores_trailing_slash (get_gcp_credentials : outcome unit)
    (config : tenant_config) (audit_details : dict) (base : string)
    (parent_path : value) :
  prepare get_gcp_credentials config audit_details (VStr (base ++ "/")) parent_path
  = prepare get_gcp_credentials config audit_details (VStr base) parent_path.
Proof.
  unfold prepare. cbv zeta.
  repeat match goal with
         | |- match ?X with _ => _ end = match ?X with _ => _ end =>
             destruct X; try reflexivity
         end.
  all: rewrite ?rstrip_slash_app_slash; reflexivity.
Qed.

End FetchTraceFacts.

Module AuditTrailFacts.
Import PyStr Py Json Sys RetryPolicy PaginatedFetcher AuditRun AuditTrail.

Lemma appended_nil (d d' : database) : d' = d -> appended d d' [].
Proof. intros ->. unfold appended, same_catalogue. now rewrite app_nil_r. Qed.

Lemma appended_after (d0 d d' : database) (rows : list audit) :
  d = d0 -> appended d d' rows -> appended d0 d' rows.
Proof. now intros ->. Qed.

(** [add(row); commit()] appends the row, or raises and writes nothing. *)
Lemma add_and_commit_effect (row : audit) (w w' : World) (r : outcome unit) :
  add_and_commit row w = (r, w') ->
  (r = Returned tt /\ appended (db w) (db w') [row]) \/
  (exists e, r = Raised e /\ w' = w).
Proof.
  unfold add_and_commit. destruct (insertable row); intro H; injection H as <- <-.
  - left. split; [reflexivity|]. unfold appended, same_catalogue. simpl. auto.
  - right. eauto.
Qed.

Section Facts.

Variable server : list request -> request -> outcome http_response.
Variable json_loads : string -> option value.
Variable get_gcp_credentials : outcome unit.
Variable uniform : nat -> Q.
Variable run_custom_iam_audit : string -> value.
Variable utcnow_iso : World -> string.
Variable render_kb : Z -> string.
Variable fuel : nat.

#[local] Abbreviation run :=
  (run_audit_logic server json_loads get_gcp_credentials uniform
     run_custom_iam_audit utcnow_iso render_kb fuel).

(** The fetch of the response reads the database and writes nothing. *)
Lemma fetch_keeps_db (project_id : string) (details details' : dict)
    (w w' : World) (res : outcome value) :
  fetch server json_loads get_gcp_credentials uniform run_custom_iam_audit fuel
    project_id details w = Some (res, w', details') ->
  db w' = db w.
Proof.
  unfold fetch.
  destruct (is_str "Custom IAM" _); [intro H; now injection H as _ <- _|].
  destruct (first_tenant_config project_id (db w)) as [config|];
    [|intro H; now injection H as _ <- _].
  match goal with
  | |- match ?p with _ => _ end = _ -> _ => destruct p as [details1|e]
  end; [|intro H; now injection H as _ <- _].
  match goal with
  | |- (let '(_, _) := ?p in _) = _ -> _ => destruct p as [parent_path base_url]
  end.
  match goal with
  | |- match ?l with _ => _ end = _ -> _ => destruct l as [[res1 w1]|] eqn:Hreq
  end; [|discriminate].
  intro H. injection H as _ <- _.
  eapply FetchTraceFacts.decorated_keeps_db. exact Hreq.
Qed.

(** After the response is known: a [Success] row that holds the response,
    or an error and no row. *)
Lemma record_success_effect (project_id : string) (audit_name : value)
    (details : dict) (final_response : value) (w w' : World)
    (res : outcome value) :
  record_success utcnow_iso render_kb project_id audit_name details
    final_response w = (res, w') ->
  match res with
  | Returned _ =>
      exists row,
        appended (db w) (db w') [row] /\ status row = "Success" /\
        tenant_project_id row = project_id /\
        results row = dumps final_response /\
        key_in "error" final_response = Returned false
  | Raised _ => w' = w
  end.
Proof.
  unfold record_success.
  destruct (key_in "error" final_response) as [[|]|e] eqn:Hkey.
  - destruct (attr_get final_response "error" (VStr "Unknown error")) as [fb|e];
      [|intro H; now injection H as <- <-].
    destruct (attr_get final_response "details" fb);
      intro H; now injection H as <- <-.
  - match goal with
    | |- match add_and_commit ?row w with _ => _ end = _ -> _ =>
        destruct (add_and_commit row w) as [r w1] eqn:Hadd;
        destruct (add_and_commit_effect _ _ _ _ Hadd) as [[-> Happ]|(e & -> & ->)]
    end.
    + destruct (get_response_details final_response) as [size_bytes item_count].
      intro H. injection H as <- <-. eexists. split; [exact Happ|].
      repeat split.
    + intro H. now injection H as <- <-.
  - intro H. now injection H as <- <-.
Qed.

Lemma try_block_effect (project_id : string) (request : dict) (w w' : World)
    (res : outcome value) (binding : option value) :
  try_block server json_loads get_gcp_credentials uniform run_custom_iam_audit
    utcnow_iso render_kb fuel project_id request w = Some (res, w', binding) ->
  match res with
  | Returned _ =>
      exists row,
        appended (db w) (db w') [row] /\ status row = "Success" /\
        tenant_project_id row = project_id
  | Raised _ => db w' = db w
  end.
Proof.
  unfold try_block.
  destruct (resolve request (db w)) as [[audit_details|e] b].
  2:{ intro H. now injection H as <- <- _. }
  destruct (negb (truthy audit_details)); [intro H; now injection H as <- <- _|].
  destruct audit_details as [| | | | | |details];
    try (intro H; now injection H as <- <- _).
  destruct (fetch _ _ _ _ _ _ project_id details w) as [[[[fr|e] w1] details1]|]
    eqn:Hfetch; [| |discriminate].
  - pose proof (fetch_keeps_db _ _ _ _ _ _ Hfetch) as Hdb.
    destruct (record_success _ _ _ _ _ _ w1) as [res1 w2] eqn:Hrec.
    pose proof (record_success_effect _ _ _ _ _ _ _ Hrec) as Heff.
    intro H. injection H as <- <- _.
    destruct res1 as [v|e].
    + destruct Heff as (row & Happ & Hst & Hpid & _).
      exists row. rewrite <- Hdb. auto.
    + now subst w2.
  - pose proof (fetch_keeps_db _ _ _ _ _ _ Hfetch) as Hdb.
    intro H. now injection H as <- <- _.
Qed.

(** The handler raises, whatever happens; when it has written a row, the
    row is the [Failed] record of the error it raises. *)
Lemma handler_effect (project_id : string) (request : dict) (e : exn)
    (binding : option value) (w w' : World) (res : outcome value) :
  handler utcnow_iso project_id request e binding w = (res, w') ->
  exists e', res = Raised e' /\
    (w' = w \/
     e' = e /\
     exists row, appended (db w) (db w') [row] /\ failed_record row (exn_str e) /\
                 tenant_project_id row = project_id).
Proof.
  unfold handler.
  destruct binding as [audit_details|]; [|intro H; injection H as <- <-; eauto].
  match goal with
  | |- match ?n with _ => _ end = _ -> _ => destruct n as [name|e1]
  end; [|intro H; injection H as <- <-; eauto].
  match goal with
  | |- match ?c with _ => _ end = _ -> _ => destruct c as [category|e1]
  end; [|intro H; injection H as <- <-; eauto].
  match goal with
  | |- match add_and_commit ?row w with _ => _ end = _ -> _ =>
      destruct (add_and_commit row w) as [r w1] eqn:Hadd;
      destruct (add_and_commit_effect _ _ _ _ Hadd) as [[-> Happ]|(e1 & -> & ->)]
  end.
  - intro H. injection H as <- <-. exists e. split; [reflexivity|]. right.
    split; [reflexivity|]. eexists. split; [exact Happ|]. repeat split.
  - intro H. injection H as <- <-. eauto.
Qed.

(** What a run leaves behind. *)
Lemma run_effect (project_id : string) (request : dict) (w w' : World)
    (res : outcome value) :
  run project_id request w = Some (res, w') ->
  exists rows,
    appended (db w) (db w') rows /\
    match res with
    | Returned _ =>
        exists row, rows = [row] /\ status row = "Success" /\
                    tenant_project_id row = project_id
    | Raised e =>
        rows = [] \/
        exists row, rows = [row] /\ failed_record row (exn_str e) /\
                    tenant_project_id row = project_id
    end.
Proof.
  unfold run_audit_logic.
  destruct (try_block _ _ _ _ _ _ _ _ project_id request w)
    as [[[[v|e] w1] binding]|] eqn:Htry; [| |discriminate];
    pose proof (try_block_effect _ _ _ _ _ _ Htry) as Heff.
  - intro H. injection H as <- <-. destruct Heff as (row & Happ & Hst & Hpid).
    exists [row]. split; [exact Happ|]. exists row. auto.
  - assert (Hquiet : Some (@Raised value e, w1) = Some (res, w') ->
              exists rows, appended (db w) (db w') rows /\
                match res with
                | Returned _ =>
                    exists row, rows = [row] /\ status row = "Success" /\
                                tenant_project_id row = project_id
                | Raised e =>
                    rows = [] \/
                    exists row, rows = [row] /\ failed_record row (exn_str e) /\
                                tenant_project_id row = project_id
                end).
    { intro H. injection H as <- <-. exists []. split; [now apply appended_nil | auto]. }
    assert (Hhandled :
              Some (handler utcnow_iso project_id request e binding w1)
                = Some (res, w') ->
              exists rows, appended (db w) (db w') rows /\
                match res with
                | Returned _ =>
                    exists row, rows = [row] /\ status row = "Success" /\
                                tenant_project_id row = project_id
                | Raised e =>
                    rows = [] \/
                    exists row, rows = [row] /\ failed_record row (exn_str e) /\
                                tenant_project_id row = project_id
                end).
    { intro H. injection H as H.
      destruct (handler_effect _ _ _ _ _ _ _ H) as (e' & -> & [->|(-> & row & Happ & Hrec & Hpid)]).
      - exists []. split; [now apply appended_nil | auto].
      - exists [row]. split; [now apply (appended_after _ (db w1)) |].
        right. exists row. auto. }
    destruct e; try exact Hquiet; exact Hhandled.
Qed.

End Facts.

Import PaginatedFetcher.Sample AuditRun.Sample.

(** X11. A run of an audit writes at most one row, into the table of
    audit runs, and leaves the tenant configurations, the audit types,
    the audit definitions and the custom queries as they were. *)
Theorem run_appends_at_most_one_row
    (server : list request -> request -> outcome http_response)
    (json_loads : string -> option value) (get_gcp_credentials : outcome unit)
    (uniform : nat -> Q) (run_custom_iam_audit : string -> value)
    (utcnow_iso : World -> string) (render_kb : Z -> string) (fuel : nat)
    (project_id : string) (request : dict) (w w' : World) (res : outcome value) :
  run_audit_logic server json_loads get_gcp_credentials uniform
    run_custom_iam_audit utcnow_iso render_kb fuel project_id request w
    = Some (res, w') ->
  exists rows,
    appended (db w) (db w') rows /\ (List.length rows <= 1)%nat.
Proof.
  intro H. destruct (run_effect _ _ _ _ _ _ _ _ _ _ _ _ _ H) as (rows & Happ & Hres).
  exists rows. split; [exact Happ|].
  destruct res as [v|e].
  - destruct Hres as (row & -> & _). simpl. lia.
  - destruct Hres as [->|(row & -> & _)]; simpl; lia.
Qed.

Lemma run_appends_at_most_one_row_witness :
  exists rows,
    appended (db world0)
      (db (mkWorld
             (mkDatabase [tenant] [soar_type] [rules_audit] []
                [unknown_audit_row "proj-1" "2024-01-01T00:00:00" "logins"])
             [])) rows /\
    (List.length rows <= 1)%nat.
Proof.
  apply (run_appends_at_most_one_row always_500 loads (Returned tt)
           RetryPolicy.Sample.no_jitter no_roles clock kb 3 "proj-1"
           [("audit_name", VStr "logins")] world0 _
           (Raised (ValueError "Audit 'logins' not found"))).
  vm_compute. reflexivity.
Defined.

(** X12. The row agrees with the outcome.  A run that returns has written
    one [Success] row for the tenant; a run that raises has written
    nothing, or one [Failed] row for the tenant that holds the text of
    the very error it raises. *)
Theorem outcome_matches_record
    (server : list request -> request -> outcome http_response)
    (json_loads : string -> option value) (get_gcp_credentials : outcome unit)
    (uniform : nat -> Q) (run_custom_iam_audit : string -> value)
    (utcnow_iso : World -> string) (render_kb : Z -> string) (fuel : nat)
    (project_id : string) (request : dict) (w w' : World) (res : outcome value)
    (rows : list audit) :
  run_audit_logic server json_loads get_gcp_credentials uniform
    run_custom_iam_audit utcnow_iso render_kb fuel project_id request w
    = Some (res, w') ->
  audits (db w') = (audits (db w) ++ rows)%list ->
  match res with
  | Returned _ =>
      exists row, rows = [row] /\ status row = "Success" /\
                  tenant_project_id row = project_id
  | Raised e =>
      rows = [] \/
      exists row, rows = [row] /\ failed_record row (exn_str e) /\
                  tenant_project_id row = project_id
  end.
Proof.
  intros H Hrows.
  destruct (run_effect _ _ _ _ _ _ _ _ _ _ _ _ _ H) as (rows0 & [_ Happ] & Hres).
  rewrite Happ in Hrows. apply app_inv_head in Hrows. now subst rows0.
Qed.

Lemma outcome_matches_record_witness :
  let rows := [mkAudit "proj-1" (VStr "Identity") (VStr "iam")
                 "2024-01-01T00:00:00" "Success"
                 (dumps (VDict [("roles", VDict [])]))] in
  exists row, rows = [row] /\ status row = "Success" /\
              tenant_project_id row = "proj-1".
Proof.
  apply (outcome_matches_record always_500 loads (Returned tt)
           RetryPolicy.Sample.no_jitter no_roles clock kb 3 "proj-1"
           [("audit_details",
             VDict [("audit_type_id", VInt 1); ("audit_type", VStr "Custom IAM");
                    ("name", VStr "iam"); ("category", VStr "Identity")])]
           world0
           (mkWorld
              (mkDatabase [tenant] [soar_type] [rules_audit] []
                 [mkAudit "proj-1" (VStr "Identity") (VStr "iam")
                    "2024-01-01T00:00:00" "Success"
                    (dumps (VDict [("roles", VDict [])]))])
              [])
           (Returned (VDict [("message",
              VStr "Audit 'iam' completed successfully. Results: 1 items (0.1 KB).")])));
    vm_compute; reflexivity.
Defined.

(** The run of an audit that the catalogue does not hold, step by step:
    the lookup gives [None], the [try] block raises, and the handler
    writes its row with the fallback name and category. *)
Lemma unknown_audit_run
    (server : list request -> request -> outcome http_response)
    (json_loads : string -> option value) (get_gcp_credentials : outcome unit)
    (uniform : nat -> Q) (run_custom_iam_audit : string -> value)
    (utcnow_iso : World -> string) (render_kb : Z -> string) (fuel : nat)
    (project_id audit_name : string) (all_audits : dict) (w : World) :
  nonempty audit_name = true ->
  list_available_audits_from_db (db w) = Returned all_audits ->
  lookup audit_name all_audits = None ->
  run_audit_logic server json_loads get_gcp_credentials uniform
    run_custom_iam_audit utcnow_iso render_kb fuel project_id
    [("audit_name", VStr audit_name)] w
  = Some (handler utcnow_iso project_id [("audit_name", VStr audit_name)]
            (ValueError ("Audit '" ++ audit_name ++ "' not found"))
            (Some VNone) w).
Proof.
  intros Hne Hall Hlook.
  unfold run_audit_logic, try_block, resolve.
  cbn [get lookup String.eqb Ascii.eqb Bool.eqb truthy]. rewrite Hne, Hall.
  assert (Hget : get audit_name VNone all_audits = VNone)
    by (unfold get; now rewrite Hlook).
  rewrite Hget. reflexivity.
Qed.

(** X13. An audit that is not in the catalogue is recorded, but not under
    its name: the run raises [ValueError("Audit '<name>' not found")] and
    appends one [Failed] row whose audit name and category are both
    [Unknown], without any HTTP request. *)
Theorem unknown_audit_is_recorded_as_Unknown
    (server : list request -> request -> outcome http_response)
    (json_loads : string -> option value) (get_gcp_credentials : outcome unit)
    (uniform : nat -> Q) (run_custom_iam_audit : string -> value)
    (utcnow_iso : World -> string) (render_kb : Z -> string) (fuel : nat)
    (project_id audit_name : string) (all_audits : dict) (w : World) :
  nonempty audit_name = true ->
  list_available_audits_from_db (db w) = Returned all_audits ->
  lookup audit_name all_audits = None ->
  exists w',
    run_audit_logic server json_loads get_gcp_credentials uniform
      run_custom_iam_audit utcnow_iso render_kb fuel project_id
      [("audit_name", VStr audit_name)] w
    = Some (Raised (ValueError ("Audit '" ++ audit_name ++ "' not found")), w') /\
    appended (db w) (db w')
      [unknown_audit_row project_id (utcnow_iso w) audit_name] /\
    http_log w' = http_log w.
Proof.
  intros Hne Hall Hlook.
  rewrite (unknown_audit_run server json_loads get_gcp_credentials uniform
             run_custom_iam_audit utcnow_iso render_kb fuel project_id
             audit_name all_audits w Hne Hall Hlook).
  unfold handler. cbn [truthy]. unfold add_and_commit, new_audit. cbn.
  eexists. split; [reflexivity|].
  unfold appended, same_catalogue. cbn. auto 10.
Qed.

Lemma unknown_audit_is_recorded_as_Unknown_witness :
  exists w',
    run_audit_logic always_500 loads (Returned tt) RetryPolicy.Sample.no_jitter
      no_roles clock kb 3 "proj-1" [("audit_name", VStr "logins")] world0
    = Some (Raised (ValueError ("Audit '" ++ "logins" ++ "' not found")), w') /\
    appended (db world0) (db w')
      [unknown_audit_row "proj-1" (clock world0) "logins"] /\
    http_log w' = http_log world0.
Proof.
  apply (unknown_audit_is_recorded_as_Unknown always_500 loads (Returned tt)
           RetryPolicy.Sample.no_jitter no_roles clock kb 3 "proj-1" "logins"
           [("rules", VDict [("category", VStr "Detection");
                             ("api_path", VStr "/v1/rules");
                             ("method", VStr "GET");
                             ("response_key", VNone);
                             ("default_page_size", VNone);
                             ("audit_type_name", VStr "SOAR");
                             ("audit_type_icon", VNone);
                             ("auth_method", VStr "SOAR_API_KEY");
                             ("response_format", VStr "JSON");
                             ("pagination_token_key", VStr "next");
                             ("pagination_results_key", VStr "items");
                             ("pagination_request_token_key", VNone);
                             ("max_pages", VInt 2)])]
           world0); reflexivity.
Defined.

(** X14. The number of items in the message of a paginated audit is the
    number of results gathered over the pages, except that an audit
    without any result is reported with one item: the aggregate
    [{results_key: []}] is a dict that is not empty. *)
Theorem reported_item_count (results_key : value) (rk : string)
    (all_results : list value) :
  configured results_key = Some rk ->
  snd (get_response_details (final_result results_key all_results))
  = Z.max 1 (Z.of_nat (List.length all_results)).
Proof.
  intro Hk. unfold final_result. rewrite Hk.
  unfold get_response_details. cbn.
  destruct all_results as [|x l]; [reflexivity|].
  cbn [List.length]. lia.
Qed.

Lemma reported_item_count_witness :
  snd (get_response_details (final_result (VStr "items") []))
  = Z.max 1 (Z.of_nat (List.length (@nil value))).
Proof.
  apply (reported_item_count (VStr "items") "items" []). reflexivity.
Defined.

End AuditTrailFacts.

Module CatalogueFacts.
Import PyStr Py Json Sys RetryPolicy PaginatedFetcher AuditRun.

Lemma lookup_setitem_same (key : string) (v : value) (d : dict) :
  lookup key (setitem key v d) = Some v.
Proof.
  induction d as [|[k v0] d IH]; simpl.
  - now rewrite String.eqb_refl.
  - destruct (String.eqb k key) eqn:E; simpl; rewrite E; [reflexivity | exact IH].
Qed.

Lemma lookup_setitem_other (key key' : string) (v : value) (d : dict) :
  key <> key' -> lookup key' (setitem key v d) = lookup key' d.
Proof.
  intro Hne. induction d as [|[k v0] d IH]; simpl.
  - destruct (String.eqb key key') eqn:E; [|reflexivity].
    apply String.eqb_eq in E. contradiction.
  - destruct (String.eqb k key) eqn:E; simpl.
    + apply String.eqb_eq in E. subst k.
      destruct (String.eqb key key') eqn:E'; [|reflexivity].
      apply String.eqb_eq in E'. contradiction.
    + now rewrite IH.
Qed.

(** Entering the custom queries leaves the other names alone. *)
Lemma custom_queries_keep (yl2 : option audit_type)
    (queries : list custom_yl2_query) (key : string) (acc : dict) :
  ~ In key (map q_name queries) ->
  lookup key
    (fold_left
       (fun acc q => setitem (q_name q) (VDict (custom_query_details yl2 q)) acc)
       queries acc)
  = lookup key acc.
Proof.
  revert acc. induction queries as [|q queries IH]; intros acc Hn; [reflexivity|].
  cbn [fold_left]. rewrite IH by (intro H; apply Hn; now right).
  apply lookup_setitem_other. intro E. apply Hn. left. exact E.
Qed.

(** Entering the audit definitions leaves the other names alone. *)
Lemma add_configurable_keeps (rows : list configurable_audit) (key : string)
    (acc all_audits : dict) :
  ~ In key (map ca_name rows) ->
  add_configurable rows acc = Returned all_audits ->
  lookup key all_audits = lookup key acc.
Proof.
  revert acc. induction rows as [|a rows IH]; intros acc Hn H.
  - now injection H as <-.
  - cbn [add_configurable] in H.
    destruct (configurable_details a) as [details|e]; [|discriminate].
    rewrite (IH _ (fun Hin => Hn (or_intror Hin)) H).
    apply lookup_setitem_other. intro E. apply Hn. left. exact E.
Qed.

(** With distinct names, each audit definition is entered under its
    name. *)
Lemma add_configurable_entry (rows : list configurable_audit)
    (a : configurable_audit) (acc all_audits : dict) :
  NoDup (map ca_name rows) -> In a rows ->
  add_configurable rows acc = Returned all_audits ->
  exists details,
    configurable_details a = Returned details /\
    lookup (ca_name a) all_audits = Some (VDict details).
Proof.
  revert acc. induction rows as [|a0 rows IH]; intros acc Hnd Hin H;
    [contradiction|].
  cbn [map] in Hnd. inversion Hnd as [|? ? Hnot Hnd']; subst.
  cbn [add_configurable] in H.
  destruct (configurable_details a0) as [details|e] eqn:Hd; [|discriminate].
  destruct Hin as [->|Hin].
  - exists details. split; [exact Hd|].
    rewrite (add_configurable_keeps _ _ _ _ Hnot H). apply lookup_setitem_same.
  - exact (IH _ Hnd' Hin H).
Qed.

(** Every audit definition has a type: the listing does not raise. *)
Lemma add_configurable_returns (rows : list configurable_audit) (acc : dict) :
  Forall (fun a => ca_audit_type a <> None) rows ->
  exists all_audits, add_configurable rows acc = Returned all_audits.
Proof.
  intro Hall. revert acc. induction Hall as [|a rows Ha _ IH]; intro acc.
  - now exists acc.
  - cbn [add_configurable]. unfold configurable_details.
    destruct (ca_audit_type a) as [t|]; [apply IH | congruence].
Qed.

(** The entry of the catalogue for an audit definition that no custom
    query shadows. *)
Lemma catalogue_entry (d : database) (a : configurable_audit) :
  Forall (fun a => ca_audit_type a <> None) (configurable_audits d) ->
  NoDup (map ca_name (configurable_audits d)) ->
  In a (configurable_audits d) ->
  ~ In (ca_name a) (map q_name (custom_yl2_queries d)) ->
  exists all_audits details,
    list_available_audits_from_db d = Returned all_audits /\
    configurable_details a = Returned details /\
    lookup (ca_name a) all_audits = Some (VDict details).
Proof.
  intros Htyped Hnd Hin Hfree. unfold list_available_audits_from_db.
  destruct (add_configurable_returns _ [] Htyped) as (acc & Hacc).
  rewrite Hacc.
  destruct (add_configurable_entry _ a _ _ Hnd Hin Hacc) as (details & Hd & Hl).
  eexists. exists details. split; [reflexivity|]. split; [exact Hd|].
  now rewrite custom_queries_keep.
Qed.

(** The custom queries are entered last, each under its own name. *)
Lemma custom_queries_entered (yl2 : option audit_type)
    (queries : list custom_yl2_query) (q : custom_yl2_query) (acc : dict) :
  NoDup (map q_name queries) -> In q queries ->
  lookup (q_name q)
    (fold_left
       (fun acc q => setitem (q_name q) (VDict (custom_query_details yl2 q)) acc)
       queries acc)
  = Some (VDict (custom_query_details yl2 q)).
Proof.
  revert acc. induction queries as [|q0 queries IH]; intros acc Hnd Hin;
    [contradiction|].
  cbn [map] in Hnd. inversion Hnd as [|? ? Hnot Hnd']; subst.
  cbn [fold_left]. destruct Hin as [->|Hin]; [|now apply IH].
  rewrite custom_queries_keep by exact Hnot. apply lookup_setitem_same.
Qed.

(** The first audit definition without an audit type ends the listing. *)
Lemma orphan_raises (rows : list configurable_audit) (acc : dict) :
  Exists (fun a => ca_audit_type a = None) rows ->
  add_configurable rows acc
  = Raised (AttributeError "'NoneType' object has no attribute 'name'").
Proof.
  revert acc. induction rows as [|a rows IH]; intros acc Hex.
  - inversion Hex.
  - cbn [add_configurable]. unfold configurable_details.
    destruct (ca_audit_type a) as [t|] eqn:Ht; [|reflexivity].
    apply IH. inversion Hex as [? ? H|? ? H]; subst; [congruence | exact H].
Qed.

(** X26. A custom query shadows a standard audit of the same name: when
    the names of the custom queries are pairwise distinct, the catalogue
    holds under the name of each custom query the definition made from
    that query (a POST of [dashboardQueries:execute]), whatever the
    configurable audits are called. *)
Theorem custom_query_shadows_audit (d : database) (all_audits : dict)
    (q : custom_yl2_query) :
  list_available_audits_from_db d = Returned all_audits ->
  NoDup (map q_name (custom_yl2_queries d)) ->
  In q (custom_yl2_queries d) ->
  lookup (q_name q) all_audits
  = Some (VDict (custom_query_details
                   (find (fun t => String.eqb (at_name t) "Custom YL2")
                      (audit_types d)) q)) /\
  get "method" VNone (custom_query_details
                        (find (fun t => String.eqb (at_name t) "Custom YL2")
                           (audit_types d)) q) = VStr "POST".
Proof.
  unfold list_available_audits_from_db. intros Hcat Hnd Hin.
  destruct (add_configurable (configurable_audits d) []) as [acc|e];
    [|discriminate].
  injection Hcat as <-. split; [now apply custom_queries_entered | reflexivity].
Qed.

Lemma custom_query_shadows_audit_witness :
  let q := mkCustomQuery "rules" "Hunting" "events: count" "DAY" 7 in
  let d := mkDatabase [Sample.tenant] [Sample.soar_type] [Sample.rules_audit]
             [q] [] in
  lookup (q_name q)
    (setitem "rules" (VDict (custom_query_details None q))
       (match configurable_details Sample.rules_audit with
        | Returned details => [("rules", VDict details)]
        | Raised _ => []
        end))
  = Some (VDict (custom_query_details
                   (find (fun t => String.eqb (at_name t) "Custom YL2")
                      (audit_types d)) q)) /\
  get "method" VNone (custom_query_details
                        (find (fun t => String.eqb (at_name t) "Custom YL2")
                           (audit_types d)) q) = VStr "POST".
Proof.
  apply (custom_query_shadows_audit
           (mkDatabase [Sample.tenant] [Sample.soar_type] [Sample.rules_audit]
              [mkCustomQuery "rules" "Hunting" "events: count" "DAY" 7] [])
           _ (mkCustomQuery "rules" "Hunting" "events: count" "DAY" 7)).
  - reflexivity.
  - repeat constructor. simpl. tauto.
  - now left.
Defined.

(** X27. One audit definition without an audit type breaks every run by
    name: the catalogue cannot be listed, the run raises the
    [AttributeError] of the listing, which is neither a [ValueError] nor
    a [KeyError], and nothing is recorded or requested. *)
Theorem orphaned_definition_breaks_every_run
    (server : list request -> request -> outcome http_response)
    (json_loads : string -> option value) (get_gcp_credentials : outcome unit)
    (uniform : nat -> Q) (run_custom_iam_audit : string -> value)
    (utcnow_iso : World -> string) (render_kb : Z -> string) (fuel : nat)
    (project_id : string) (request : dict) (w : World) :
  Exists (fun a => ca_audit_type a = None) (configurable_audits (db w)) ->
  truthy (get "audit_details" VNone request) = false ->
  truthy (get "audit_name" VNone request) = true ->
  run_audit_logic server json_loads get_gcp_credentials uniform
    run_custom_iam_audit utcnow_iso render_kb fuel project_id request w
  = Some (Raised (AttributeError "'NoneType' object has no attribute 'name'"), w).
Proof.
  intros Horphan Hdetails Hname.
  unfold run_audit_logic, try_block, resolve.
  rewrite Hdetails, Hname. unfold list_available_audits_from_db.
  rewrite (orphan_raises _ _ Horphan). reflexivity.
Qed.

Lemma orphaned_definition_breaks_every_run_witness :
  let orphan :=
    mkConfigurableAudit "feeds" "Ingestion" (VStr "/v1/feeds") (VStr "GET")
      VNone VNone None (VStr "JSON") VNone VNone VNone VNone in
  let w := mkWorld (mkDatabase [Sample.tenant] [Sample.soar_type]
                      [Sample.rules_audit; orphan] [] []) [] in
  run_audit_logic Sample.always_500 Sample.loads (Returned tt)
    RetryPolicy.Sample.no_jitter AuditRun.Sample.no_roles AuditRun.Sample.clock
    AuditRun.Sample.kb 3 "proj-1" AuditRun.Sample.by_name w
  = Some (Raised (AttributeError "'NoneType' object has no attribute 'name'"), w).
Proof.
  apply (orphaned_definition_breaks_every_run Sample.always_500 Sample.loads
           (Returned tt) RetryPolicy.Sample.no_jitter AuditRun.Sample.no_roles
           AuditRun.Sample.clock AuditRun.Sample.kb 3 "proj-1"
           AuditRun.Sample.by_name).
  - simpl. apply Exists_cons_tl. apply Exists_cons_hd. reflexivity.
  - reflexivity.
  - reflexivity.
Defined.

End CatalogueFacts.

Module ScheduledJobFacts.
Import PyStr Py Json Sys RetryPolicy PaginatedFetcher AuditRun AuditTrail.
Import ScheduledJob AuditTrailFacts CatalogueFacts.

Lemma appended_trans (d d1 d2 : database) (rows1 rows2 : list audit) :
  appended d d1 rows1 -> appended d1 d2 rows2 ->
  appended d d2 (rows1 ++ rows2)%list.
Proof.
  unfold appended, same_catalogue.
  intros [(H1 & H2 & H3 & H4) H5] [(G1 & G2 & G3 & G4) G5].
  rewrite G1, G2, G3, G4, G5, H1, H2, H3, H4, H5, app_assoc. auto.
Qed.

(** What a run only reads stays as it was. *)
Lemma listable_same (d d' : database) :
  same_catalogue d d' -> listable d -> listable d'.
Proof. intros (_ & _ & H3 & _). unfold listable. now rewrite H3. Qed.

Lemma fetched_audit_same (d d' : database) (a : configurable_audit) :
  same_catalogue d d' -> fetched_audit d a -> fetched_audit d' a.
Proof. intros (_ & _ & H3 & H4). unfold fetched_audit. now rewrite H3, H4. Qed.

Lemma tenant_same (d d' : database) (project_id : string) :
  same_catalogue d d' ->
  first_tenant_config project_id d' = first_tenant_config project_id d.
Proof. intros (H1 & _). unfold first_tenant_config. now rewrite H1. Qed.

Section Facts.

Variable server : list request -> request -> outcome http_response.
Variable json_loads : string -> option value.
Variable get_gcp_credentials : outcome unit.
Variable uniform : nat -> Q.
Variable run_custom_iam_audit : string -> value.
Variable utcnow_iso : World -> string.
Variable render_kb : Z -> string.
Variable fuel : nat.

#[local] Abbreviation audits_loop :=
  (run_audits server json_loads get_gcp_credentials uniform
     run_custom_iam_audit utcnow_iso render_kb fuel).
#[local] Abbreviation run :=
  (run_audit_logic server json_loads get_gcp_credentials uniform
     run_custom_iam_audit utcnow_iso render_kb fuel).

(** The audits of a job write at most one row each. *)
Lemma run_audits_effect (project_id : string) (audit_names : list string)
    (w w' : World) :
  audits_loop project_id audit_names w = Some w' ->
  exists rows,
    appended (db w) (db w') rows /\
    (List.length rows <= List.length audit_names)%nat.
Proof.
  revert w. induction audit_names as [|n rest IH]; intros w.
  - intro H. injection H as <-. exists []. split; [now apply appended_nil | simpl; lia].
  - cbn [run_audits].
    destruct (run_audit_logic _ _ _ _ _ _ _ _ project_id _ w) as [[res w1]|] eqn:Hrun;
      [|discriminate].
    intro H. destruct (IH _ H) as (rows2 & Happ2 & Hlen2).
    destruct (AuditTrailFacts.run_effect _ _ _ _ _ _ _ _ _ _ _ _ _ Hrun)
      as (rows1 & Happ1 & Hres).
    exists (rows1 ++ rows2)%list. split; [now apply (appended_trans _ (db w1))|].
    rewrite length_app. cbn [List.length].
    assert (List.length rows1 <= 1)%nat; [|lia].
    destruct res as [v|e].
    + destruct Hres as (row & -> & _). simpl. lia.
    + destruct Hres as [->|(row & -> & _)]; simpl; lia.
Qed.

(** The run of one audit for a tenant without a configuration: the
    definition is found in the catalogue, the fetch raises before any
    request, and the handler records the failure under the name and the
    category of the audit. *)
Lemma tenantless_run (project_id : string) (a : configurable_audit) (w : World) :
  first_tenant_config project_id (db w) = None ->
  listable (db w) -> fetched_audit (db w) a ->
  run project_id [("audit_name", VStr (ca_name a))] w
  = Some (Raised (ValueError "Tenant is not configured."),
          mkWorld
            (mkDatabase (tenant_configs (db w)) (audit_types (db w))
               (configurable_audits (db w)) (custom_yl2_queries (db w))
               (audits (db w)
                  ++ [tenant_missing_row project_id (utcnow_iso w) a])%list)
            (http_log w)).
Proof.
  intros Htenant [Htyped Hnd] (Hin & Hname & Hfree & Htype).
  destruct (catalogue_entry (db w) a Htyped Hnd Hin Hfree)
    as (all_audits & details & Hlist & Hdetails & Hlook).
  unfold configurable_details in Hdetails.
  destruct (ca_audit_type a) as [t|] eqn:Ht; [|discriminate].
  injection Hdetails as <-. specialize (Htype t eq_refl).
  assert (Hiam : String.eqb (at_name t) "Custom IAM" = false)
    by now apply String.eqb_neq.
  unfold run_audit_logic, try_block, resolve.
  cbn [get lookup String.eqb Ascii.eqb Bool.eqb truthy]. rewrite Hname, Hlist.
  match type of Hlook with
  | _ = Some ?v =>
      assert (Hget : get (ca_name a) VNone all_audits = v)
        by (unfold get; now rewrite Hlook)
  end.
  rewrite Hget. cbn [truthy negb].
  unfold fetch. cbn [get lookup String.eqb Ascii.eqb Bool.eqb].
  unfold or_else. cbn [truthy is_str].
  destruct (nonempty (at_name t)); cbn [is_str]; rewrite ?Hiam, Htenant;
    unfold handler; cbn; reflexivity.
Qed.

(** The audits of a job for a tenant without a configuration: every one
    is run and recorded, one after the other. *)
Lemma tenantless_audits (project_id : string)
    (related : list configurable_audit) (w : World) :
  first_tenant_config project_id (db w) = None ->
  listable (db w) ->
  Forall (fetched_audit (db w)) related ->
  exists w' rows,
    audits_loop project_id (names_of related) w = Some w' /\
    appended (db w) (db w') rows /\
    Forall2 (fun a row =>
               exists stamp, row = tenant_missing_row project_id stamp a)
            related rows /\
    http_log w' = http_log w.
Proof.
  intros Htenant Hlist Hall. revert w Htenant Hlist Hall.
  induction related as [|a rest IH]; intros w Htenant Hlist Hall.
  - exists w, []. split; [reflexivity|]. split; [now apply appended_nil|].
    split; [constructor | reflexivity].
  - inversion Hall as [|? ? Ha Hrest]; subst.
    pose proof (tenantless_run project_id a w Htenant Hlist Ha) as Hrun.
    match type of Hrun with
    | _ = Some (_, ?w1') => set (w1 := w1') in *
    end.
    assert (Happ1 : appended (db w) (db w1)
                      [tenant_missing_row project_id (utcnow_iso w) a])
      by (unfold appended, same_catalogue; cbn; auto 10).
    destruct (IH w1) as (w' & rows & Hloop & Happ & Hrows & Hlog).
    + now rewrite (tenant_same _ _ _ (proj1 Happ1)).
    + exact (listable_same _ _ (proj1 Happ1) Hlist).
    + revert Hrest. apply Forall_impl. intro a0.
      apply fetched_audit_same. exact (proj1 Happ1).
    + exists w', (tenant_missing_row project_id (utcnow_iso w) a :: rows).
      cbn [names_of map run_audits]. rewrite Hrun. split; [exact Hloop|].
      split; [exact (appended_trans _ _ _ _ _ Happ1 Happ)|].
      split; [constructor; [now exists (utcnow_iso w) | exact Hrows] | exact Hlog].
Qed.

End Facts.

Import PaginatedFetcher.Sample AuditRun.Sample ScheduledJob.Sample.

(** X15. What a scheduled job does, by the type of its row.  Without a
    row nothing is done.  A job of type [report] or [diff] hands exactly
    one task to the queue, for its tenant, the names of its related
    audits and its name format, and leaves the world as it is; a job of
    any other type but [audit] does nothing.  A job of type [audit]
    hands over no task, and when it ends it has appended at most one row
    for each related audit, to the table of audit runs only. *)
Theorem scheduled_job_effect
    (server : list request -> request -> outcome http_response)
    (json_loads : string -> option value) (get_gcp_credentials : outcome unit)
    (uniform : nat -> Q) (run_custom_iam_audit : string -> value)
    (utcnow_iso : World -> string) (render_kb : Z -> string) (fuel : nat)
    (schedules : list job) (schedule_id : Z) (w : World) :
  let job_run :=
    run_scheduled_job server json_loads get_gcp_credentials uniform
      run_custom_iam_audit utcnow_iso render_kb fuel schedules schedule_id w in
  match find (fun s => job_id s =? schedule_id) schedules with
  | None => job_run = Some (w, [])
  | Some s =>
      if String.eqb (schedule_type s) "audit" then
        forall w' tasks,
          job_run = Some (w', tasks) ->
          tasks = [] /\
          exists rows,
            appended (db w) (db w') rows /\
            (List.length rows <= List.length (audits_to_run s))%nat
      else if String.eqb (schedule_type s) "report" then
        job_run
        = Some (w, [GenerateReport (job_tenant_project_id s)
                      (names_of (audits_for_report s)) (report_name_format s)])
      else if String.eqb (schedule_type s) "diff" then
        job_run
        = Some (w, [GenerateCombinedDiffReport (job_tenant_project_id s)
                      (names_of (audits_for_diff s)) (report_name_format s)])
      else job_run = Some (w, [])
  end.
Proof.
  cbv zeta. unfold run_scheduled_job.
  destruct (find (fun s => job_id s =? schedule_id) schedules) as [s|];
    [|reflexivity].
  destruct (String.eqb (schedule_type s) "audit").
  - intros w' tasks.
    destruct (run_audits _ _ _ _ _ _ _ _ (job_tenant_project_id s)
                (names_of (audits_to_run s)) w) as [w1|] eqn:Hrun; [|discriminate].
    intro H. injection H as <- <-. split; [reflexivity|].
    destruct (run_audits_effect _ _ _ _ _ _ _ _ _ _ _ _ Hrun) as (rows & Happ & Hlen).
    exists rows. split; [exact Happ|].
    unfold names_of in Hlen. now rewrite length_map in Hlen.
  - destruct (String.eqb (schedule_type s) "report"); [reflexivity|].
    destruct (String.eqb (schedule_type s) "diff"); reflexivity.
Qed.

Lemma scheduled_job_effect_witness :
  run_scheduled_job always_500 loads (Returned tt) RetryPolicy.Sample.no_jitter
    no_roles clock kb 3 [nightly; weekly_report] 8 world0
  = Some (world0, [GenerateReport "proj-1" ["rules"] (VStr "Weekly {date}")]).
Proof.
  exact (scheduled_job_effect always_500 loads (Returned tt)
           RetryPolicy.Sample.no_jitter no_roles clock kb 3
           [nightly; weekly_report] 8 world0).
Defined.

(** X16. An audit that fails does not stop the job.  For a job of type
    [audit] whose tenant has no configuration, with related audits that
    are rows of a catalogue that can be listed, fetched over HTTP under
    their own definitions: every related audit is run, each run raises
    [ValueError("Tenant is not configured.")] and is recorded as a
    [Failed] row under the name and the category of the audit, in the
    order of the job, and the job ends after the last with no task and no
    HTTP request. *)
Theorem failed_audits_do_not_stop_the_job
    (server : list request -> request -> outcome http_response)
    (json_loads : string -> option value) (get_gcp_credentials : outcome unit)
    (uniform : nat -> Q) (run_custom_iam_audit : string -> value)
    (utcnow_iso : World -> string) (render_kb : Z -> string) (fuel : nat)
    (schedules : list job) (schedule : job) (w : World) :
  find (fun s => job_id s =? job_id schedule) schedules = Some schedule ->
  schedule_type schedule = "audit" ->
  first_tenant_config (job_tenant_project_id schedule) (db w) = None ->
  listable (db w) ->
  Forall (fetched_audit (db w)) (audits_to_run schedule) ->
  exists w' rows,
    run_scheduled_job server json_loads get_gcp_credentials uniform
      run_custom_iam_audit utcnow_iso render_kb fuel schedules
      (job_id schedule) w = Some (w', []) /\
    appended (db w) (db w') rows /\
    Forall2 (fun a row =>
               exists stamp,
                 row = tenant_missing_row (job_tenant_project_id schedule)
                         stamp a)
            (audits_to_run schedule) rows /\
    http_log w' = http_log w.
Proof.
  intros Hfind Htype Htenant Hlist Hall.
  destruct (tenantless_audits server json_loads get_gcp_credentials uniform
              run_custom_iam_audit utcnow_iso render_kb fuel
              (job_tenant_project_id schedule) (audits_to_run schedule) w
              Htenant Hlist Hall)
    as (w' & rows & Hloop & Happ & Hrows & Hlog).
  exists w', rows. unfold run_scheduled_job.
  rewrite Hfind, Htype. cbn [String.eqb Ascii.eqb Bool.eqb]. rewrite Hloop. auto.
Qed.

Lemma failed_audits_do_not_stop_the_job_witness :
  let w := mkWorld catalogue_db [] in
  exists w' rows,
    run_scheduled_job always_500 loads (Returned tt)
      RetryPolicy.Sample.no_jitter no_roles clock kb 3
      [nightly; weekly_report] (job_id nightly) w = Some (w', []) /\
    appended (db w) (db w') rows /\
    Forall2 (fun a row =>
               exists stamp,
                 row = tenant_missing_row (job_tenant_project_id nightly)
                         stamp a)
            (audits_to_run nightly) rows /\
    http_log w' = http_log w.
Proof.
  apply (failed_audits_do_not_stop_the_job always_500 loads (Returned tt)
           RetryPolicy.Sample.no_jitter no_roles clock kb 3
           [nightly; weekly_report] nightly (mkWorld catalogue_db [])).
  - reflexivity.
  - reflexivity.
  - reflexivity.
  - split.
    + repeat constructor; discriminate.
    + repeat constructor; simpl; intuition discriminate.
  - repeat constructor; simpl; try tauto;
      intros t H; injection H as <-; discriminate.
Defined.

(** The job of the example, run: two failed runs are recorded, the
    second after the first. *)
Example nightly_job_runs_both :
  option_map (fun r => map (fun row => (audit_name row, status row))
                         (audits (db (fst r))))
    (run_scheduled_job always_500 loads (Returned tt)
       RetryPolicy.Sample.no_jitter no_roles clock kb 3
       [nightly; weekly_report] 7 (mkWorld catalogue_db []))
  = Some [(VStr "rules", "Failed"); (VStr "feeds", "Failed")].
Proof. vm_compute. reflexivity. Qed.

End ScheduledJobFacts.

Module WatermarkFacts.
Import Py ScheduleTicker ScheduleTickerFacts Watermarks.

Section Facts.

Variable get_prev : string -> Z -> option Z.

#[local] Abbreviation emitted := (ScheduleTicker.emitted get_prev).
#[local] Abbreviation rows_after := (ScheduleTicker.rows_after get_prev).

(** The third component of a tick: the exception that ended it. *)
Lemma tick_rows_error (now : Z) (rows : list schedule) (q : list Z) :
  snd (tick_rows get_prev now rows q) = snd (tick_rows get_prev now rows []).
Proof.
  rewrite (tick_rows_queue get_prev now rows q).
  now destruct (tick_rows get_prev now rows []) as [[rows' em] e].
Qed.

Lemma tick_rows_error_cons (now : Z) (s : schedule) (rows : list schedule) :
  snd (tick_rows get_prev now (s :: rows) []) =
  if is_enabled s =? 1 then
    match get_prev (cron_schedule s) now with
    | None => Some (OtherError "CroniterBadCronError" (cron_schedule s))
    | Some _ => snd (tick_rows get_prev now rows [])
    end
  else snd (tick_rows get_prev now rows []).
Proof.
  simpl. destruct (is_enabled s =? 1).
  - destruct (get_prev (cron_schedule s) now) as [p|]; [|reflexivity].
    destruct (should_run s now p).
    + rewrite <- (tick_rows_error now rows [id s]).
      now destruct (tick_rows get_prev now rows [id s]) as [[rows' em] e].
    + now destruct (tick_rows get_prev now rows []) as [[rows' em] e].
  - now destruct (tick_rows get_prev now rows []) as [[rows' em] e].
Qed.

(** The rows before the first bad row are handled as if the table ended
    there; the bad row and the rows after it are left alone. *)
Lemma tick_up_to_bad_row (now : Z) (before after : list schedule) (bad : schedule) :
  forallb (fun s => negb (bad_row get_prev now s)) before = true ->
  bad_row get_prev now bad = true ->
  emitted now (before ++ bad :: after) = emitted now before /\
  rows_after now (before ++ bad :: after)
    = (rows_after now before ++ bad :: after)%list /\
  snd (tick_rows get_prev now (before ++ bad :: after) [])
    = Some (OtherError "CroniterBadCronError" (cron_schedule bad)).
Proof.
  intros Hgood Hbad. unfold bad_row in Hbad. apply andb_prop in Hbad.
  destruct Hbad as [Hen Hrej].
  destruct (get_prev (cron_schedule bad) now) as [|] eqn:Hp; [discriminate|].
  induction before as [|s before IH].
  - cbn [app]. rewrite (emitted_cons get_prev), (rows_after_cons get_prev),
      tick_rows_error_cons, Hen, Hp. auto.
  - cbn [forallb] in Hgood. apply andb_prop in Hgood. destruct Hgood as [Hs Hgood].
    destruct (IH Hgood) as (He & Hr & Hx).
    cbn [app].
    rewrite !(emitted_cons get_prev), !(rows_after_cons get_prev),
      !tick_rows_error_cons, He, Hr, Hx.
    unfold bad_row in Hs.
    destruct (is_enabled s =? 1); [|auto].
    destruct (get_prev (cron_schedule s) now) as [p|]; [|discriminate].
    destruct (should_run s now p); auto.
Qed.

(** The rows a tick stamps are the rows it dispatches. *)
Lemma stamped_rows (now : Z) (rows : list schedule) :
  forallb (fun s => negb (stamped_at now s)) rows = true ->
  emitted now rows = map id (filter (stamped_at now) (rows_after now rows)).
Proof.
  induction rows as [|s rows IH]; [reflexivity|].
  cbn [forallb]. intro H. apply andb_prop in H. destruct H as [Hs Hrows].
  apply negb_true_iff in Hs.
  rewrite (emitted_cons get_prev), (rows_after_cons get_prev).
  destruct (is_enabled s =? 1).
  - destruct (get_prev (cron_schedule s) now) as [p|].
    + destruct (should_run s now p); cbn [filter].
      * unfold stamped_at at 1. cbn [set_last_run_at last_run_at].
        rewrite Z.eqb_refl. cbn [map id]. now rewrite IH.
      * rewrite Hs. now apply IH.
    + cbn [filter]. rewrite Hs.
      clear IH. induction rows as [|x rows IHr]; [reflexivity|].
      cbn [forallb] in Hrows. apply andb_prop in Hrows. destruct Hrows as [Hx Hrows].
      apply negb_true_iff in Hx. cbn [filter]. rewrite Hx. now apply IHr.
  - cbn [filter]. rewrite Hs. now apply IH.
Qed.

(** Row by row, the watermark after a tick is not older than before. *)
Lemma watermarks_grow (now : Z) (rows : list schedule) :
  (forall cron p, get_prev cron now = Some p -> p <= now) ->
  Forall2 (fun s s' => id s' = id s /\ not_older (last_run_at s) (last_run_at s'))
          rows (rows_after now rows).
Proof.
  intro Hbefore.
  assert (Hrefl : forall s, not_older (last_run_at s) (last_run_at s)).
  { intro s. unfold not_older. destruct (last_run_at s); lia. }
  assert (Hsame : forall l : list schedule,
            Forall2 (fun s s' => id s' = id s /\
                       not_older (last_run_at s) (last_run_at s')) l l).
  { induction l; constructor; auto. }
  induction rows as [|s rows IH]; [constructor|].
  rewrite (rows_after_cons get_prev).
  destruct (is_enabled s =? 1).
  - destruct (get_prev (cron_schedule s) now) as [p|] eqn:Hp; [|apply Hsame].
    constructor; [|exact IH].
    destruct (should_run s now p) eqn:Hrun; [|auto].
    split; [reflexivity|].
    unfold should_run in Hrun. unfold not_older. cbn [set_last_run_at last_run_at].
    destruct (last_run_at s) as [w|]; [|exact I].
    rewrite Z.gtb_ltb in Hrun. apply Z.ltb_lt in Hrun.
    specialize (Hbefore _ _ Hp). lia.
  - constructor; [auto | exact IH].
Qed.

End Facts.

(** X17. A job that has never run is due when the latest occurrence of
    its expression is less than five minutes old.  For the expression
    [* * * * *] that is always so: the first tick after the job was
    created dispatches it and sets its watermark, at whatever instant the
    tick comes. *)
Theorem never_run_job_catches_up (now job : Z) (name : string) (q : list Z) :
  (forall cron enabled p,
     should_run (mkSchedule job name cron enabled None) now p
     = (now - p <? 300 * second)) /\
  schedule_ticker minutely_croniter now
    (mkState [mkSchedule job name every_minute 1 None] q)
  = (mkState [mkSchedule job name every_minute 1 (Some now)] (q ++ [job])%list,
     None).
Proof.
  split; [reflexivity|].
  rewrite (tick_one_job minutely_croniter
             (mkSchedule job name every_minute 1 None) now
             (every_minute_prev now) q eq_refl eq_refl).
  assert (Hrun : should_run (mkSchedule job name every_minute 1 None) now
                   (every_minute_prev now) = true).
  { unfold should_run. cbn [last_run_at]. apply Z.ltb_lt.
    destruct (every_minute_prev_latest now) as (k & _ & _ & Hle).
    unfold second in *. lia. }
  rewrite Hrun. reflexivity.
Qed.

(** X18. An expression that [croniter] rejects ends the tick at its row:
    the rows before it are dispatched and stamped as usual, the row
    itself and every row after it are neither dispatched nor stamped, and
    the tick raises the error of the bad row. *)
Theorem bad_cron_stops_the_tick (get_prev : string -> Z -> option Z)
    (now : Z) (before after : list schedule) (bad : schedule) (q : list Z) :
  forallb (fun s => negb (bad_row get_prev now s)) before = true ->
  bad_row get_prev now bad = true ->
  schedule_ticker get_prev now (mkState (before ++ bad :: after) q)
  = (mkState (rows_after get_prev now before ++ bad :: after)
             (q ++ emitted get_prev now before)%list,
     Some (OtherError "CroniterBadCronError" (cron_schedule bad))).
Proof.
  intros Hgood Hbad.
  destruct (tick_up_to_bad_row get_prev now before after bad Hgood Hbad)
    as (He & Hr & Hx).
  unfold schedule_ticker. cbn [schedules queue].
  rewrite (tick_rows_queue get_prev now _ q).
  unfold emitted, rows_after in He, Hr.
  destruct (tick_rows get_prev now (before ++ bad :: after) []) as [[rows' em] e].
  cbn [fst snd] in *. now subst.
Qed.

Lemma bad_cron_stops_the_tick_witness :
  let first := minutely_job 1 "first" 0 in
  let bad := mkSchedule 2 "broken" "every day" 1 None in
  let last := minutely_job 3 "last" 0 in
  schedule_ticker minutely_croniter (1700000000 * second)
    (mkState ([first] ++ bad :: [last]) [])
  = (mkState (rows_after minutely_croniter (1700000000 * second) [first]
                ++ bad :: [last])
             ([] ++ emitted minutely_croniter (1700000000 * second) [first])%list,
     Some (OtherError "CroniterBadCronError" (cron_schedule bad))).
Proof.
  apply (bad_cron_stops_the_tick minutely_croniter (1700000000 * second)
           [minutely_job 1 "first" 0] [minutely_job 3 "last" 0]
           (mkSchedule 2 "broken" "every day" 1 None) []);
    reflexivity.
Defined.

(** X19. The rows a tick stamps are exactly the rows it dispatches: in a
    table where no row carries the watermark [now] yet, the identifiers
    sent to the queue are, in row order, those of the rows that carry it
    after the tick. *)
Theorem stamped_iff_dispatched (get_prev : string -> Z -> option Z)
    (now : Z) (st : state) :
  forallb (fun s => negb (stamped_at now s)) (schedules st) = true ->
  let st' := fst (schedule_ticker get_prev now st) in
  queue st' =
  (queue st ++ map id (filter (stamped_at now) (schedules st')))%list.
Proof.
  intro Hfresh. cbv zeta. rewrite (schedule_ticker_split get_prev).
  cbn [queue schedules]. now rewrite (stamped_rows get_prev now _ Hfresh).
Qed.

Lemma stamped_iff_dispatched_witness :
  let now := 1700000000 * second in
  let st := mkState [minutely_job 1 "first" 0;
                     minutely_job 2 "second" (now - second)] [9] in
  let st' := fst (schedule_ticker minutely_croniter now st) in
  queue st' =
  (queue st ++ map id (filter (stamped_at now) (schedules st')))%list.
Proof.
  apply (stamped_iff_dispatched minutely_croniter (1700000000 * second)
           (mkState [minutely_job 1 "first" 0;
                     minutely_job 2 "second" (1700000000 * second - second)] [9])).
  reflexivity.
Defined.

(** X20. A tick never moves a watermark back.  For every [croniter] whose
    occurrence lies at or before [now], each row keeps its identifier and
    its watermark after the tick is not older than before; the table
    keeps its length and its order. *)
Theorem watermark_never_moves_back (get_prev : string -> Z -> option Z)
    (now : Z) (st : state) :
  (forall cron p, get_prev cron now = Some p -> p <= now) ->
  Forall2 (fun s s' => id s' = id s /\ not_older (last_run_at s) (last_run_at s'))
          (schedules st) (schedules (fst (schedule_ticker get_prev now st))).
Proof.
  intro Hbefore. rewrite (schedule_ticker_split get_prev). cbn [schedules].
  now apply watermarks_grow.
Qed.

Lemma watermark_never_moves_back_witness :
  let now := 1700000000 * second in
  let st := mkState [minutely_job 1 "first" 0;
                     mkSchedule 2 "second" every_minute 0 None] [] in
  Forall2 (fun s s' => id s' = id s /\ not_older (last_run_at s) (last_run_at s'))
          (schedules st)
          (schedules (fst (schedule_ticker minutely_croniter now st))).
Proof.
  apply (watermark_never_moves_back minutely_croniter (1700000000 * second)
           (mkState [minutely_job 1 "first" 0;
                     mkSchedule 2 "second" every_minute 0 None] [])).
  intros cron p. apply minutely_croniter_before.
Defined.

End WatermarkFacts.

Module TokenBudgetFacts.
Import PyStr PyStrFacts TokenChunker TokenBudget.

Lemma cost_sum_app (cost : string -> Z) (a b : list string) :
  cost_sum cost (a ++ b) = cost_sum cost a + cost_sum cost b.
Proof.
  unfold cost_sum. induction a as [|x a IH]; simpl; [reflexivity|].
  rewrite IH. lia.
Qed.

Lemma cost_sum_single (cost : string -> Z) (line : string) :
  cost_sum cost [line] = cost line.
Proof. unfold cost_sum. simpl. lia. Qed.

Lemma cost_sum_cons (cost : string -> Z) (line : string) (g : list string) :
  cost_sum cost (line :: g) = cost line + cost_sum cost g.
Proof. reflexivity. Qed.

Section Facts.

Context {W : Type}.
Variable count_tokens : string -> W -> option Z * W.
Variable cost : string -> Z.
Variable max_tokens_per_chunk : Z.
Hypothesis Hpriced : priced count_tokens cost.

#[local] Abbreviation step1 := (step count_tokens max_tokens_per_chunk).

Lemma flush_budgeted (read : list string) (st : state) :
  budgeted cost max_tokens_per_chunk read st ->
  exists groups : list (list string),
    flush st = map join groups /\
    Forall (fits cost max_tokens_per_chunk) groups /\
    List.concat groups = read.
Proof.
  intros (groups & Hc & Hfit & Hopen & _ & Hread). unfold flush.
  destruct (current_chunk_lines st) as [|l ls] eqn:E.
  - exists groups. rewrite app_nil_r in Hread. auto.
  - exists (groups ++ [l :: ls])%list.
    rewrite map_app, Hc, concat_app. cbn [map List.concat]. rewrite app_nil_r.
    split; [reflexivity|]. split; [|exact Hread].
    apply Forall_app. split; [exact Hfit|].
    constructor; [|constructor]. destruct Hopen as [H|H]; [discriminate | exact H].
Qed.

Lemma step_budgeted (read : list string) (st : state) (w : W) (line : string) :
  budgeted cost max_tokens_per_chunk read st ->
  budgeted cost max_tokens_per_chunk (read ++ [line])%list
    (fst (step1 (st, w) line)).
Proof.
  intro H. unfold step. pose proof (Hpriced line w) as Hcost.
  destruct (line_token_count count_tokens line w) as [n w']. cbn [fst] in Hcost.
  subst n.
  destruct (current_token_count st + cost line >? max_tokens_per_chunk) eqn:Hover.
  - destruct (flush_budgeted read st H) as (groups & Hf & Hfit & Hread).
    exists groups. cbn [fst chunks current_chunk_lines current_token_count].
    split; [exact Hf|]. split; [exact Hfit|].
    split; [right; left; reflexivity|].
    split; [now rewrite cost_sum_single | now rewrite Hread].
  - destruct H as (groups & Hc & Hfit & Hopen & Hcount & Hread).
    exists groups. cbn [fst chunks current_chunk_lines current_token_count].
    split; [exact Hc|]. split; [exact Hfit|].
    rewrite Z.gtb_ltb in Hover. apply Z.ltb_ge in Hover.
    split; [right; right|split].
    + rewrite cost_sum_app, <- Hcount, cost_sum_single. lia.
    + rewrite cost_sum_app, <- Hcount, cost_sum_single. lia.
    + now rewrite app_assoc, Hread.
Qed.

Lemma fold_budgeted (lines read : list string) (st : state) (w : W) :
  budgeted cost max_tokens_per_chunk read st ->
  budgeted cost max_tokens_per_chunk (read ++ lines)%list
    (fst (fold_left step1 lines (st, w))).
Proof.
  revert read st w. induction lines as [|line lines IH]; intros read st w H.
  - simpl. now rewrite app_nil_r.
  - cbn [fold_left].
    pose proof (step_budgeted read st w line H) as Hs.
    destruct (step1 (st, w) line) as [st1 w1]. cbn [fst] in Hs.
    specialize (IH _ _ w1 Hs). now rewrite <- app_assoc in IH.
Qed.

(** While the lines read so far fit the budget together, they stay in
    the open group. *)
Lemma fold_within_budget (lines read : list string) (w : W) :
  (forall line, 0 <= cost line) ->
  cost_sum cost (read ++ lines) <= max_tokens_per_chunk ->
  fst (fold_left step1 lines
         (mkState [] read (cost_sum cost read), w))
  = mkState [] (read ++ lines) (cost_sum cost (read ++ lines)).
Proof.
  intros Hpos. revert read w. induction lines as [|line lines IH]; intros read w Hsum.
  - simpl. now rewrite app_nil_r.
  - cbn [fold_left]. unfold step at 2.
    pose proof (Hpriced line w) as Hcost.
    destruct (line_token_count count_tokens line w) as [n w']. cbn [fst] in Hcost.
    subst n. cbn [current_token_count current_chunk_lines chunks].
    assert (Hrest : 0 <= cost_sum cost lines).
    { clear -Hpos. induction lines as [|x l IHl]; [unfold cost_sum; simpl; lia|].
      rewrite cost_sum_cons. specialize (Hpos x). lia. }
    assert (Hnow : cost_sum cost read + cost line <= max_tokens_per_chunk).
    { rewrite cost_sum_app, cost_sum_cons in Hsum. lia. }
    replace (cost_sum cost read + cost line >? max_tokens_per_chunk) with false
      by (symmetry; rewrite Z.gtb_ltb; apply Z.ltb_ge; lia).
    replace (cost_sum cost read + cost line) with (cost_sum cost (read ++ [line]))
      by (rewrite cost_sum_app, cost_sum_single; lia).
    rewrite IH; rewrite <- app_assoc; [reflexivity | exact Hsum].
Qed.

End Facts.

(** X21. With a counter that prices each line on its own, every chunk is
    within the budget unless it is a single line: the chunks are the
    joined groups of a partition of the lines, and each group either
    consists of one line or costs at most [max_tokens_per_chunk]. *)
Theorem chunks_fit_the_budget {W : Type}
    (count_tokens : string -> W -> option Z * W) (cost : string -> Z)
    (data_string : string) (max_tokens_per_chunk : Z) (w : W) :
  priced count_tokens cost ->
  exists groups : list (list string),
    fst (chunk_data_by_tokens count_tokens data_string max_tokens_per_chunk w)
      = map join groups /\
    List.concat groups = splitlines_keepends data_string /\
    Forall (fits cost max_tokens_per_chunk) groups.
Proof.
  intro Hpriced. unfold chunk_data_by_tokens.
  assert (H0 : budgeted cost max_tokens_per_chunk [] (mkState [] [] 0)).
  { exists []. simpl. repeat split; auto. }
  pose proof (fold_budgeted count_tokens cost max_tokens_per_chunk Hpriced
                (splitlines_keepends data_string) [] _ w H0) as H.
  destruct (fold_left _ _ _) as [st w'].
  cbn [fst app] in *.
  destruct (flush_budgeted cost max_tokens_per_chunk _ st H)
    as (groups & Hf & Hfit & Hread).
  exists groups. auto.
Qed.

Lemma chunks_fit_the_budget_witness :
  exists groups : list (list string),
    fst (chunk_data_by_tokens by_length
           ("ab" ++ String LF ("cdefgh" ++ String LF "i")) 4 tt)
      = map join groups /\
    List.concat groups
      = splitlines_keepends ("ab" ++ String LF ("cdefgh" ++ String LF "i")) /\
    Forall (fits (fun line => Z.of_nat (String.length line)) 4) groups.
Proof.
  apply (chunks_fit_the_budget by_length
           (fun line => Z.of_nat (String.length line))
           ("ab" ++ String LF ("cdefgh" ++ String LF "i")) 4 tt).
  intros line w. reflexivity.
Defined.

(** X22. Data whose lines fit the budget together is not split: with a
    counter that prices each line on its own, at a price that is not
    negative, the only chunk is the data itself. *)
Theorem small_input_is_one_chunk {W : Type}
    (count_tokens : string -> W -> option Z * W) (cost : string -> Z)
    (data_string : string) (max_tokens_per_chunk : Z) (w : W) :
  priced count_tokens cost ->
  (forall line, 0 <= cost line) ->
  cost_sum cost (splitlines_keepends data_string) <= max_tokens_per_chunk ->
  data_string <> "" ->
  fst (chunk_data_by_tokens count_tokens data_string max_tokens_per_chunk w)
    = [data_string].
Proof.
  intros Hpriced Hpos Hsum Hne. unfold chunk_data_by_tokens.
  pose proof (fold_within_budget count_tokens cost max_tokens_per_chunk Hpriced
                (splitlines_keepends data_string) [] w Hpos Hsum) as H.
  change (cost_sum cost []) with 0 in H.
  destruct (fold_left _ _ _) as [st w']. cbn [fst app] in *. subst st.
  unfold flush. cbn [current_chunk_lines chunks].
  pose proof (join_splitlines_keepends data_string) as Hjoin.
  destruct (splitlines_keepends data_string) as [|l ls].
  - exfalso. apply Hne. now rewrite <- Hjoin.
  - cbn [app]. now rewrite Hjoin.
Qed.

Lemma small_input_is_one_chunk_witness :
  fst (chunk_data_by_tokens by_length ("ab" ++ String LF "c") 4 tt)
    = ["ab" ++ String LF "c"].
Proof.
  apply (small_input_is_one_chunk by_length
           (fun line => Z.of_nat (String.length line))
           ("ab" ++ String LF "c") 4 tt).
  - intros line w. reflexivity.
  - intro line. lia.
  - vm_compute. discriminate.
  - discriminate.
Defined.

End TokenBudgetFacts.

Module DiffReportFacts.
Import PyStr Py Json JsonFacts Exclusions ExclusionsFacts DiffEngine DiffReport.

(** Filtering keeps the keys of every dictionary distinct. *)
Lemma kept_keys (ex : list string) (items : list (string * value)) :
  map fst (kept_entries ex items)
  = filter (fun k => negb (excluded ex k)) (map fst items).
Proof.
  unfold kept_entries. induction items as [|[k v] items IH]; [reflexivity|].
  simpl. destruct (excluded ex k); simpl; now rewrite IH.
Qed.

Lemma NoDup_filter {A} (f : A -> bool) (l : list A) :
  NoDup l -> NoDup (filter f l).
Proof.
  induction 1 as [|x l Hnot Hnd IH]; simpl; [constructor|].
  destruct (f x); [|exact IH]. constructor; [|exact IH].
  intro Hin. apply filter_In in Hin. now destruct Hin.
Qed.

Lemma remove_wf (ex : list string) (data : value) :
  wf data -> wf (remove_excluded_fields ex data).
Proof.
  induction data as [|b0|n0|r0|s0|xs IH|d IH] using value_rect'; intro Hwf;
    try exact Hwf.
  - simpl. constructor. inversion Hwf as [| | | | |items Hall|]; subst.
    clear Hwf. induction xs as [|x xs IHxs]; [constructor|].
    inversion IH; subst. inversion Hall; subst. simpl. constructor; auto.
  - rewrite remove_dict. inversion Hwf as [| | | | | |items Hnd Hall]; subst.
    constructor.
    + rewrite kept_keys. now apply NoDup_filter.
    + clear Hnd Hwf. unfold kept_entries.
      induction d as [|[k v] d IHd]; [constructor|].
      inversion IH; subst. inversion Hall; subst. simpl.
      destruct (excluded ex k); simpl; [now apply IHd|].
      constructor; [simpl in *; auto | now apply IHd].
Qed.

Lemma apply_exclusions_wf (ex : list string) (data : value) :
  wf data -> wf (apply_exclusions ex data).
Proof.
  intro H. unfold apply_exclusions. destruct ex; [exact H | now apply remove_wf].
Qed.

(** X23. Changes in excluded fields are not reported.  When the results
    of the two runs decode to documents that agree, up to the order of
    their keys, once the excluded fields are removed, the diff of the two
    runs is the no-differences message and the audit gets no section in
    the report.  The line differ is any function that reports nothing for
    equal inputs, and [json.loads] reads back what [json.dumps] wrote. *)
Theorem excluded_only_changes_are_silent
    (json_loads : string -> option value) (json_error : string -> string)
    (unified_diff : list string -> list string -> string -> string -> list string)
    (dumps_compact : value -> string) (excluded_fields : list string)
    (latest_results previous_results fromfile tofile : string)
    (latest_data previous_data : value) :
  (forall a ff tf, unified_diff a a ff tf = []) ->
  json_loads latest_results = Some latest_data ->
  json_loads previous_results = Some previous_data ->
  wf latest_data -> wf previous_data ->
  (forall v, In v [apply_exclusions excluded_fields latest_data;
                   apply_exclusions excluded_fields previous_data] ->
             json_loads (dumps_compact v) = Some v) ->
  same_up_to_key_order (apply_exclusions excluded_fields previous_data)
    (apply_exclusions excluded_fields latest_data) = true ->
  diff_text json_loads json_error unified_diff dumps_compact excluded_fields
    latest_results previous_results fromfile tofile = no_differences /\
  reports_change json_loads json_error unified_diff dumps_compact excluded_fields
    latest_results previous_results fromfile tofile = false.
Proof.
  intros Hdiff Hl Hp Hwl Hwp Hround Hsame.
  assert (Htext : diff_text json_loads json_error unified_diff dumps_compact
                    excluded_fields latest_results previous_results fromfile tofile
                  = no_differences).
  { unfold diff_text, diff_inputs. rewrite Hl, Hp.
    unfold generate_json_diff.
    rewrite (Hround (apply_exclusions excluded_fields previous_data))
      by (simpl; auto).
    rewrite (Hround (apply_exclusions excluded_fields latest_data))
      by (simpl; auto).
    assert (Henc : dumps_sorted (apply_exclusions excluded_fields previous_data)
                   = dumps_sorted (apply_exclusions excluded_fields latest_data)).
    { apply encode_sorted_key_order;
        [apply apply_exclusions_wf; exact Hwp
        |apply apply_exclusions_wf; exact Hwl | exact Hsame]. }
    rewrite Henc, Hdiff. reflexivity. }
  split; [exact Htext|]. unfold reports_change. rewrite Htext. reflexivity.
Qed.

Lemma excluded_only_changes_are_silent_witness :
  diff_text Sample.loads DiffEngine.Sample.error_text whole_file_diff dumps
    ["etag"] (dumps Sample.latest) (dumps Sample.previous) "previous" "latest"
    = no_differences /\
  reports_change Sample.loads DiffEngine.Sample.error_text whole_file_diff dumps
    ["etag"] (dumps Sample.latest) (dumps Sample.previous) "previous" "latest"
    = false.
Proof.
  apply (excluded_only_changes_are_silent Sample.loads
           DiffEngine.Sample.error_text whole_file_diff dumps ["etag"]
           (dumps Sample.latest) (dumps Sample.previous) "previous" "latest"
           Sample.latest Sample.previous).
  - intros a ff tf. apply DiffEngineFacts.whole_file_diff_same.
  - reflexivity.
  - reflexivity.
  - constructor; repeat constructor; simpl; intuition discriminate.
  - constructor; repeat constructor; simpl; intuition discriminate.
  - intros v [<-|[<-|[]]]; reflexivity.
  - reflexivity.
Defined.

End DiffReportFacts.

Module ServiceLogFacts.
Import PyStr Py Json RetryPolicy TokenChunker Summarizer ServiceLog.

Lemma extends_refl (w : World) : extends w w.
Proof. exists []. now rewrite app_nil_r. Qed.

Lemma extends_trans (w1 w2 w3 : World) :
  extends w1 w2 -> extends w2 w3 -> extends w1 w3.
Proof.
  intros [m1 H1] [m2 H2]. exists (m1 ++ m2)%list. now rewrite H2, H1, app_assoc.
Qed.

Lemma update_state_extends (celery_task : bool) (state msg : string) (w : World) :
  extends w (update_state celery_task state msg w).
Proof.
  unfold update_state. destruct celery_task; exists []; simpl; now rewrite app_nil_r.
Qed.

Section Facts.

Variable count_tokens_reply : list ai_call -> value -> outcome Z.
Variable generate_reply : list ai_call -> string -> Z -> outcome response.
Variable json_loads : string -> option value.
Variable uniform : nat -> Q.
Variable utcnow_iso : string.
Variable config : gemini_config.

#[local] Abbreviation count := (count_tokens count_tokens_reply).
#[local] Abbreviation asking :=
  (ask generate_reply uniform utcnow_iso).

Lemma count_tokens_log (content : value) (w : World) :
  ai_log (snd (count content w)) = (ai_log w ++ [CountTokens content])%list.
Proof. reflexivity. Qed.

Lemma count_tokens_extends (content : value) (w : World) :
  extends w (snd (count content w)).
Proof. now exists [CountTokens content]. Qed.

(** The retried call of the service ends, and what it has logged
    continues the log. *)
Lemma call_total (full_prompt : string) (max_output_tokens : Z) (w : World) :
  exists res w',
    _call_gemini_with_retry generate_reply uniform full_prompt
      max_output_tokens w = Some (res, w') /\
    extends w w'.
Proof.
  unfold _call_gemini_with_retry, retry_with_backoff, retry_with_backoff_log.
  destruct (wrapper_loop uniform 5 2
              (generate_content generate_reply full_prompt max_output_tokens)
              6 0 w []) as [[[res w'] log]|] eqn:Hloop.
  - exists res, w'. split; [reflexivity|].
    apply (RetryBudgetFacts.loop_invariant uniform 5 2
             (generate_content generate_reply full_prompt max_output_tokens)
             (extends w) 6 0 w w' [] log res); [|apply extends_refl | exact Hloop].
    intros w0 res0 w1 Hw0 Hcall. unfold generate_content in Hcall.
    injection Hcall as _ <-. eapply extends_trans; [exact Hw0|].
    now eexists.
  - exfalso.
    apply (RetryPolicyFacts.loop_total uniform 5 2
             (generate_content generate_reply full_prompt max_output_tokens)
             5 0 w []); [discriminate | reflexivity | exact Hloop].
Qed.

Lemma handle_shape (r : response) (v : value) :
  _handle_gemini_response r = Returned v -> text_or_error v.
Proof.
  unfold _handle_gemini_response, text_or_error.
  destruct (parts r).
  - destruct (text r) as [t|e].
    + intro H. injection H as <-. eauto.
    + destruct e; try discriminate. intro H. injection H as <-. eauto.
  - intro H. injection H as <-. eauto.
Qed.

Lemma ask_total (prompt : string) (data_string : value) (label : string)
    (max_output_tokens : Z) (w : World) :
  exists res w',
    asking prompt data_string label max_output_tokens w = Some (res, w') /\
    extends w w' /\
    forall v, res = Returned v -> text_or_error v.
Proof.
  unfold ask.
  destruct (_build_full_prompt utcnow_iso prompt data_string label) as [fp|e].
  2:{ exists (Raised e), w. split; [reflexivity|]. split; [apply extends_refl|].
      discriminate. }
  destruct (call_total fp max_output_tokens w) as (res & w' & Hcall & Hext).
  rewrite Hcall. destruct res as [r|e].
  - exists (_handle_gemini_response r), w'. split; [reflexivity|].
    split; [exact Hext|]. apply handle_shape.
  - exists (Raised e), w'. split; [reflexivity|]. split; [exact Hext|]. discriminate.
Qed.

Lemma line_counter_extends (line : string) (w : World) :
  extends w (snd (line_counter count_tokens_reply line w)).
Proof.
  unfold line_counter.
  pose proof (count_tokens_extends (VStr line) w) as H.
  destruct (count (VStr line) w) as [[n|e] w']; exact H.
Qed.

Lemma chunking_extends (text : string) (max : Z) (w : World) :
  extends w
    (snd (chunk_data_by_tokens (line_counter count_tokens_reply) text max w)).
Proof.
  unfold chunk_data_by_tokens.
  generalize (TokenChunker.mkState [] [] 0) as st.
  generalize (splitlines_keepends text) as lines.
  intros lines. revert w. induction lines as [|line lines IH]; intros w st.
  - simpl. apply extends_refl.
  - cbn [fold_left].
    assert (Hstep : extends w
              (snd (step (line_counter count_tokens_reply) max (st, w) line))).
    { unfold step, line_token_count.
      pose proof (line_counter_extends line w) as H.
      destruct (line_counter count_tokens_reply line w) as [[n|] w1];
        cbn [snd] in H; destruct (_ >? _); exact H. }
    destruct (step (line_counter count_tokens_reply) max (st, w) line) as [st1 w1].
    cbn [snd] in Hstep. specialize (IH w1 st1).
    destruct (fold_left _ lines (st1, w1)) as [st2 w2]. cbn [snd] in *.
    eapply extends_trans; eassumption.
Qed.

Lemma map_phase_total (celery_task : bool) (audit_name : string) (total i : nat)
    (todo : list string) (partial_summaries : list value) (w : World) :
  exists res w',
    map_phase generate_reply uniform utcnow_iso config celery_task audit_name
      total i todo partial_summaries w = Some (res, w') /\
    extends w w'.
Proof.
  revert i partial_summaries w.
  induction todo as [|chunk rest IH]; intros i partial_summaries w.
  - exists (Returned partial_summaries), w. split; [reflexivity | apply extends_refl].
  - cbn [map_phase].
    match goal with
    | |- context [asking ?p ?d ?l ?m ?w1] =>
        destruct (ask_total p d l m w1) as (res & w2 & Hask & Hext & _);
        assert (Hw1 : extends w w1) by apply update_state_extends
    end.
    rewrite Hask. destruct res as [summary|e].
    + destruct (IH (S i) (partial_summaries ++ [summary])%list w2)
        as (res' & w' & Hrest & Hext').
      exists res', w'. split; [exact Hrest|].
      eapply extends_trans; [exact Hw1|]. eapply extends_trans; eassumption.
    + exists (Raised e), w2. split; [reflexivity|].
      eapply extends_trans; eassumption.
Qed.

(** The [try] block ends; it starts with a token count, and what it
    returns is a text or an error dict. *)
Lemma summarize_total (celery_task : bool) (prompt : string) (data : value)
    (audit_name : string) (w : World) :
  exists res w' first more,
    summarize count_tokens_reply generate_reply json_loads uniform utcnow_iso
      config celery_task prompt data audit_name w = Some (res, w') /\
    ai_log w' = (ai_log w ++ CountTokens first :: more)%list /\
    forall v, res = Returned v -> text_or_error v.
Proof.
  unfold summarize.
  set (data_string := match data with
                      | VStr s => match json_loads s with
                                  | Some d => VStr (dumps d)
                                  | None => data
                                  end
                      | _ => data
                      end).
  assert (Hfrom : forall w1 res w',
            extends (snd (count data_string w)) w1 ->
            extends w1 w' ->
            (forall v, res = Returned v -> text_or_error v) ->
            exists first more,
              ai_log w' = (ai_log w ++ CountTokens first :: more)%list /\
              forall v, res = Returned v -> text_or_error v).
  { intros w1 res w' [m1 H1] [m2 H2] Hres. exists data_string, (m1 ++ m2)%list.
    split; [|exact Hres].
    rewrite H2, H1, count_tokens_log, <- !app_assoc. reflexivity. }
  assert (Hdone : forall w1 (res : outcome value) w',
            extends (snd (count data_string w)) w1 ->
            extends w1 w' ->
            (forall v, res = Returned v -> text_or_error v) ->
            exists res0 w0 first more,
              Some (res, w') = Some (res0, w0) /\
              ai_log w0 = (ai_log w ++ CountTokens first :: more)%list /\
              forall v, res0 = Returned v -> text_or_error v).
  { intros w1 res w' H1 H2 Hres.
    destruct (Hfrom w1 res w' H1 H2 Hres) as (first & more & Hlog & Hshape).
    exists res, w', first, more. auto. }
  destruct (count data_string w) as [counted w1] eqn:Hc1.
  assert (E1 : extends (snd (count data_string w)) w1)
    by (rewrite Hc1; apply extends_refl).
  cbn [snd] in Hdone.
  match goal with
  | |- context [match ?t with Returned n => _ | Raised e => Some (Raised e, w1) end] =>
      destruct t as [data_tokens|e]
  end.
  2:{ apply (Hdone w1); [apply extends_refl | apply extends_refl | discriminate]. }
  destruct (_build_full_prompt utcnow_iso prompt (VStr "[DATA_PLACEHOLDER]") audit_name)
    as [template_prompt|e].
  2:{ apply (Hdone w1); [apply extends_refl | apply extends_refl | discriminate]. }
  pose proof (count_tokens_extends (VStr template_prompt) w1) as E2.
  destruct (count (VStr template_prompt) w1) as [[template_tokens|e] w2];
    cbn [snd] in E2.
  2:{ apply (Hdone w1); [apply extends_refl | exact E2 | discriminate]. }
  pose proof (count_tokens_extends (VStr "[DATA_PLACEHOLDER]") w2) as E3.
  destruct (count (VStr "[DATA_PLACEHOLDER]") w2) as [[placeholder_tokens|e] w3];
    cbn [snd] in E3.
  2:{ apply (Hdone w2); [exact E2 | exact E3 | discriminate]. }
  assert (E13 : extends w1 w3) by (eapply extends_trans; eassumption).
  destruct (_ <? _).
  - match goal with
    | |- context [asking ?p ?d ?l ?m ?w4] =>
        destruct (ask_total p d l m w4) as (res & w' & Hask & Hext & Hres);
        assert (E34 : extends w3 w4) by apply update_state_extends
    end.
    rewrite Hask. apply (Hdone w3); [exact E13 | | exact Hres].
    eapply extends_trans; eassumption.
  - destruct data_string as [| | | |text| |];
      try (apply (Hdone w3); [exact E13 | apply extends_refl | discriminate]).
    pose proof (chunking_extends text
                  (max_tokens_per_chunk config - (template_tokens - placeholder_tokens))
                  w3) as E4.
    destruct (chunk_data_by_tokens _ text _ w3) as [chunks w4]. cbn [snd] in E4.
    destruct (map_phase_total celery_task audit_name (List.length chunks) 0 chunks [] w4)
      as (res & w5 & Hmap & E5).
    rewrite Hmap.
    assert (E15 : extends w1 w5).
    { eapply extends_trans; [exact E13|]. eapply extends_trans; eassumption. }
    destruct res as [partial_summaries|e].
    2:{ apply (Hdone w5); [exact E15 | apply extends_refl | discriminate]. }
    destruct (all_str partial_summaries) as [texts|].
    2:{ apply (Hdone w5); [exact E15 | apply update_state_extends | discriminate]. }
    match goal with
    | |- context [asking ?p ?d ?l ?m ?w6] =>
        destruct (ask_total p d l m w6) as (res & w' & Hask & Hext & Hres);
        assert (E56 : extends w5 w6) by apply update_state_extends
    end.
    rewrite Hask. apply (Hdone w5); [exact E15 | | exact Hres].
    eapply extends_trans; eassumption.
Qed.

(** The summarizer always ends; it calls the service exactly when there
    is data, and it gives back a text or an error dict. *)
Lemma summary_shape (celery_task : bool) (prompt : string) (data : value)
    (audit_name : string) (w : World) :
  exists v w' more,
    generate_gemini_summary count_tokens_reply generate_reply json_loads uniform
      utcnow_iso config celery_task prompt data audit_name w = Some (v, w') /\
    ai_log w' = (ai_log w ++ more)%list /\
    (more = [] <-> no_data data = true) /\
    text_or_error v.
Proof.
  unfold generate_gemini_summary. fold (no_data data).
  destruct (no_data data).
  - exists (VStr no_data_message), w, []. rewrite app_nil_r.
    split; [reflexivity|]. split; [reflexivity|]. split; [tauto|].
    left. now eexists.
  - destruct (summarize_total celery_task prompt data audit_name w)
      as (res & w' & first & more & Hsum & Hlog & Hres).
    rewrite Hsum. destruct res as [v|e].
    + exists v, w', (CountTokens first :: more). split; [reflexivity|].
      split; [exact Hlog|]. split; [split; discriminate | now apply Hres].
    + eexists. eexists. exists (CountTokens first :: more).
      split; [reflexivity|].
      split; [unfold update_state; destruct celery_task; exact Hlog|].
      split; [split; discriminate|]. right. now eexists.
Qed.

End Facts.

(** X24. The summarizer always ends, and it calls the generative-AI
    service exactly when there is data and the set-up succeeds: the log
    of service calls grows unless the data is falsy or a list or dict
    without a truthy element (for a dict: without a truthy key), or
    [config.ini] cannot be read, or decoding the data fails with an
    exception other than the two that are caught on the spot; whatever
    the service answers. *)
Theorem service_called_iff_data
    (count_tokens_reply : list ai_call -> value -> outcome Z)
    (generate_reply : list ai_call -> string -> Z -> outcome response)
    (uniform : nat -> Q) (utcnow_iso : string)
    (read_config : outcome gemini_config)
    (decode : string -> SummarizerSetup.decoded)
    (celery_task : bool) (prompt : string) (data : value) (audit_name : string)
    (w : World) :
  exists v w' more,
    SummarizerSetup.generate_gemini_summary count_tokens_reply generate_reply
      uniform utcnow_iso read_config decode celery_task prompt data audit_name w
      = Some (v, w') /\
    ai_log w' = (ai_log w ++ more)%list /\
    (more = [] <->
     no_data data = true \/
     SummarizerSetup.setup_failure read_config decode data <> None).
Proof.
  unfold SummarizerSetup.generate_gemini_summary. fold (no_data data).
  assert (Hfail : forall e,
            SummarizerSetup.setup_failure read_config decode data = Some e ->
            exists v w' more,
              Some (SummarizerSetup.failure celery_task audit_name e w)
                = Some (v, w') /\
              ai_log w' = (ai_log w ++ more)%list /\
              (more = [] <->
               no_data data = true \/
               SummarizerSetup.setup_failure read_config decode data <> None)).
  { intros e He. eexists. eexists. exists []. split; [reflexivity|].
    split; [unfold update_state; destruct celery_task; simpl;
            now rewrite app_nil_r|].
    split; [intros _; right; congruence | reflexivity]. }
  destruct (no_data data) eqn:Hdata.
  - exists (VStr no_data_message), w, []. rewrite app_nil_r.
    split; [reflexivity|]. split; [reflexivity|]. split; auto.
  - destruct read_config as [config|e] eqn:Hconfig.
    + destruct (SummarizerSetup.setup_failure (Returned config) decode data)
        as [e|] eqn:Hsetup; [now apply Hfail|].
      destruct (summary_shape count_tokens_reply generate_reply
                  (SummarizerSetup.json_loads decode) uniform utcnow_iso config
                  celery_task prompt data audit_name w)
        as (v & w' & more & Hrun & Hlog & Hiff & _).
      exists v, w', more. split; [exact Hrun|]. split; [exact Hlog|].
      split.
      * intro Hmore. apply Hiff in Hmore. congruence.
      * intros [H|H]; [discriminate | congruence].
    + now apply Hfail.
Qed.

(** The three ways to a summary without a call, and the call, run: no
    data; a configuration that does not parse; a text the decoder fails
    on; and a line of data. *)
Example calls_of_four_summaries :
  let calls read_config decode data :=
    option_map (fun r => List.length (ai_log (snd r)))
      (SummarizerSetup.generate_gemini_summary Sample.four_tokens
         Sample.one_line_answer Sample.no_jitter "2024-01-01T00:00:00"
         read_config decode true "Summarise." data "rules" Sample.world0) in
  calls (Returned Sample.config) SummarizerSetup.Sample.no_json (VList [])
    = Some 0%nat /\
  calls (Raised (ValueError "invalid literal for int() with base 10: 'many'"))
    SummarizerSetup.Sample.no_json (VStr "a,b") = Some 0%nat /\
  calls (Returned Sample.config) SummarizerSetup.Sample.too_deep (VStr "a,b")
    = Some 0%nat /\
  calls (Returned Sample.config) SummarizerSetup.Sample.no_json (VStr "a,b")
    = Some 4%nat.
Proof. vm_compute. repeat split; reflexivity. Qed.

(** X25. The summarizer never raises and never hangs: every failure of
    the service, of the token counter or of the prompt builder comes
    back as a dict with the one entry [error], and anything else it
    returns is a text. *)
Theorem summary_is_text_or_error
    (count_tokens_reply : list ai_call -> value -> outcome Z)
    (generate_reply : list ai_call -> string -> Z -> outcome response)
    (json_loads : string -> option value) (uniform : nat -> Q)
    (utcnow_iso : string) (config : gemini_config)
    (celery_task : bool) (prompt : string) (data : value) (audit_name : string)
    (w : World) :
  exists v w',
    generate_gemini_summary count_tokens_reply generate_reply json_loads uniform
      utcnow_iso config celery_task prompt data audit_name w = Some (v, w') /\
    text_or_error v.
Proof.
  destruct (summary_shape count_tokens_reply generate_reply json_loads uniform
              utcnow_iso config celery_task prompt data audit_name w)
    as (v & w' & more & Hrun & _ & _ & Hshape).
  exists v, w'. auto.
Qed.

End ServiceLogFacts.

Module SecopsCsvFacts.
Import PyStr Py PaginatedFetcher AuditRun SecopsCsv.

Lemma heads_length (columns : list (list value)) (row : list value) :
  heads columns = Some row -> List.length row = List.length columns.
Proof.
  revert row. induction columns as [|[|x c] columns IH]; intros row H; simpl in H.
  - now injection H as <-.
  - discriminate.
  - destruct (heads columns) as [r|]; [|discriminate].
    injection H as <-. simpl. now rewrite (IH r).
Qed.

Lemma heads_none (columns : list (list value)) (bound : nat) :
  heads columns = None -> min_length columns bound = O.
Proof.
  induction columns as [|[|x c] columns IH]; intro H; simpl in H.
  - discriminate.
  - reflexivity.
  - destruct (heads columns) as [r|]; [discriminate|].
    unfold min_length in *. cbn [fold_right]. rewrite IH by reflexivity. lia.
Qed.

Lemma heads_some (columns : list (list value)) (row : list value) (bound : nat) :
  heads columns = Some row ->
  min_length columns (S bound) = S (min_length (map (@tl value) columns) bound).
Proof.
  revert row. induction columns as [|[|x c] columns IH]; intros row H; simpl in H.
  - reflexivity.
  - discriminate.
  - destruct (heads columns) as [r|]; [|discriminate].
    unfold min_length in *. cbn [map fold_right tl List.length].
    rewrite (IH r eq_refl). lia.
Qed.

Lemma min_length_zero (columns : list (list value)) : min_length columns O = O.
Proof.
  unfold min_length. induction columns as [|c columns IH]; simpl; [reflexivity|].
  rewrite IH. lia.
Qed.

Lemma heads_cell (columns : list (list value)) (row : list value) (j : nat) :
  heads columns = Some row ->
  nth_error row j
  = match nth_error columns j with
    | Some column => nth_error column O
    | None => None
    end.
Proof.
  revert row j. induction columns as [|[|x c] columns IH]; intros row j H;
    simpl in H.
  - injection H as <-. now destruct j.
  - discriminate.
  - destruct (heads columns) as [r|] eqn:Hr; [|discriminate].
    injection H as <-. destruct j as [|j]; [reflexivity|].
    simpl. now apply IH.
Qed.

Lemma nth_error_map_tl (columns : list (list value)) (j : nat) :
  nth_error (map (@tl value) columns) j
  = option_map (@tl value) (nth_error columns j).
Proof. apply nth_error_map. Qed.

(** The rows of [zip_rows]: their number, their width and their cells. *)
Lemma zip_rows_spec (n : nat) (columns : list (list value)) :
  List.length (zip_rows n columns) = min_length columns n /\
  Forall (fun row => List.length row = List.length columns) (zip_rows n columns) /\
  forall i j row column,
    nth_error (zip_rows n columns) i = Some row ->
    nth_error columns j = Some column ->
    nth_error row j = nth_error column i.
Proof.
  revert columns. induction n as [|n IH]; intro columns.
  - cbn [zip_rows]. rewrite min_length_zero. split; [reflexivity|].
    split; [constructor|]. intros i j row column H. now destruct i.
  - cbn [zip_rows]. destruct (heads columns) as [r|] eqn:Hr.
    + destruct (IH (map (@tl value) columns)) as (Hlen & Hwidth & Hcell).
      split; [|split].
      * cbn [List.length]. rewrite Hlen. symmetry. eapply heads_some. exact Hr.
      * constructor; [now apply heads_length|].
        rewrite length_map in Hwidth. exact Hwidth.
      * intros i j row column Hi Hj. destruct i as [|i].
        -- injection Hi as <-. rewrite (heads_cell _ _ j Hr), Hj. reflexivity.
        -- cbn [nth_error] in Hi.
           rewrite (Hcell i j row (tl column) Hi).
           ++ destruct column; [now destruct i | reflexivity].
           ++ now rewrite nth_error_map_tl, Hj.
    + rewrite (heads_none _ _ Hr). split; [reflexivity|].
      split; [constructor|]. intros i j row column H. now destruct i.
Qed.

Lemma zip_star_spec (columns : list (list value)) :
  List.length (zip_star columns) = shortest columns /\
  Forall (fun row => List.length row = List.length columns) (zip_star columns) /\
  forall i j row column,
    nth_error (zip_star columns) i = Some row ->
    nth_error columns j = Some column ->
    nth_error row j = nth_error column i.
Proof.
  unfold zip_star, shortest. destruct columns as [|first rest].
  - split; [reflexivity|]. split; [constructor|].
    intros i j row column H. now destruct i.
  - apply zip_rows_spec.
Qed.

Section Facts.

Variable dumps_compact : value -> string.

Lemma headers_of_length (items headers : list value) :
  headers_of items = Returned headers -> List.length headers = List.length items.
Proof.
  revert headers. induction items as [|item items IH]; intros headers H; simpl in H.
  - now injection H as <-.
  - destruct (subscript item "column"); [|discriminate].
    destruct (headers_of items) as [hs|]; [|discriminate].
    injection H as <-. simpl. now rewrite (IH hs).
Qed.

Lemma columns_of_length (items : list value) (columns : list (list value)) :
  columns_of dumps_compact items = Returned columns ->
  List.length columns = List.length items.
Proof.
  revert columns. induction items as [|item items IH]; intros columns H; simpl in H.
  - now injection H as <-.
  - destruct (column_values dumps_compact item); [|discriminate].
    destruct (columns_of dumps_compact items) as [cs|]; [|discriminate].
    injection H as <-. simpl. now rewrite (IH cs).
Qed.

End Facts.

(** X28. The table behind the CSV text is rectangular and cut to the
    shortest column.  When the conversion yields a table, there is one
    header per column, every data row has exactly as many cells as there
    are headers, the number of data rows is the number of values of the
    shortest column (the further values of longer columns are dropped),
    and cell [j] of row [i] is value [i] extracted from column [j]. *)
Theorem csv_table_is_rectangular (dumps_compact : value -> string)
    (items headers : list value) (rows : list (list value)) :
  csv_table dumps_compact items = Some (headers, rows) ->
  List.length headers = List.length items /\
  Forall (fun row => List.length row = List.length headers) rows /\
  exists columns,
    columns_of dumps_compact items = Returned columns /\
    List.length rows = shortest columns /\
    forall i j row column,
      nth_error rows i = Some row -> nth_error columns j = Some column ->
      nth_error row j = nth_error column i.
Proof.
  unfold csv_table.
  destruct (headers_of items) as [hs|] eqn:Hh; [|discriminate].
  destruct (columns_of dumps_compact items) as [columns|] eqn:Hc; [|discriminate].
  intro H. injection H as <- <-.
  pose proof (headers_of_length _ _ Hh) as Hhl.
  pose proof (columns_of_length _ _ _ Hc) as Hcl.
  destruct (zip_star_spec columns) as (Hlen & Hwidth & Hcell).
  split; [exact Hhl|]. split.
  - rewrite Hhl, <- Hcl. exact Hwidth.
  - exists columns. auto.
Qed.

Lemma csv_table_is_rectangular_witness :
  let headers := [VStr "user"; VStr "total"] in
  let rows := [[VStr "ann"; VStr "3"]] in
  List.length headers = List.length Sample.two_columns /\
  Forall (fun row => List.length row = List.length headers) rows /\
  exists columns,
    columns_of Sample.no_dumps Sample.two_columns = Returned columns /\
    List.length rows = shortest columns /\
    forall i j row column,
      nth_error rows i = Some row -> nth_error columns j = Some column ->
      nth_error row j = nth_error column i.
Proof.
  apply (csv_table_is_rectangular Sample.no_dumps Sample.two_columns
           [VStr "user"; VStr "total"] [[VStr "ann"; VStr "3"]]).
  reflexivity.
Defined.

(** The loop over the priority list stops at the first key it finds. *)
Lemma first_present_found (before after : list string) (key : string)
    (union : dict) (v : value) :
  (forall k, In k before -> lookup k union = None) ->
  lookup key union = Some v ->
  first_present (before ++ key :: after) (VDict union) = Returned (Some v).
Proof.
  intros Hbefore Hv. induction before as [|k before IH].
  - cbn [app first_present key_in subscript]. unfold mem. now rewrite Hv.
  - cbn [app first_present key_in]. unfold mem.
    rewrite (Hbefore k) by now left.
    apply IH. intros k' Hk'. apply Hbefore. now right.
Qed.

(** X29. A union that holds one of the simple value types yields the
    value of the first of them in the priority list, whatever else it
    holds: a later simple type, [nullVal], [dateVal] and [protoVal] are
    not looked at. *)
Theorem simple_value_wins (dumps_compact : value -> string) (union : dict)
    (before after : list string) (key : string) (v : value) :
  VALUE_KEYS = (before ++ key :: after)%list ->
  (forall k, In k before -> lookup k union = None) ->
  lookup key union = Some v ->
  _extract_value_from_union dumps_compact (VDict union) = Returned v.
Proof.
  intros Hkeys Hbefore Hv. unfold _extract_value_from_union.
  rewrite Hkeys, (first_present_found before after key union v Hbefore Hv).
  reflexivity.
Qed.

Lemma simple_value_wins_witness :
  _extract_value_from_union Sample.no_dumps
    (VDict [("nullVal", VBool true); ("doubleVal", VFloat "1.5");
            ("int64Val", VStr "7")])
  = Returned (VStr "7").
Proof.
  apply (simple_value_wins Sample.no_dumps
           [("nullVal", VBool true); ("doubleVal", VFloat "1.5");
            ("int64Val", VStr "7")]
           ["stringVal"]
           ["uint64Val"; "doubleVal"; "boolVal"; "timestampVal"; "bytesVal"]
           "int64Val" (VStr "7")).
  - reflexivity.
  - intros k [<-|[]]. reflexivity.
  - reflexivity.
Defined.

(** X30. For a response that is a dict the conversion never raises:
    whatever goes wrong with the columns gives the empty text, and so do
    a missing [results] entry and a falsy one.  A response that is
    neither a dict, a list nor a string makes the guard itself raise,
    before the [try] block is entered. *)
Theorem csv_of_a_dict_never_raises (dumps_compact : value -> string)
    (writerow : list value -> string) (api_response : dict) :
  (exists text,
     convert_secops_json_to_csv dumps_compact writerow (VDict api_response)
       = Returned text /\
     (match lookup "results" api_response with
      | Some results => truthy results = false
      | None => True
      end -> text = "")) /\
  convert_secops_json_to_csv dumps_compact writerow VNone
    = Raised (TypeError "argument is not iterable").
Proof.
  split; [|reflexivity].
  unfold convert_secops_json_to_csv. cbn [key_in subscript]. unfold mem.
  destruct (lookup "results" api_response) as [results|].
  - destruct (truthy results) eqn:Ht; cbn [negb].
    + destruct results as [| | | | |items|];
        try (eexists; split; [reflexivity | discriminate]).
      destruct (csv_table dumps_compact items) as [[headers rows]|];
        eexists; (split; [reflexivity | discriminate]).
    + eexists. split; reflexivity.
  - eexists. split; reflexivity.
Qed.

End SecopsCsvFacts.
